(** * JitArm64 system-register handlers: condition fields, FPSCR summary,
      traps and the timebase read

    The development embeds [JitArm64_SystemRegisters.cpp].  The C++ methods
    are code generators, so each one becomes a Rocq function in a small
    emitter monad whose result is the list of AArch64 instructions it emits.
    The meaning of the emitted code is given by an interpreter for the
    instruction subset the file uses; registers are [Z] values wrapped to
    the operation width, exactly as the 32/64-bit host registers wrap. *)

From Stdlib Require Import ZArith List Bool Lia Btauto.
Import ListNotations.
Local Open Scope Z_scope.

(* ===================================================================== *)
(** * The host: AArch64 registers, flags and the instruction subset      *)
(* ===================================================================== *)

Module ShiftType.
Inductive t := LSL | LSR.
End ShiftType.

Module GPRSize.
Inductive t := B32 | B64.
End GPRSize.

Module IndexType.
Inductive t := Unsigned | Signed.
End IndexType.

Module FlushMode.
Inductive t := All | MaintainState.
End FlushMode.

Module Arm64Gen.

(** The register cache ([gpr], [fpr]) is an external collaborator.  A host
    register is identified here by what the cache has bound to it: a guest
    condition field, a guest general register, or a scoped temporary. Two
    different names are two different host registers, which is the cache's
    contract. *)
Inductive HostReg :=
| CRh (field : Z)
| GPRh (r : Z)
| Scoped (k : nat)
| PPC_REGh.

Definition HostReg_eqb (a b : HostReg) : bool :=
  match a, b with
  | CRh f, CRh g => f =? g
  | GPRh r, GPRh s => r =? s
  | Scoped k, Scoped l => Nat.eqb k l
  | PPC_REGh, PPC_REGh => true
  | _, _ => false
  end.

(** [W h] and [X h] are the 32-bit and 64-bit views of one register; [S k]
    is the single-precision view of the k-th scoped vector register. *)
Inductive ARM64Reg :=
| W (h : HostReg)
| X (h : HostReg)
| S (k : nat)
| WZR
| ZR.

Definition PPC_REG : ARM64Reg := X PPC_REGh.

Definition Is64Bit (r : ARM64Reg) : bool :=
  match r with X _ | ZR => true | _ => false end.

Definition EncodeRegTo32 (r : ARM64Reg) : ARM64Reg :=
  match r with X h => W h | ZR => WZR | _ => r end.

Definition EncodeRegTo64 (r : ARM64Reg) : ARM64Reg :=
  match r with W h => X h | WZR => ZR | _ => r end.

Definition EncodeRegToSingle (r : ARM64Reg) : ARM64Reg := r.

Inductive CCFlags :=
| CC_EQ | CC_NEQ | CC_CS | CC_CC | CC_MI | CC_PL | CC_VS | CC_VC
| CC_HI | CC_LS | CC_GE | CC_LT | CC_GT | CC_LE | CC_AL | CC_NV.

Inductive Operand2 :=
| Reg (Rm : ARM64Reg)
| Imm (v : Z)
| LogicalImm (v : Z) (size : GPRSize.t)
| ArithOption (Rm : ARM64Reg) (shift : ShiftType.t) (amount : Z).

Coercion Reg : ARM64Reg >-> Operand2.

(** Fields of the guest register file ([PowerPC::PowerPCState]) and of
    [CoreTiming::Globals], named as the [PPCSTATE_OFF] and [offsetof]
    expressions name them. *)
Inductive PPCField :=
| fpscr | Exceptions | downcount | xer_ca | xer_so_ov | xer_stringctrl.

Inductive GlobalsField :=
| global_timer | slice_length | fake_TB_start_value | fake_TB_start_ticks
| last_OC_factor_inverted.

Inductive Offset :=
| PPCSTATE_OFF (f : PPCField)
| PPCSTATE_OFF_SPR (index : Z)
| offsetof_Globals (g : GlobalsField).

Definition PPCField_tag (f : PPCField) : Z :=
  match f with
  | fpscr => 0 | Exceptions => 1 | downcount => 2
  | xer_ca => 3 | xer_so_ov => 4 | xer_stringctrl => 5
  end.

Definition GlobalsField_tag (g : GlobalsField) : Z :=
  match g with
  | global_timer => 0 | slice_length => 1 | fake_TB_start_value => 2
  | fake_TB_start_ticks => 3 | last_OC_factor_inverted => 4
  end.

Definition Offset_eqb (a b : Offset) : bool :=
  match a, b with
  | PPCSTATE_OFF f, PPCSTATE_OFF g => PPCField_tag f =? PPCField_tag g
  | PPCSTATE_OFF_SPR i, PPCSTATE_OFF_SPR j => i =? j
  | offsetof_Globals f, offsetof_Globals g => GlobalsField_tag f =? GlobalsField_tag g
  | _, _ => false
  end.

(** The second 8-byte word an [LDP] reads: the field that follows in
    [CoreTiming::Globals]. *)
Definition Offset_next (a : Offset) : Offset :=
  match a with
  | offsetof_Globals global_timer => offsetof_Globals slice_length
  | offsetof_Globals fake_TB_start_value => offsetof_Globals fake_TB_start_ticks
  | _ => a
  end.

Inductive HostFunction := RoundingModeUpdated.

Definition FixupBranch := nat.

Inductive insn :=
(* bit fields *)
| UBFX (Rd Rn : ARM64Reg) (lsb width : Z)
| BFI (Rd Rn : ARM64Reg) (lsb width : Z)
(* logic *)
| AND (Rd Rn : ARM64Reg) (op2 : Operand2)
| ORR (Rd Rn : ARM64Reg) (op2 : Operand2)
| EOR (Rd Rn : ARM64Reg) (op2 : Operand2)
| BIC (Rd Rn : ARM64Reg) (op2 : Operand2)
| EON (Rd Rn : ARM64Reg) (op2 : Operand2)
| ORN (Rd Rn : ARM64Reg) (op2 : Operand2)
| TST (Rn : ARM64Reg) (op2 : Operand2)
(* arithmetic *)
| ADD (Rd Rn : ARM64Reg) (op2 : Operand2)
| SUB (Rd Rn : ARM64Reg) (op2 : Operand2)
| CMP (Rn : ARM64Reg) (op2 : Operand2)
| CMPI2R (Rn : ARM64Reg) (imm : Z) (scratch : ARM64Reg)
| UMULH (Rd Rn Rm : ARM64Reg)
| UDIV (Rd Rn Rm : ARM64Reg)
| SDIV (Rd Rn Rm : ARM64Reg)
| LSR (Rd Rn : ARM64Reg) (amount : Z)
| SXTW (Rd Rn : ARM64Reg)
| MOV (Rd Rm : ARM64Reg)
| MOVI2R (Rd : ARM64Reg) (imm : Z)
| MOVP2R_globals (Rd : ARM64Reg)
| CSET (Rd : ARM64Reg) (cc : CCFlags)
| CSEL (Rd Rn Rm : ARM64Reg) (cc : CCFlags)
(* memory *)
| LDR (ty : IndexType.t) (Rt Rn : ARM64Reg) (off : Offset)
| LDRH (ty : IndexType.t) (Rt Rn : ARM64Reg) (off : Offset)
| LDRB (ty : IndexType.t) (Rt Rn : ARM64Reg) (off : Offset)
| STR (ty : IndexType.t) (Rt Rn : ARM64Reg) (off : Offset)
| LDP (ty : IndexType.t) (Rt Rt2 Rn : ARM64Reg) (off : Offset)
(* floating point *)
| SCVTF (Sd Wn : ARM64Reg)
| FLDR (size : Z) (ty : IndexType.t) (Sd Rn : ARM64Reg) (off : Offset)
| FMUL (Sd Sn Sm : ARM64Reg)
| FCVTS (Rd Sn : ARM64Reg)
(* control: branches carry the fixup they are resolved through *)
| BrCond (cc : CCFlags) (f : FixupBranch)
| BrAlways (f : FixupBranch)
| BrTBZ (Rt : ARM64Reg) (bit : Z) (f : FixupBranch)
| BrTBNZ (Rt : ARM64Reg) (bit : Z) (f : FixupBranch)
| BrCBZ (Rt : ARM64Reg) (f : FixupBranch)
| BrCBNZ (Rt : ARM64Reg) (f : FixupBranch)
| JumpTarget (f : FixupBranch)
| SwitchToFarCode
| SwitchToNearCode
(* code emitted by external helpers of the JIT *)
| gpr_Flush (mode : FlushMode.t) (tmp : ARM64Reg)
| fpr_Flush (mode : FlushMode.t)
| WriteExceptionExit (dest : Z) (only_external always_exception : bool)
| WriteExit (dest : Z)
| FallBackToInterpreter
| ABI_PushRegisters
| ABI_PopRegisters
| ABI_CallFunction (fn : HostFunction).

(** ** Machine state *)

Record PSTATE := { flagN : bool; flagZ : bool; flagC : bool; flagV : bool }.

(** Single-precision values stay symbolic: the development never looks
    inside a float, it only records how one was produced. *)
Inductive fval :=
| f_of_s32 (z : Z)
| f_of_mem (bits : Z)
| f_mul (a b : fval).

Inductive Event :=
| EvGprFlush (mode : FlushMode.t)
| EvFprFlush (mode : FlushMode.t)
| EvFallback
| EvCall (fn : HostFunction).

Record Host := {
  regs : HostReg -> Z;
  fregs : nat -> fval;
  nzcv : PSTATE;
  mem : Offset -> Z;
  fcvtzs : fval -> Z;        (* the FPU's convert-to-integer, round to zero *)
  globals_addr : Z;          (* where core_timing_globals lives *)
  events : list Event
}.

Definition wrap (w v : Z) : Z := v mod 2 ^ w.

Definition signed (w v : Z) : Z := if v <? 2 ^ (w - 1) then v else v - 2 ^ w.

Definition opwidth (r : ARM64Reg) : Z := if Is64Bit r then 64 else 32.

Definition host_of (r : ARM64Reg) : option HostReg :=
  match r with W h | X h => Some h | _ => None end.

(** Reading at width [w]: the low [w] bits; the zero registers read 0. *)
Definition rd (w : Z) (st : Host) (r : ARM64Reg) : Z :=
  match host_of r with
  | Some h => wrap w (regs st h)
  | None => 0
  end.

Definition set_regs (st : Host) (f : HostReg -> Z) : Host :=
  {| regs := f; fregs := fregs st; nzcv := nzcv st; mem := mem st;
     fcvtzs := fcvtzs st; globals_addr := globals_addr st; events := events st |}.

Definition set_fregs (st : Host) (f : nat -> fval) : Host :=
  {| regs := regs st; fregs := f; nzcv := nzcv st; mem := mem st;
     fcvtzs := fcvtzs st; globals_addr := globals_addr st; events := events st |}.

Definition set_nzcv (st : Host) (p : PSTATE) : Host :=
  {| regs := regs st; fregs := fregs st; nzcv := p; mem := mem st;
     fcvtzs := fcvtzs st; globals_addr := globals_addr st; events := events st |}.

Definition set_mem (st : Host) (m : Offset -> Z) : Host :=
  {| regs := regs st; fregs := fregs st; nzcv := nzcv st; mem := m;
     fcvtzs := fcvtzs st; globals_addr := globals_addr st; events := events st |}.

Definition log (st : Host) (e : Event) : Host :=
  {| regs := regs st; fregs := fregs st; nzcv := nzcv st; mem := mem st;
     fcvtzs := fcvtzs st; globals_addr := globals_addr st;
     events := events st ++ [e] |}.

Definition upd (h : HostReg) (v : Z) (f : HostReg -> Z) : HostReg -> Z :=
  fun h' => if HostReg_eqb h h' then v else f h'.

(** Writing at width [w] zero-extends into the full register; writes to the
    zero registers are dropped. *)
Definition wr (w : Z) (st : Host) (r : ARM64Reg) (v : Z) : Host :=
  match host_of r with
  | Some h => set_regs st (upd h (wrap w v) (regs st))
  | None => st
  end.

Definition fupd (k : nat) (v : fval) (f : nat -> fval) : nat -> fval :=
  fun k' => if Nat.eqb k k' then v else f k'.

Definition frd (st : Host) (r : ARM64Reg) : fval :=
  match r with S k => fregs st k | _ => f_of_mem 0 end.

Definition fwr (st : Host) (r : ARM64Reg) (v : fval) : Host :=
  match r with S k => set_fregs st (fupd k v (fregs st)) | _ => st end.

Definition mupd (o : Offset) (v : Z) (m : Offset -> Z) : Offset -> Z :=
  fun o' => if Offset_eqb o o' then v else m o'.

Definition load (w : Z) (st : Host) (o : Offset) : Z := wrap w (mem st o).

(** A 64-bit store into the special-register array covers two adjacent
    32-bit registers, low word first. *)
Definition store (w : Z) (st : Host) (o : Offset) (v : Z) : Host :=
  match o with
  | PPCSTATE_OFF_SPR i =>
      if w =? 64
      then set_mem st (mupd (PPCSTATE_OFF_SPR (i + 1)) (wrap 32 (Z.shiftr (wrap 64 v) 32))
                         (mupd o (wrap 32 v) (mem st)))
      else set_mem st (mupd o (wrap w v) (mem st))
  | _ => set_mem st (mupd o (wrap w v) (mem st))
  end.

Definition op2val (w : Z) (st : Host) (op : Operand2) : Z :=
  match op with
  | Reg r => rd w st r
  | Imm v => wrap w v
  | LogicalImm v _ => wrap w v
  | ArithOption r ShiftType.LSL n => wrap w (Z.shiftl (rd w st r) n)
  | ArithOption r ShiftType.LSR n => Z.shiftr (rd w st r) n
  end.

(** Flags of a subtraction [a - b] and of a logical result, at width [w]. *)
Definition SUBS_flags (w a b : Z) : PSTATE :=
  let r := wrap w (a - b) in
  let d := signed w a - signed w b in
  {| flagN := Z.testbit r (w - 1);
     flagZ := r =? 0;
     flagC := b <=? a;
     flagV := (d <? - 2 ^ (w - 1)) || (2 ^ (w - 1) <=? d) |}.

Definition ANDS_flags (w r : Z) : PSTATE :=
  {| flagN := Z.testbit r (w - 1); flagZ := r =? 0;
     flagC := false; flagV := false |}.

Definition cond_holds (cc : CCFlags) (p : PSTATE) : bool :=
  match cc with
  | CC_EQ => flagZ p
  | CC_NEQ => negb (flagZ p)
  | CC_CS => flagC p
  | CC_CC => negb (flagC p)
  | CC_MI => flagN p
  | CC_PL => negb (flagN p)
  | CC_VS => flagV p
  | CC_VC => negb (flagV p)
  | CC_HI => flagC p && negb (flagZ p)
  | CC_LS => negb (flagC p && negb (flagZ p))
  | CC_GE => Bool.eqb (flagN p) (flagV p)
  | CC_LT => negb (Bool.eqb (flagN p) (flagV p))
  | CC_GT => negb (flagZ p) && Bool.eqb (flagN p) (flagV p)
  | CC_LE => negb (negb (flagZ p) && Bool.eqb (flagN p) (flagV p))
  | CC_AL | CC_NV => true
  end.

(** Value-level meaning of the two bit-field instructions. *)
Definition ubfx (v lsb width : Z) : Z := Z.land (Z.shiftr v lsb) (Z.ones width).

Definition bfi (d s lsb width : Z) : Z :=
  Z.lor (Z.ldiff d (Z.shiftl (Z.ones width) lsb))
        (Z.shiftl (Z.land s (Z.ones width)) lsb).

(** One data instruction.  The operation width is that of the destination
    (of the first operand for [CMP] and [TST]), as the emitter encodes it. *)
Definition step (i : insn) (st : Host) : Host :=
  match i with
  | UBFX Rd Rn lsb width =>
      let w := opwidth Rd in wr w st Rd (ubfx (rd w st Rn) lsb width)
  | BFI Rd Rn lsb width =>
      let w := opwidth Rd in wr w st Rd (bfi (rd w st Rd) (rd w st Rn) lsb width)
  | AND Rd Rn op2 =>
      let w := opwidth Rd in wr w st Rd (Z.land (rd w st Rn) (op2val w st op2))
  | ORR Rd Rn op2 =>
      let w := opwidth Rd in wr w st Rd (Z.lor (rd w st Rn) (op2val w st op2))
  | EOR Rd Rn op2 =>
      let w := opwidth Rd in wr w st Rd (Z.lxor (rd w st Rn) (op2val w st op2))
  | BIC Rd Rn op2 =>
      let w := opwidth Rd in wr w st Rd (Z.ldiff (rd w st Rn) (op2val w st op2))
  | EON Rd Rn op2 =>
      let w := opwidth Rd in
      wr w st Rd (Z.lxor (rd w st Rn) (Z.lnot (op2val w st op2)))
  | ORN Rd Rn op2 =>
      let w := opwidth Rd in
      wr w st Rd (Z.lor (rd w st Rn) (Z.lnot (op2val w st op2)))
  | TST Rn op2 =>
      let w := opwidth Rn in
      set_nzcv st (ANDS_flags w (Z.land (rd w st Rn) (op2val w st op2)))
  | ADD Rd Rn op2 =>
      let w := opwidth Rd in wr w st Rd (rd w st Rn + op2val w st op2)
  | SUB Rd Rn op2 =>
      let w := opwidth Rd in wr w st Rd (rd w st Rn - op2val w st op2)
  | CMP Rn op2 =>
      let w := opwidth Rn in
      set_nzcv st (SUBS_flags w (rd w st Rn) (op2val w st op2))
  | CMPI2R Rn imm _ =>
      let w := opwidth Rn in
      set_nzcv st (SUBS_flags w (rd w st Rn) (wrap w imm))
  | UMULH Rd Rn Rm =>
      wr 64 st Rd (Z.shiftr (rd 64 st Rn * rd 64 st Rm) 64)
  | UDIV Rd Rn Rm =>
      let w := opwidth Rd in wr w st Rd (rd w st Rn / rd w st Rm)
  | SDIV Rd Rn Rm =>
      let w := opwidth Rd in
      wr w st Rd (Z.quot (signed w (rd w st Rn)) (signed w (rd w st Rm)))
  | LSR Rd Rn amount =>
      let w := opwidth Rd in wr w st Rd (Z.shiftr (rd w st Rn) amount)
  | SXTW Rd Rn => wr 64 st Rd (signed 32 (rd 32 st Rn))
  | MOV Rd Rm => let w := opwidth Rd in wr w st Rd (rd w st Rm)
  | MOVI2R Rd imm => wr (opwidth Rd) st Rd imm
  | MOVP2R_globals Rd => wr 64 st Rd (globals_addr st)
  | CSET Rd cc =>
      wr (opwidth Rd) st Rd (if cond_holds cc (nzcv st) then 1 else 0)
  | CSEL Rd Rn Rm cc =>
      let w := opwidth Rd in
      wr w st Rd (if cond_holds cc (nzcv st) then rd w st Rn else rd w st Rm)
  | LDR _ Rt _ off => let w := opwidth Rt in wr w st Rt (load w st off)
  | LDRH _ Rt _ off => wr (opwidth Rt) st Rt (load 16 st off)
  | LDRB _ Rt _ off => wr (opwidth Rt) st Rt (load 8 st off)
  | STR _ Rt _ off => let w := opwidth Rt in store w st off (rd w st Rt)
  | LDP _ Rt Rt2 _ off =>
      let a := load 64 st off in
      let b := load 64 st (Offset_next off) in
      wr 64 (wr 64 st Rt a) Rt2 b
  | SCVTF Sd Wn => fwr st Sd (f_of_s32 (signed 32 (rd 32 st Wn)))
  | FLDR _ _ Sd _ off => fwr st Sd (f_of_mem (load 32 st off))
  | FMUL Sd Sn Sm => fwr st Sd (f_mul (frd st Sn) (frd st Sm))
  | FCVTS Rd Sn => wr (opwidth Rd) st Rd (fcvtzs st (frd st Sn))
  | gpr_Flush mode _ => log st (EvGprFlush mode)
  | fpr_Flush mode => log st (EvFprFlush mode)
  | FallBackToInterpreter => log st EvFallback
  | ABI_CallFunction fn => log st (EvCall fn)
  | _ => st
  end.

(** How a run of emitted code ends: it runs off the end, it has branched to
    a fixup whose target is not placed yet, or it has left the block. *)
Inductive Outcome :=
| Fallthrough (st : Host)
| Pending (f : FixupBranch) (st : Host)
| ExceptionExit (dest : Z) (st : Host)
| BlockExit (dest : Z) (st : Host).

Definition branch_taken (i : insn) (st : Host) : option FixupBranch :=
  match i with
  | BrAlways f => Some f
  | BrCond cc f => if cond_holds cc (nzcv st) then Some f else None
  | BrTBZ Rt b f => if Z.testbit (rd 64 st Rt) b then None else Some f
  | BrTBNZ Rt b f => if Z.testbit (rd 64 st Rt) b then Some f else None
  | BrCBZ Rt f => if rd (opwidth Rt) st Rt =? 0 then Some f else None
  | BrCBNZ Rt f => if rd (opwidth Rt) st Rt =? 0 then None else Some f
  | _ => None
  end.

(** All branches are forward (a fixup is resolved after the branch is
    emitted), so running the code is one pass over the list: [seek] is the
    fixup being jumped to, if any. *)
Fixpoint exec (seek : option FixupBranch) (code : list insn) (st : Host) : Outcome :=
  match code with
  | [] => match seek with Some f => Pending f st | None => Fallthrough st end
  | i :: rest =>
      match seek with
      | Some f =>
          match i with
          | JumpTarget g => if Nat.eqb f g then exec None rest st else exec seek rest st
          | _ => exec seek rest st
          end
      | None =>
          match i with
          | WriteExceptionExit dest _ _ => ExceptionExit dest st
          | WriteExit dest => BlockExit dest st
          | _ => exec (branch_taken i st) rest (step i st)
          end
      end
  end.

End Arm64Gen.
Import Arm64Gen.

(* ===================================================================== *)
(** * Guest-side constants and the decoded instruction                   *)
(* ===================================================================== *)

Module PowerPC.

(** Modelled from the spec: the [CR_*_BIT] indices and the packed positions
    [CR_EMU_SO_BIT], [CR_EMU_LT_BIT] are declared in the condition-register
    header, which is not among the sources.  The handlers assert
    [CR_SO_BIT == 0], [CR_LT_BIT == 3] and [CR_EMU_LT_BIT - CR_EMU_SO_BIT == 3]
    and comment the tests as "bit 59" and "bit 62". *)
Definition CR_SO_BIT : Z := 0.
Definition CR_EQ_BIT : Z := 1.
Definition CR_GT_BIT : Z := 2.
Definition CR_LT_BIT : Z := 3.
Definition CR_EMU_SO_BIT : Z := 59.
Definition CR_EMU_LT_BIT : Z := 62.

(** Modelled from the spec: the masks [CR_SO] and [CR_LT] that [mfcr] loads
    belong to the same header; they are the single bits at [CR_SO_BIT] and
    [CR_LT_BIT] of a 4-bit field. *)
Definition CR_SO : Z := Z.shiftl 1 CR_SO_BIT.
Definition CR_LT : Z := Z.shiftl 1 CR_LT_BIT.

End PowerPC.

(** Modelled from the spec: the FPSCR masks, the special-register indices,
    the exception mask and the trap cause are enumerators of the Gekko
    header, which is not among the sources.  They follow the architected
    layout: FPSCR bit [i] in big-endian numbering is [1 << (31 - i)], with
    FX, FEX, VX, OX, UX, ZX, XX at 0..6, the invalid-operation causes at
    7..12 and 21..23, and the enables VE, OE, UE, ZE, XE at 24..28. *)
Definition FPSCR_FX : Z := Z.shiftl 1 31.
Definition FPSCR_FEX : Z := Z.shiftl 1 30.
Definition FPSCR_VX : Z := Z.shiftl 1 29.
Definition FPSCR_OX : Z := Z.shiftl 1 28.
Definition FPSCR_UX : Z := Z.shiftl 1 27.
Definition FPSCR_ZX : Z := Z.shiftl 1 26.
Definition FPSCR_XX : Z := Z.shiftl 1 25.
Definition FPSCR_VXSNAN : Z := Z.shiftl 1 24.
Definition FPSCR_VXISI : Z := Z.shiftl 1 23.
Definition FPSCR_VXIDI : Z := Z.shiftl 1 22.
Definition FPSCR_VXZDZ : Z := Z.shiftl 1 21.
Definition FPSCR_VXIMZ : Z := Z.shiftl 1 20.
Definition FPSCR_VXVC : Z := Z.shiftl 1 19.
Definition FPSCR_VXSOFT : Z := Z.shiftl 1 10.
Definition FPSCR_VXSQRT : Z := Z.shiftl 1 9.
Definition FPSCR_VXCVI : Z := Z.shiftl 1 8.
Definition FPSCR_VE : Z := Z.shiftl 1 7.
Definition FPSCR_OE : Z := Z.shiftl 1 6.
Definition FPSCR_UE : Z := Z.shiftl 1 5.
Definition FPSCR_ZE : Z := Z.shiftl 1 4.
Definition FPSCR_XE : Z := Z.shiftl 1 3.

Definition FPSCR_VX_ANY : Z :=
  Eval cbv in
  fold_right Z.lor 0
    [FPSCR_VXSNAN; FPSCR_VXISI; FPSCR_VXIDI; FPSCR_VXZDZ; FPSCR_VXIMZ;
     FPSCR_VXVC; FPSCR_VXSOFT; FPSCR_VXSQRT; FPSCR_VXCVI].

Definition FPSCR_ANY_X : Z :=
  Eval cbv in
  fold_right Z.lor 0 [FPSCR_OX; FPSCR_UX; FPSCR_ZX; FPSCR_XX; FPSCR_VX_ANY].

Definition FPSCR_ANY_E : Z :=
  Eval cbv in
  fold_right Z.lor 0 [FPSCR_VE; FPSCR_OE; FPSCR_UE; FPSCR_ZE; FPSCR_XE].

Definition SPR_XER : Z := 1.
Definition SPR_DEC : Z := 22.
Definition SPR_SRR1 : Z := 27.
Definition SPR_TL : Z := 268.
Definition SPR_TU : Z := 269.
Definition SPR_WPAR : Z := 921.
Definition SPR_UPMC1 : Z := 937.
Definition SPR_UPMC2 : Z := 938.
Definition SPR_UPMC3 : Z := 941.
Definition SPR_UPMC4 : Z := 942.
Definition SPR_PMC1 : Z := 953.
Definition SPR_PMC2 : Z := 954.
Definition SPR_PMC3 : Z := 957.
Definition SPR_PMC4 : Z := 958.
Definition SPR_IABR : Z := 1010.
Definition XER_CA_SHIFT : Z := 29.
Definition XER_OV_SHIFT : Z := 30.
Definition EXCEPTION_PROGRAM : Z := 128.
Definition ProgramExceptionCause_Trap : Z := Z.shiftl 1 17.

Module MathUtil.
Definition IntLog2 (v : Z) : Z := Z.log2 v.
End MathUtil.

(** The fields of [UGeckoInstruction] the handlers read.  The union's
    bit-field declaration is not among the sources, so each field is kept
    as a value of its own; [SIMM_16] holds the raw 16 bits. *)
Record UGeckoInstruction := {
  OPCD : Z; SUBOP10 : Z; Rc : bool;
  RA : Z; RB : Z; RD : Z;
  CRBA : Z; CRBB : Z; CRBD : Z;
  TO : Z; SIMM_16 : Z;
  SPRU : Z; SPRL : Z
}.

(** C-style casts used on instruction fields. *)
Definition s16 (v : Z) : Z := signed 16 (wrap 16 v).
Definition s32 (v : Z) : Z := signed 32 (wrap 32 v).

(* ===================================================================== *)
(** * The code generator: state and emitter monad                        *)
(* ===================================================================== *)

(** What the handlers read and write on the JIT object: the register
    cache's count of live scoped temporaries, the fixups handed out, the
    block state [js], and the settings consulted by the guard macros. *)
Record Jit := {
  gpr_scoped : nat;
  fpr_scoped : nat;
  fixups : nat;
  js_compilerPC : Z;
  js_downcountAmount : Z;
  js_skipInstructions : Z;
  js_op_1_inst : UGeckoInstruction;
  CanMergeNextInstructions : Z -> bool;
  bJITSystemRegistersOff : bool;
  jo_fp_exceptions : bool;
  OPTION_CONDITIONAL_CONTINUE : bool
}.

Definition Emit (A : Type) : Type := Jit -> option (A * list insn * Jit).

Definition ret {A} (a : A) : Emit A := fun j => Some (a, [], j).

Definition bind {A B} (m : Emit A) (k : A -> Emit B) : Emit B :=
  fun j =>
    match m j with
    | None => None
    | Some (a, c1, j1) =>
        match k a j1 with
        | None => None
        | Some (b, c2, j2) => Some (b, c1 ++ c2, j2)
        end
    end.

Notation "x <- m ;; k" := (bind m (fun x => k))
  (at level 61, m at next level, right associativity).
Notation "m ;; k" := (bind m (fun _ => k))
  (at level 61, right associativity).

Definition emit (i : insn) : Emit unit := fun j => Some (tt, [i], j).
Coercion emit : insn >-> Emit.

Definition get_jit : Emit Jit := fun j => Some (j, [], j).

(** A failed [ASSERT_MSG]: translation does not produce code. *)
Definition ASSERT_MSG_false {A} : Emit A := fun _ => None.

(** The instructions a generator emits, and the JIT state it leaves. *)
Definition emitted {A} (m : Emit A) (j : Jit) : option (list insn) :=
  match m j with Some (_, c, _) => Some c | None => None end.

Definition jit_after {A} (m : Emit A) (j : Jit) : option Jit :=
  match m j with Some (_, _, j') => Some j' | None => None end.

Definition with_scoped (j : Jit) (g f : nat) : Jit :=
  {| gpr_scoped := g; fpr_scoped := f; fixups := fixups j;
     js_compilerPC := js_compilerPC j;
     js_downcountAmount := js_downcountAmount j;
     js_skipInstructions := js_skipInstructions j;
     js_op_1_inst := js_op_1_inst j;
     CanMergeNextInstructions := CanMergeNextInstructions j;
     bJITSystemRegistersOff := bJITSystemRegistersOff j;
     jo_fp_exceptions := jo_fp_exceptions j;
     OPTION_CONDITIONAL_CONTINUE := OPTION_CONDITIONAL_CONTINUE j |}.

Definition with_fixups (j : Jit) (n : nat) : Jit :=
  {| gpr_scoped := gpr_scoped j; fpr_scoped := fpr_scoped j; fixups := n;
     js_compilerPC := js_compilerPC j;
     js_downcountAmount := js_downcountAmount j;
     js_skipInstructions := js_skipInstructions j;
     js_op_1_inst := js_op_1_inst j;
     CanMergeNextInstructions := CanMergeNextInstructions j;
     bJITSystemRegistersOff := bJITSystemRegistersOff j;
     jo_fp_exceptions := jo_fp_exceptions j;
     OPTION_CONDITIONAL_CONTINUE := OPTION_CONDITIONAL_CONTINUE j |}.

Definition with_js (j : Jit) (dc skip : Z) : Jit :=
  {| gpr_scoped := gpr_scoped j; fpr_scoped := fpr_scoped j; fixups := fixups j;
     js_compilerPC := js_compilerPC j;
     js_downcountAmount := dc;
     js_skipInstructions := skip;
     js_op_1_inst := js_op_1_inst j;
     CanMergeNextInstructions := CanMergeNextInstructions j;
     bJITSystemRegistersOff := bJITSystemRegistersOff j;
     jo_fp_exceptions := jo_fp_exceptions j;
     OPTION_CONDITIONAL_CONTINUE := OPTION_CONDITIONAL_CONTINUE j |}.

(** A C++ block scope: scoped temporaries taken inside are released when
    the block is left. *)
Definition scope {A} (m : Emit A) : Emit A :=
  fun j =>
    match m j with
    | None => None
    | Some (a, c, j') => Some (a, c, with_scoped j' (gpr_scoped j) (fpr_scoped j))
    end.

(** ** The register cache, as far as the handlers use it *)

Definition gpr_CR (field : Z) : ARM64Reg := X (CRh field).
Definition gpr_R (r : Z) : ARM64Reg := W (GPRh r).

Definition gpr_GetScopedReg : Emit ARM64Reg :=
  fun j => Some (W (Scoped (gpr_scoped j)), [],
                 with_scoped j (Datatypes.S (gpr_scoped j)) (fpr_scoped j)).

Definition fpr_GetScopedReg : Emit ARM64Reg :=
  fun j => Some (S (fpr_scoped j), [],
                 with_scoped j (gpr_scoped j) (Datatypes.S (fpr_scoped j))).

(** Binding makes the guest register live in its host register; the loads
    and stores that takes are the cache's, not the handlers'. *)
Definition gpr_BindCRToRegister (field : Z) (do_load : bool) : Emit unit := ret tt.
Definition gpr_BindToRegister (r : Z) (do_load : bool) : Emit unit := ret tt.

(** Branch emitters hand back the fixup the branch is resolved through. *)
Definition new_fixup (mk : FixupBranch -> insn) : Emit FixupBranch :=
  fun j => Some (fixups j, [mk (fixups j)], with_fixups j (Datatypes.S (fixups j))).

Definition B (cc : CCFlags) : Emit FixupBranch := new_fixup (BrCond cc).
Definition B_ : Emit FixupBranch := new_fixup BrAlways.
Definition TBZ (Rt : ARM64Reg) (bit : Z) : Emit FixupBranch := new_fixup (BrTBZ Rt bit).
Definition TBNZ (Rt : ARM64Reg) (bit : Z) : Emit FixupBranch := new_fixup (BrTBNZ Rt bit).
Definition CBZ (Rt : ARM64Reg) : Emit FixupBranch := new_fixup (BrCBZ Rt).
Definition CBNZ (Rt : ARM64Reg) : Emit FixupBranch := new_fixup (BrCBNZ Rt).
Definition SetJumpTarget (f : FixupBranch) : Emit unit := emit (JumpTarget f).

(** [INSTRUCTION_START] expands to nothing; [JITDISABLE] and [FALLBACK_IF]
    hand the instruction to the interpreter and return from the handler. *)
Definition FALLBACK_IF (c : bool) (body : Emit unit) : Emit unit :=
  if c then emit FallBackToInterpreter else body.

Definition JITDISABLE (setting : Jit -> bool) (body : Emit unit) : Emit unit :=
  j <- get_jit ;; FALLBACK_IF (setting j) body.

Definition when (c : bool) (m : Emit unit) : Emit unit := if c then m else ret tt.

(* ===================================================================== *)
(** * The handlers                                                       *)
(* ===================================================================== *)

Module JitArm64.

(** Defined after its callers in the source. *)
Definition FixGTBeforeSettingCRFieldBit (reg : ARM64Reg) : Emit unit :=
  scope (
    (* GT is considered unset if the internal representation is <= 0: bit 63
       set or all bits zero.  A zero word about to get an unrelated bit needs
       bit 63 set first. *)
    WA <- gpr_GetScopedReg ;;
    let XA := EncodeRegTo64 WA in
    MOVI2R XA (Z.shiftl 1 63) ;;
    CMP reg ZR ;;
    CSEL reg reg XA CC_NEQ).

Definition GetCRFieldBit (field bit : Z) (out : ARM64Reg) : Emit unit :=
  let CR := gpr_CR field in
  let WCR := EncodeRegTo32 CR in
  if bit =? PowerPC.CR_SO_BIT then          (* check bit 59 set *)
    UBFX out CR PowerPC.CR_EMU_SO_BIT 1
  else if bit =? PowerPC.CR_EQ_BIT then     (* check bits 31-0 == 0 *)
    CMP WCR WZR ;;
    CSET out CC_EQ
  else if bit =? PowerPC.CR_GT_BIT then     (* check val > 0 *)
    CMP CR ZR ;;
    CSET out CC_GT
  else if bit =? PowerPC.CR_LT_BIT then     (* check bit 62 set *)
    UBFX out CR PowerPC.CR_EMU_LT_BIT 1
  else
    ASSERT_MSG_false.

Definition SetCRFieldBit (field bit : Z) (in_ : ARM64Reg)
    (negate bits_1_to_31_are_set : bool) : Emit unit :=
  gpr_BindCRToRegister field true ;;
  let CR := gpr_CR field in
  when (negb (bit =? PowerPC.CR_GT_BIT))
    (FixGTBeforeSettingCRFieldBit CR) ;;
  (if bit =? PowerPC.CR_SO_BIT then         (* set bit 59 to input *)
     BFI CR in_ PowerPC.CR_EMU_SO_BIT 1 ;;
     when negate
       (EOR CR CR (LogicalImm (Z.shiftl 1 PowerPC.CR_EMU_SO_BIT) GPRSize.B64))
   else if bit =? PowerPC.CR_EQ_BIT then    (* clear low 32 bits, set bit 0 to !input *)
     AND CR CR (LogicalImm 0xFFFFFFFF00000000 GPRSize.B64) ;;
     ORR CR CR in_ ;;
     (if negb negate then
        EOR CR CR (LogicalImm (if bits_1_to_31_are_set then 0xFFFFFFFF else 1)
                              GPRSize.B64)
      else
        when bits_1_to_31_are_set
          (AND CR CR (LogicalImm 0xFFFFFFFF00000001 GPRSize.B64)))
   else if bit =? PowerPC.CR_GT_BIT then    (* set bit 63 to !input *)
     BFI CR in_ 63 1 ;;
     when (negb negate)
       (EOR CR CR (LogicalImm (Z.shiftl 1 63) GPRSize.B64))
   else if bit =? PowerPC.CR_LT_BIT then    (* set bit 62 to input *)
     BFI CR in_ PowerPC.CR_EMU_LT_BIT 1 ;;
     when negate
       (EOR CR CR (LogicalImm (Z.shiftl 1 PowerPC.CR_EMU_LT_BIT) GPRSize.B64))
   else
     ret tt) ;;
  ORR CR CR (LogicalImm (Z.shiftl 1 32) GPRSize.B64).

Definition ClearCRFieldBit (field bit : Z) : Emit unit :=
  gpr_BindCRToRegister field true ;;
  let XA := gpr_CR field in
  if bit =? PowerPC.CR_SO_BIT then
    AND XA XA (LogicalImm (wrap 64 (Z.lnot (Z.shiftl 1 PowerPC.CR_EMU_SO_BIT)))
                          GPRSize.B64)
  else if bit =? PowerPC.CR_EQ_BIT then
    FixGTBeforeSettingCRFieldBit XA ;;
    ORR XA XA (LogicalImm 1 GPRSize.B64)
  else if bit =? PowerPC.CR_GT_BIT then
    ORR XA XA (LogicalImm (Z.shiftl 1 63) GPRSize.B64)
  else if bit =? PowerPC.CR_LT_BIT then
    AND XA XA (LogicalImm (wrap 64 (Z.lnot (Z.shiftl 1 PowerPC.CR_EMU_LT_BIT)))
                          GPRSize.B64)
  else
    ret tt.

(** The two-argument overload of [SetCRFieldBit]: set the flag to true. *)
Definition SetCRFieldBit_literal (field bit : Z) : Emit unit :=
  gpr_BindCRToRegister field true ;;
  let XA := gpr_CR field in
  when (negb (bit =? PowerPC.CR_GT_BIT))
    (FixGTBeforeSettingCRFieldBit XA) ;;
  (if bit =? PowerPC.CR_SO_BIT then
     ORR XA XA (LogicalImm (Z.shiftl 1 PowerPC.CR_EMU_SO_BIT) GPRSize.B64)
   else if bit =? PowerPC.CR_EQ_BIT then
     AND XA XA (LogicalImm 0xFFFFFFFF00000000 GPRSize.B64)
   else if bit =? PowerPC.CR_GT_BIT then
     AND XA XA (LogicalImm (wrap 64 (Z.lnot (Z.shiftl 1 63))) GPRSize.B64)
   else if bit =? PowerPC.CR_LT_BIT then
     ORR XA XA (LogicalImm (Z.shiftl 1 PowerPC.CR_EMU_LT_BIT) GPRSize.B64)
   else
     ret tt) ;;
  ORR XA XA (LogicalImm (Z.shiftl 1 32) GPRSize.B64).

Definition JumpIfCRFieldBit (field bit : Z) (jump_if_set : bool) : Emit FixupBranch :=
  let XA := gpr_CR field in
  let WA := EncodeRegTo32 XA in
  if bit =? PowerPC.CR_SO_BIT then          (* check bit 59 set *)
    if jump_if_set then TBNZ XA PowerPC.CR_EMU_SO_BIT
    else TBZ XA PowerPC.CR_EMU_SO_BIT
  else if bit =? PowerPC.CR_EQ_BIT then     (* check bits 31-0 == 0 *)
    if jump_if_set then CBZ WA else CBNZ WA
  else if bit =? PowerPC.CR_GT_BIT then     (* check val > 0 *)
    CMP XA (Imm 0) ;;
    B (if jump_if_set then CC_GT else CC_LE)
  else if bit =? PowerPC.CR_LT_BIT then     (* check bit 62 set *)
    if jump_if_set then TBNZ XA PowerPC.CR_EMU_LT_BIT
    else TBZ XA PowerPC.CR_EMU_LT_BIT
  else
    ASSERT_MSG_false.

Definition UpdateFPExceptionSummary (fpscr : ARM64Reg) : Emit unit :=
  scope (
    WA <- gpr_GetScopedReg ;;
    (* fpscr.VX = (fpscr & FPSCR_VX_ANY) != 0 *)
    MOVI2R WA FPSCR_VX_ANY ;;
    TST WA fpscr ;;
    CSET WA CC_NEQ ;;
    BFI fpscr WA (MathUtil.IntLog2 FPSCR_VX) 1 ;;
    (* fpscr.FEX = ((fpscr >> 22) & (fpscr & FPSCR_ANY_E)) != 0 *)
    AND WA fpscr (LogicalImm FPSCR_ANY_E GPRSize.B32) ;;
    TST WA (ArithOption fpscr ShiftType.LSR 22) ;;
    CSET WA CC_NEQ ;;
    BFI fpscr WA (MathUtil.IntLog2 FPSCR_FEX) 1).

Definition UpdateRoundingMode : Emit unit :=
  ABI_PushRegisters ;;
  ABI_PushRegisters ;;
  ABI_CallFunction RoundingModeUpdated ;;
  ABI_PopRegisters ;;
  ABI_PopRegisters.


(** ** twx *)

Definition conditions : list CCFlags := [CC_LT; CC_GT; CC_EQ; CC_VC; CC_VS].

(** The loop over [conditions]: one conditional branch per bit set in TO,
    starting at index [i]. *)
Fixpoint twx_fixups (to i : Z) (conds : list CCFlags) : Emit (list FixupBranch) :=
  match conds with
  | [] => ret []
  | c :: rest =>
      if negb (Z.land to (Z.shiftl 1 i) =? 0) then
        f <- B c ;;
        fs <- twx_fixups to (i + 1) rest ;;
        ret (f :: fs)
      else
        twx_fixups to (i + 1) rest
  end.

Fixpoint SetJumpTargets (fs : list FixupBranch) : Emit unit :=
  match fs with
  | [] => ret tt
  | f :: rest => SetJumpTarget f ;; SetJumpTargets rest
  end.

Definition twx (inst : UGeckoInstruction) : Emit unit :=
  JITDISABLE bJITSystemRegistersOff (scope (
    let a := s32 (RA inst) in
    WA <- gpr_GetScopedReg ;;
    (if OPCD inst =? 3 then      (* twi *)
       CMPI2R (gpr_R a) (s32 (s16 (SIMM_16 inst))) WA
     else                        (* tw *)
       CMP (gpr_R a) (gpr_R (RB inst))) ;;
    fixups <- twx_fixups (TO inst) 0 conditions ;;
    dont_trap <- B_ ;;
    SetJumpTargets fixups ;;
    far_addr <- B_ ;;
    SwitchToFarCode ;;
    SetJumpTarget far_addr ;;
    gpr_Flush FlushMode.MaintainState WA ;;
    fpr_Flush FlushMode.MaintainState ;;
    LDR IndexType.Unsigned WA PPC_REG (PPCSTATE_OFF Exceptions) ;;
    ORR WA WA (LogicalImm EXCEPTION_PROGRAM GPRSize.B32) ;;
    STR IndexType.Unsigned WA PPC_REG (PPCSTATE_OFF Exceptions) ;;
    MOVI2R WA ProgramExceptionCause_Trap ;;
    STR IndexType.Unsigned WA PPC_REG (PPCSTATE_OFF_SPR SPR_SRR1) ;;
    j <- get_jit ;;
    WriteExceptionExit (js_compilerPC j) false true ;;
    SwitchToNearCode ;;
    SetJumpTarget dont_trap ;;
    when (negb (OPTION_CONDITIONAL_CONTINUE j))
      (gpr_Flush FlushMode.All WA ;;
       fpr_Flush FlushMode.All ;;
       WriteExit (js_compilerPC j + 4)))).

(** ** crXXX *)

(** The inner [switch] of [crXXX] that combines the two flag bits; its
    result is the value it leaves in [bits_1_to_31_are_set]. *)
Definition crXXX_combine (subop : Z) (negate_result : bool)
    (WA WB : ARM64Reg) : Emit bool :=
  let XA := EncodeRegTo64 WA in
  let XB := EncodeRegTo64 WB in
  if (subop =? 225) || (subop =? 257) then    (* crnand / crand: A && B *)
    AND XA XA XB ;; ret false
  else if subop =? 129 then                   (* crandc: A && ~B *)
    BIC XA XA XB ;; ret false
  else if subop =? 193 then                   (* crxor: A ^ B *)
    EOR XA XA XB ;; ret false
  else if subop =? 289 then                   (* creqv: ~(A ^ B) = A ^ ~B *)
    if negate_result then
      EOR XA XA XB ;; ret false
    else
      EON WA WA WB ;; ret true
  else if (subop =? 33) || (subop =? 449) then  (* crnor / cror: A || B *)
    ORR XA XA XB ;; ret false
  else if subop =? 417 then                   (* crorc: A || ~B *)
    ORN WA WA WB ;; ret true
  else
    ret false.

(** The path of [crXXX] for distinct source bits, once [negate_result] is
    decided: read both flags, combine, store. *)
Definition crXXX_with (inst : UGeckoInstruction) (negate_result : bool)
  : Emit unit :=
  WA <- gpr_GetScopedReg ;;
  let XA := EncodeRegTo64 WA in
  bits_1_to_31_are_set <- scope (
    WB <- gpr_GetScopedReg ;;
    let XB := EncodeRegTo64 WB in
    GetCRFieldBit (Z.shiftr (CRBA inst) 2) (3 - Z.land (CRBA inst) 3) XA ;;
    GetCRFieldBit (Z.shiftr (CRBB inst) 2) (3 - Z.land (CRBB inst) 3) XB ;;
    (* Compute combined bit *)
    crXXX_combine (SUBOP10 inst) negate_result WA WB) ;;
  (* Store result bit in CRBD *)
  SetCRFieldBit (Z.shiftr (CRBD inst) 2) (3 - Z.land (CRBD inst) 3) XA
    negate_result bits_1_to_31_are_set.

Definition crXXX_general (inst : UGeckoInstruction) : Emit unit :=
  let crbd_bit := 3 - Z.land (CRBD inst) 3 in
  (* crnor, crnand and sometimes creqv *)
  let negate_result :=
    (SUBOP10 inst =? 33) || (SUBOP10 inst =? 225) ||
    ((SUBOP10 inst =? 289) &&
     ((crbd_bit =? PowerPC.CR_EQ_BIT) || (crbd_bit =? PowerPC.CR_GT_BIT))) in
  crXXX_with inst negate_result.

Definition crXXX (inst : UGeckoInstruction) : Emit unit :=
  JITDISABLE bJITSystemRegistersOff (scope (
    let subop := SUBOP10 inst in
    if (CRBA inst =? CRBB inst) && ((subop =? 129) || (subop =? 193)) then
      (* crclr.  crandc: A && ~B => 0;  crxor: A ^ B => 0 *)
      ClearCRFieldBit (Z.shiftr (CRBD inst) 2) (3 - Z.land (CRBD inst) 3)
    else if (CRBA inst =? CRBB inst) && ((subop =? 289) || (subop =? 417)) then
      (* crset.  creqv: ~(A ^ B) => 1;  crorc: A || ~B => 1 *)
      SetCRFieldBit_literal (Z.shiftr (CRBD inst) 2) (3 - Z.land (CRBD inst) 3)
    else if (CRBA inst =? CRBB inst) && ((subop =? 257) || (subop =? 449)) then
      (* crand: A && B => A;  cror: A || B => A *)
      WA <- gpr_GetScopedReg ;;
      let XA := EncodeRegTo64 WA in
      GetCRFieldBit (Z.shiftr (CRBA inst) 2) (3 - Z.land (CRBA inst) 3) XA ;;
      SetCRFieldBit (Z.shiftr (CRBD inst) 2) (3 - Z.land (CRBD inst) 3) XA
        false false
    else if (CRBA inst =? CRBB inst) && ((subop =? 33) || (subop =? 225)) then
      (* crnor: ~(A || B) => ~A;  crnand: ~(A && B) => ~A *)
      WA <- gpr_GetScopedReg ;;
      let XA := EncodeRegTo64 WA in
      GetCRFieldBit (Z.shiftr (CRBA inst) 2) (3 - Z.land (CRBA inst) 3) XA ;;
      SetCRFieldBit (Z.shiftr (CRBD inst) 2) (3 - Z.land (CRBD inst) 3) XA
        true false
    else
      crXXX_general inst)).


(** ** mfspr *)

(** The division by 12 inside the [SPR_TL] / [SPR_TU] case:
    [a / 12 = (a * 0xAAAAAAAAAAAAAAAB) >> 67], added to [XA]. *)
Definition mfspr_timebase_div12 (Xresult XA XB : ARM64Reg) : Emit unit :=
  ORR XB ZR (LogicalImm 0xAAAAAAAAAAAAAAAA GPRSize.B64) ;;
  ADD XB XB (Imm 1) ;;
  UMULH Xresult Xresult XB ;;
  ADD Xresult XA (ArithOption Xresult ShiftType.LSR 3).

(** The first half of the [SPR_TL] / [SPR_TU] case: an inline
    [CoreTiming::GetFakeTimeBase], stored to the pair of timebase
    registers. *)
Definition mfspr_timebase_read (Wg Wresult WA WB VC VD : ARM64Reg) : Emit unit :=
  let Xg := EncodeRegTo64 Wg in
  let Xresult := EncodeRegTo64 Wresult in
  let XA := EncodeRegTo64 WA in
  let XB := EncodeRegTo64 WB in
  let SC := EncodeRegToSingle VC in
  let SD := EncodeRegToSingle VD in
  MOVP2R_globals Xg ;;
  LDR IndexType.Unsigned WA PPC_REG (PPCSTATE_OFF downcount) ;;
  SCVTF SC WA ;;
  FLDR 32 IndexType.Unsigned SD Xg (offsetof_Globals last_OC_factor_inverted) ;;
  FMUL SC SC SD ;;
  FCVTS Xresult SC ;;
  LDP IndexType.Signed XA XB Xg (offsetof_Globals global_timer) ;;
  SXTW XB WB ;;
  SUB Xresult XB Xresult ;;
  ADD Xresult Xresult XA ;;
  LDP IndexType.Signed XA XB Xg (offsetof_Globals fake_TB_start_value) ;;
  SUB Xresult Xresult XB ;;
  mfspr_timebase_div12 Xresult XA XB ;;
  STR IndexType.Unsigned Xresult PPC_REG (PPCSTATE_OFF_SPR SPR_TL).

(** The second half: hand the requested half to [d], merging a following
    [mftb] when that is possible. *)
Definition mfspr_timebase_merge (iIndex d : Z) (Wresult : ARM64Reg) : Emit unit :=
  let Xresult := EncodeRegTo64 Wresult in
  j <- get_jit ;;
  let next := js_op_1_inst j in
  (* Two calls of TU/TL next to each other are extremely common in typical
     usage, so merge them if we can. *)
  let nextIndex := Z.lor (Z.shiftl (SPRU next) 5) (Z.land (SPRL next) 0x1F) in
  (* Be careful; the actual opcode is for mftb (371), not mfspr (339) *)
  let n := RD next in
  if CanMergeNextInstructions j 1 &&
     ((OPCD next =? 31) && (SUBOP10 next =? 371) &&
      ((nextIndex =? SPR_TU) || (nextIndex =? SPR_TL)) && negb (n =? d)) then
    (fun j => Some (tt, [], with_js j (js_downcountAmount j + 1) 1)) ;;
    gpr_BindToRegister d false ;;
    gpr_BindToRegister n false ;;
    (if iIndex =? SPR_TL then MOV (gpr_R d) Wresult
     else LSR (EncodeRegTo64 (gpr_R d)) Xresult 32) ;;
    (if nextIndex =? SPR_TL then MOV (gpr_R n) Wresult
     else LSR (EncodeRegTo64 (gpr_R n)) Xresult 32)
  else
    gpr_BindToRegister d false ;;
    (if iIndex =? SPR_TU then LSR (EncodeRegTo64 (gpr_R d)) Xresult 32
     else MOV (gpr_R d) Wresult).

Definition mfspr_timebase (iIndex d : Z) : Emit unit :=
  Wg <- gpr_GetScopedReg ;;
  Wresult <- gpr_GetScopedReg ;;
  WA <- gpr_GetScopedReg ;;
  WB <- gpr_GetScopedReg ;;
  VC <- fpr_GetScopedReg ;;
  VD <- fpr_GetScopedReg ;;
  mfspr_timebase_read Wg Wresult WA WB VC VD ;;
  mfspr_timebase_merge iIndex d Wresult.

Definition mfspr (inst : UGeckoInstruction) : Emit unit :=
  JITDISABLE bJITSystemRegistersOff (scope (
    let iIndex := Z.lor (Z.shiftl (SPRU inst) 5) (Z.land (SPRL inst) 0x1F) in
    let d := RD inst in
    if (iIndex =? SPR_TL) || (iIndex =? SPR_TU) then
      mfspr_timebase iIndex d
    else if iIndex =? SPR_XER then
      gpr_BindToRegister d false ;;
      let RD := gpr_R d in
      WA <- gpr_GetScopedReg ;;
      LDRH IndexType.Unsigned RD PPC_REG (PPCSTATE_OFF xer_stringctrl) ;;
      LDRB IndexType.Unsigned WA PPC_REG (PPCSTATE_OFF xer_ca) ;;
      ORR RD RD (ArithOption WA ShiftType.LSL XER_CA_SHIFT) ;;
      LDRB IndexType.Unsigned WA PPC_REG (PPCSTATE_OFF xer_so_ov) ;;
      ORR RD RD (ArithOption WA ShiftType.LSL XER_OV_SHIFT)
    else if existsb (Z.eqb iIndex)
              [SPR_WPAR; SPR_DEC; SPR_PMC1; SPR_PMC2; SPR_PMC3; SPR_PMC4;
               SPR_UPMC1; SPR_UPMC2; SPR_UPMC3; SPR_UPMC4; SPR_IABR] then
      FALLBACK_IF true (ret tt)
    else
      gpr_BindToRegister d false ;;
      let RD := gpr_R d in
      LDR IndexType.Unsigned RD PPC_REG (PPCSTATE_OFF_SPR iIndex))).

Definition mftb (inst : UGeckoInstruction) : Emit unit :=
  JITDISABLE bJITSystemRegistersOff (mfspr inst).

(** ** mtfsb1x *)

Definition mtfsb1x (inst : UGeckoInstruction) : Emit unit :=
  JITDISABLE bJITSystemRegistersOff (
  FALLBACK_IF (Rc inst) (
  JITDISABLE jo_fp_exceptions (scope (
    let mask := Z.shiftr 0x80000000 (CRBD inst) in
    if (mask =? FPSCR_FEX) || (mask =? FPSCR_VX) then
      ret tt
    else
      scope (
        WA <- gpr_GetScopedReg ;;
        LDR IndexType.Unsigned WA PPC_REG (PPCSTATE_OFF fpscr) ;;
        when (negb (Z.land mask FPSCR_ANY_X =? 0)) (scope (
          WB <- gpr_GetScopedReg ;;
          TST WA (LogicalImm mask GPRSize.B32) ;;
          ORR WB WA (LogicalImm (Z.shiftl 1 31) GPRSize.B32) ;;
          CSEL WA WA WB CC_NEQ)) ;;
        ORR WA WA (LogicalImm mask GPRSize.B32) ;;
        when (negb (Z.land mask (Z.lor FPSCR_ANY_X FPSCR_ANY_E) =? 0))
          (UpdateFPExceptionSummary WA) ;;
        STR IndexType.Unsigned WA PPC_REG (PPCSTATE_OFF fpscr)) ;;
      when (29 <=? CRBD inst) UpdateRoundingMode)))).

(** ** mtfsb0x *)

Definition mtfsb0x (inst : UGeckoInstruction) : Emit unit :=
  JITDISABLE bJITSystemRegistersOff (
  FALLBACK_IF (Rc inst) (scope (
    let mask := Z.shiftr 0x80000000 (CRBD inst) in
    let inverted_mask := wrap 32 (Z.lnot mask) in
    if (mask =? FPSCR_FEX) || (mask =? FPSCR_VX) then
      ret tt
    else
      scope (
        WA <- gpr_GetScopedReg ;;
        LDR IndexType.Unsigned WA PPC_REG (PPCSTATE_OFF fpscr) ;;
        AND WA WA (LogicalImm inverted_mask GPRSize.B32) ;;
        when (negb (Z.land mask (Z.lor FPSCR_ANY_X FPSCR_ANY_E) =? 0))
          (UpdateFPExceptionSummary WA) ;;
        STR IndexType.Unsigned WA PPC_REG (PPCSTATE_OFF fpscr)) ;;
      when (29 <=? CRBD inst) UpdateRoundingMode))).

(** ** mfcr *)

(** Handing a field's register back to the register cache.  As with
    binding, the store this may take is the cache's, and the guest field
    keeps its value. *)
Definition gpr_DiscardCRRegisters (field : Z) : Emit unit := ret tt.
Definition gpr_StoreCRRegisters (field : Z) (tmp : ARM64Reg) : Emit unit := ret tt.

(** The body of the loop of [mfcr] for field [i].  [crDiscardable] and
    [crInUse] are the two arrays of [js.op] the loop consults; they come
    out of the block analysis and are taken as they are. *)
Definition mfcr_field (crDiscardable crInUse : Z -> bool)
    (WA WB WC : ARM64Reg) (i : Z) : Emit unit :=
  let XA := EncodeRegTo64 WA in
  let XB := EncodeRegTo64 WB in
  let XC := EncodeRegTo64 WC in
  let CR := gpr_CR i in
  let WCR := EncodeRegTo32 CR in
  (* SO and LT *)
  (if i =? 0 then
     MOVI2R XB (Z.lor PowerPC.CR_SO PowerPC.CR_LT) ;;
     AND XA XB (ArithOption CR ShiftType.LSR PowerPC.CR_EMU_SO_BIT)
   else
     AND XC XB (ArithOption CR ShiftType.LSR PowerPC.CR_EMU_SO_BIT) ;;
     ORR XA XC (ArithOption XA ShiftType.LSL 4)) ;;
  (* EQ *)
  ORR WC WA (LogicalImm (Z.shiftl 1 PowerPC.CR_EQ_BIT) GPRSize.B32) ;;
  CMP WCR WZR ;;
  CSEL WA WC WA CC_EQ ;;
  (* GT *)
  ORR WC WA (LogicalImm (Z.shiftl 1 PowerPC.CR_GT_BIT) GPRSize.B32) ;;
  CMP CR ZR ;;
  CSEL WA WC WA CC_GT ;;
  (* flush registers that would be flushed after this instruction anyway *)
  if crDiscardable i then gpr_DiscardCRRegisters i
  else if negb (crInUse i) then gpr_StoreCRRegisters i WC
  else ret tt.

(** [for (int i = first; i < first + n; i++) body(i)]. *)
Fixpoint for_each_field (n : nat) (first : Z) (body : Z -> Emit unit) : Emit unit :=
  match n with
  | O => ret tt
  | Datatypes.S n' => body first ;; for_each_field n' (first + 1) body
  end.

Definition mfcr (crDiscardable crInUse : Z -> bool) (inst : UGeckoInstruction)
  : Emit unit :=
  JITDISABLE bJITSystemRegistersOff (scope (
    gpr_BindToRegister (RD inst) false ;;
    let WA := gpr_R (RD inst) in
    WB <- gpr_GetScopedReg ;;
    WC <- gpr_GetScopedReg ;;
    for_each_field 8 0 (mfcr_field crDiscardable crInUse WA WB WC))).

(** ** mcrf *)

(** The instruction enters [mcrf] only through its two field numbers,
    [inst.CRFS] and [inst.CRFD]; they are the arguments here. *)
Definition mcrf (CRFS CRFD : Z) : Emit unit :=
  JITDISABLE bJITSystemRegistersOff (scope (
    when (negb (CRFS =? CRFD))
      (gpr_BindCRToRegister CRFD false ;;
       MOV (gpr_CR CRFD) (gpr_CR CRFS)))).

End JitArm64.

(* ===================================================================== *)
(** * Observing emitted code                                             *)
(* ===================================================================== *)

(** Generate, then run the generated code on a host state. *)
Definition run {A} (m : Emit A) (j : Jit) (st : Host) : option Outcome :=
  match emitted m j with
  | Some c => Some (exec None c st)
  | None => None
  end.

(** Generate and run, keeping the generator's own result and the JIT state;
    defined when the code runs to its end. *)
Definition gen_run {A} (m : Emit A) (j : Jit) (st : Host)
  : option (A * Jit * Host) :=
  match m j with
  | Some (a, c, j') =>
      match exec None c st with
      | Fallthrough st' => Some (a, j', st')
      | _ => None
      end
  | None => None
  end.

(** The host state [gen_run] ends in, or the starting state when it is not
    defined. *)
Definition final_state {A} (m : Emit A) (j : Jit) (st : Host) : Host :=
  match gen_run m j st with Some (_, _, s) => s | None => st end.

(** The host state once the code has run to its end. *)
Definition state_after {A} (m : Emit A) (j : Jit) (st : Host) : option Host :=
  match run m j st with
  | Some (Fallthrough st') => Some st'
  | _ => None
  end.

(** The 64-bit content of [r] once the code has run to its end. *)
Definition reg_after {A} (m : Emit A) (j : Jit) (st : Host) (r : ARM64Reg)
  : option Z :=
  match state_after m j st with
  | Some st' => Some (rd 64 st' r)
  | None => None
  end.

(** For code that ends in a branch still to be resolved: was it taken? *)
Definition jump_taken {A} (m : Emit A) (j : Jit) (st : Host) : option bool :=
  match run m j st with
  | Some (Pending _ _) => Some true
  | Some (Fallthrough _) => Some false
  | _ => None
  end.

(* ===================================================================== *)
(** * The packed condition field, as the data model reads it             *)
(* ===================================================================== *)

(** The four flags of a packed 64-bit word, in the words of the data model:
    SO and LT are single bits, EQ is "low 32 bits are zero", GT is "the word
    is positive as a signed 64-bit number". *)
Definition spec_SO (w : Z) : bool := Z.testbit w 59.
Definition spec_LT (w : Z) : bool := Z.testbit w 62.
Definition spec_EQ (w : Z) : bool := wrap 32 w =? 0.
Definition spec_GT (w : Z) : bool := 0 <? signed 64 w.

Definition spec_flag (bit w : Z) : bool :=
  if bit =? PowerPC.CR_SO_BIT then spec_SO w
  else if bit =? PowerPC.CR_EQ_BIT then spec_EQ w
  else if bit =? PowerPC.CR_GT_BIT then spec_GT w
  else spec_LT w.


(** The architected results of the eight condition-register logical
    instructions, with the extended opcodes [crXXX] switches on. *)
Inductive CROp := crand | cror | crxor | crnand | crnor | crandc | crorc | creqv.

Definition SUBOP10_of (op : CROp) : Z :=
  match op with
  | crnor => 33 | crandc => 129 | crxor => 193 | crnand => 225
  | crand => 257 | creqv => 289 | crorc => 417 | cror => 449
  end.

Definition spec_cr_truth (op : CROp) (a b : bool) : bool :=
  match op with
  | crand => a && b
  | cror => a || b
  | crxor => xorb a b
  | crnand => negb (a && b)
  | crnor => negb (a || b)
  | crandc => a && negb b
  | crorc => a || negb b
  | creqv => negb (xorb a b)
  end.

(** The flag a 5-bit condition-register bit index names: field [idx >> 2],
    flag [3 - (idx & 3)]. *)
Definition CR_bit (st : Host) (idx : Z) : bool :=
  spec_flag (3 - Z.land idx 3) (rd 64 st (gpr_CR (Z.shiftr idx 2))).

(* ===================================================================== *)
(** * The FPSCR summary bits, as the data model words them               *)
(* ===================================================================== *)

(** "Any invalid-operation exception pending": OR-reduce over the mask. *)
Definition spec_VX (w : Z) : bool := negb (Z.land w FPSCR_VX_ANY =? 0).

(** "Enabled and signaled": the pending bits, shifted into alignment with
    the enable bits, tested against the enabled ones. *)
Definition spec_FEX (w : Z) : bool :=
  negb (Z.land (Z.shiftr w 22) (Z.land w FPSCR_ANY_E) =? 0).

(** [w] with bit [i] made equal to [b]. *)
Definition with_bit (i : Z) (b : bool) (w : Z) : Z :=
  if b then Z.setbit w i else Z.clearbit w i.

(* ===================================================================== *)
(** * The timebase, as the reference formula gives it                    *)
(* ===================================================================== *)

(** The downcount, scaled by the overclock factor and truncated: the one
    floating-point step, left to the host's FPU. *)
Definition scaled_downcount (st : Host) : Z :=
  wrap 64 (fcvtzs st
             (f_mul (f_of_s32 (signed 32 (load 32 st (PPCSTATE_OFF downcount))))
                    (f_of_mem (load 32 st (offsetof_Globals last_OC_factor_inverted))))).

(** Ticks elapsed since the timebase was last set, as a 64-bit value. *)
Definition timebase_elapsed (st : Host) : Z :=
  wrap 64
    (wrap 64
       (wrap 64 (wrap 64 (signed 32 (wrap 32 (load 64 st (offsetof_Globals slice_length))))
                 - scaled_downcount st)
        + load 64 st (offsetof_Globals global_timer))
     - load 64 st (offsetof_Globals fake_TB_start_ticks)).

(** The 64-bit timebase: the start value plus the elapsed ticks over 12. *)
Definition spec_timebase (st : Host) : Z :=
  wrap 64 (load 64 st (offsetof_Globals fake_TB_start_value)
           + timebase_elapsed st / 12).

(** The half of the counter a special-register index names. *)
Definition timebase_half (index tb : Z) : Z :=
  if index =? SPR_TL then wrap 32 tb else Z.shiftr tb 32.

Definition SPR_index (inst : UGeckoInstruction) : Z :=
  Z.lor (Z.shiftl (SPRU inst) 5) (Z.land (SPRL inst) 0x1F).

(** The condition under which [mfspr] merges the following instruction. *)
Definition merges_next (j : Jit) (inst : UGeckoInstruction) : bool :=
  let next := js_op_1_inst j in
  CanMergeNextInstructions j 1 &&
  ((OPCD next =? 31) && (SUBOP10 next =? 371) &&
   ((SPR_index next =? SPR_TU) || (SPR_index next =? SPR_TL)) &&
   negb (RD next =? RD inst)).

(** The fusion condition as the specification words it: the next
    instruction may be merged, reads the other half of the counter, and
    writes a different register. *)
Definition spec_fusion_condition (j : Jit) (inst : UGeckoInstruction) : bool :=
  let next := js_op_1_inst j in
  CanMergeNextInstructions j 1 &&
  (((SPR_index inst =? SPR_TL) && (SPR_index next =? SPR_TU)) ||
   ((SPR_index inst =? SPR_TU) && (SPR_index next =? SPR_TL))) &&
  negb (RD next =? RD inst).

Definition is_division (i : insn) : bool :=
  match i with UDIV _ _ _ | SDIV _ _ _ => true | _ => false end.

(** The multiply-high of the reciprocal: it occurs once for each time the
    counter is computed. *)
Definition is_multiply_high (i : insn) : bool :=
  match i with UMULH _ _ _ => true | _ => false end.

(* ===================================================================== *)
(** * The trap instructions, as the instruction set reads them           *)
(* ===================================================================== *)

(** The five relations a trap instruction can select between its two
    32-bit operands. *)
Inductive TrapRelation :=
| SignedLess | SignedGreater | Equal | UnsignedLess | UnsignedGreater.

Definition relation_holds (rel : TrapRelation) (a b : Z) : bool :=
  match rel with
  | SignedLess => signed 32 a <? signed 32 b
  | SignedGreater => signed 32 b <? signed 32 a
  | Equal => a =? b
  | UnsignedLess => a <? b
  | UnsignedGreater => b <? a
  end.

(** Did the emitted code leave through the trap exit? *)
Definition twx_traps (inst : UGeckoInstruction) (j : Jit) (st : Host) : option bool :=
  match run (JitArm64.twx inst) j st with
  | Some (ExceptionExit _ _) => Some true
  | Some (Fallthrough _) | Some (BlockExit _ _) => Some false
  | _ => None
  end.

(** The flags the comparison at the head of [twx] leaves. *)
Definition twx_flags (inst : UGeckoInstruction) (st : Host) : PSTATE :=
  let a := rd 32 st (gpr_R (s32 (RA inst))) in
  if OPCD inst =? 3 then SUBS_flags 32 a (wrap 32 (s32 (s16 (SIMM_16 inst))))
  else SUBS_flags 32 a (rd 32 st (gpr_R (RB inst))).

(** The loop of [twx] over [conditions], read as a test of the flags: some
    condition whose bit is set in TO holds. *)
Fixpoint twx_condition (to i : Z) (conds : list CCFlags) (p : PSTATE) : bool :=
  match conds with
  | [] => false
  | c :: rest =>
      (negb (Z.land to (Z.shiftl 1 i) =? 0) && cond_holds c p)
      || twx_condition to (i + 1) rest p
  end.

(** The trap condition in the words of the specification, for an assignment
    [sel] of the five relations to the five bits of the mask: some relation
    whose bit is set in [to] holds between the operands. *)
Definition spec_trap (sel : Z -> TrapRelation) (to a b : Z) : bool :=
  existsb (fun i => Z.testbit to i && relation_holds (sel i) a b) [0; 1; 2; 3; 4].

(* ===================================================================== *)
(** * What the write sequences compute, on values                        *)
(* ===================================================================== *)

(** The emitted write sequences only touch the field's own register, so
    their effect is a function of the packed word [w] found there and, for
    the form with an input register, of its content [x].  These functions
    restate the sequences instruction by instruction on values; the lemmas
    [SetCRFieldBit_runs], [SetCRFieldBit_literal_runs] and
    [ClearCRFieldBit_runs] below prove that the emitted code computes
    them. *)

Definition bit63 : Z := wrap 64 (Z.shiftl 1 63).

Definition fix_gt (w : Z) : Z := if w =? 0 then bit63 else w.

Definition SetCRFieldBit_value (bit : Z) (negate bits_1_to_31_are_set : bool)
    (w x : Z) : Z :=
  let w1 := if bit =? PowerPC.CR_GT_BIT then w else fix_gt w in
  let w2 :=
    if bit =? PowerPC.CR_SO_BIT then
      let t := wrap 64 (bfi w1 x PowerPC.CR_EMU_SO_BIT 1) in
      if negate
      then wrap 64 (Z.lxor t (wrap 64 (Z.shiftl 1 PowerPC.CR_EMU_SO_BIT)))
      else t
    else if bit =? PowerPC.CR_EQ_BIT then
      let t := wrap 64 (Z.lor (wrap 64 (Z.land w1 (wrap 64 0xFFFFFFFF00000000))) x) in
      if negb negate
      then wrap 64 (Z.lxor t (wrap 64 (if bits_1_to_31_are_set
                                       then 0xFFFFFFFF else 1)))
      else if bits_1_to_31_are_set
           then wrap 64 (Z.land t (wrap 64 0xFFFFFFFF00000001))
           else t
    else if bit =? PowerPC.CR_GT_BIT then
      let t := wrap 64 (bfi w1 x 63 1) in
      if negb negate
      then wrap 64 (Z.lxor t (wrap 64 (Z.shiftl 1 63)))
      else t
    else if bit =? PowerPC.CR_LT_BIT then
      let t := wrap 64 (bfi w1 x PowerPC.CR_EMU_LT_BIT 1) in
      if negate
      then wrap 64 (Z.lxor t (wrap 64 (Z.shiftl 1 PowerPC.CR_EMU_LT_BIT)))
      else t
    else w1 in
  wrap 64 (Z.lor w2 (wrap 64 (Z.shiftl 1 32))).

Definition SetCRFieldBit_literal_value (bit w : Z) : Z :=
  let w1 := if bit =? PowerPC.CR_GT_BIT then w else fix_gt w in
  let w2 :=
    if bit =? PowerPC.CR_SO_BIT then
      wrap 64 (Z.lor w1 (wrap 64 (Z.shiftl 1 PowerPC.CR_EMU_SO_BIT)))
    else if bit =? PowerPC.CR_EQ_BIT then
      wrap 64 (Z.land w1 (wrap 64 0xFFFFFFFF00000000))
    else if bit =? PowerPC.CR_GT_BIT then
      wrap 64 (Z.land w1 (wrap 64 (wrap 64 (Z.lnot (Z.shiftl 1 63)))))
    else if bit =? PowerPC.CR_LT_BIT then
      wrap 64 (Z.lor w1 (wrap 64 (Z.shiftl 1 PowerPC.CR_EMU_LT_BIT)))
    else w1 in
  wrap 64 (Z.lor w2 (wrap 64 (Z.shiftl 1 32))).

Definition ClearCRFieldBit_value (bit w : Z) : Z :=
  if bit =? PowerPC.CR_SO_BIT then
    wrap 64 (Z.land w (wrap 64 (wrap 64 (Z.lnot (Z.shiftl 1 PowerPC.CR_EMU_SO_BIT)))))
  else if bit =? PowerPC.CR_EQ_BIT then
    wrap 64 (Z.lor (fix_gt w) (wrap 64 1))
  else if bit =? PowerPC.CR_GT_BIT then
    wrap 64 (Z.lor w (wrap 64 (Z.shiftl 1 63)))
  else if bit =? PowerPC.CR_LT_BIT then
    wrap 64 (Z.land w (wrap 64 (wrap 64 (Z.lnot (Z.shiftl 1 PowerPC.CR_EMU_LT_BIT)))))
  else w.

(** What [crXXX] hands to [SetCRFieldBit]: the boolean [v] as bit 0, and
    bits 1 to 31 all set when the combining instruction was a 32-bit
    [EON] or [ORN]. *)
Definition input_for (bits_1_to_31_are_set v : bool) : Z :=
  if bits_1_to_31_are_set then 0xFFFFFFFE + Z.b2z v else Z.b2z v.

(** The boolean the combining instruction of [crXXX] computes, before
    [SetCRFieldBit] applies [negate_result], and the hint it reports. *)
Definition combined (op : CROp) (negate_result a b : bool) : bool :=
  match op with
  | crand | crnand => a && b
  | crandc => a && negb b
  | crxor => xorb a b
  | creqv => if negate_result then xorb a b else negb (xorb a b)
  | cror | crnor => a || b
  | crorc => a || negb b
  end.

Definition combine_hint (op : CROp) (negate_result : bool) : bool :=
  match op with
  | creqv => negb negate_result
  | crorc => true
  | _ => false
  end.

(** [UpdateFPExceptionSummary] on the 32-bit FPSCR word [w]: VX first, then
    FEX from the word that already carries the new VX. *)
Definition UpdateFPExceptionSummary_value (w : Z) : Z :=
  let vx := negb (Z.land w FPSCR_VX_ANY =? 0) in
  let w1 := wrap 32 (bfi w (Z.b2z vx) (MathUtil.IntLog2 FPSCR_VX) 1) in
  let fex := negb (Z.land (Z.shiftr w1 22) (Z.land w1 FPSCR_ANY_E) =? 0) in
  wrap 32 (bfi w1 (Z.b2z fex) (MathUtil.IntLog2 FPSCR_FEX) 1).

(** [mtfsb0x] and [mtfsb1x] on the FPSCR word [w], for the bit index [c]
    of the instruction: the word they store back.  For the two summary bits
    nothing is stored and the word stays. *)
Definition mtfsb0x_value (c w : Z) : Z :=
  let mask := Z.shiftr 0x80000000 c in
  if (mask =? FPSCR_FEX) || (mask =? FPSCR_VX) then w
  else
    let w1 := wrap 32 (Z.land w (wrap 32 (Z.lnot mask))) in
    if negb (Z.land mask (Z.lor FPSCR_ANY_X FPSCR_ANY_E) =? 0)
    then UpdateFPExceptionSummary_value w1 else w1.

Definition mtfsb1x_value (c w : Z) : Z :=
  let mask := Z.shiftr 0x80000000 c in
  if (mask =? FPSCR_FEX) || (mask =? FPSCR_VX) then w
  else
    let w1 :=
      if negb (Z.land mask FPSCR_ANY_X =? 0)
      then (if negb (Z.land w (wrap 32 mask) =? 0) then w
            else wrap 32 (Z.lor w (wrap 32 (Z.shiftl 1 31))))
      else w in
    let w2 := wrap 32 (Z.lor w1 (wrap 32 mask)) in
    if negb (Z.land mask (Z.lor FPSCR_ANY_X FPSCR_ANY_E) =? 0)
    then UpdateFPExceptionSummary_value w2 else w2.


(** One round of the loop of [mfcr]: the word in the destination after the
    round for a field whose packed word is [cr], when it held [acc] before.
    The first round starts from nothing, which is [acc = 0]. *)
Definition mfcr_field_value (acc cr : Z) : Z :=
  let so_lt := Z.land (Z.lor PowerPC.CR_SO PowerPC.CR_LT)
                      (Z.shiftr cr PowerPC.CR_EMU_SO_BIT) in
  let a := wrap 64 (Z.lor so_lt (wrap 64 (Z.shiftl (wrap 64 acc) 4))) in
  let a := if wrap 32 cr =? 0
           then wrap 32 (Z.lor (wrap 32 a) (Z.shiftl 1 PowerPC.CR_EQ_BIT))
           else wrap 32 a in
  if 0 <? signed 64 cr
  then wrap 32 (Z.lor a (Z.shiftl 1 PowerPC.CR_GT_BIT)) else a.

(** The rounds for the fields [first], [first + 1], ... in turn. *)
Fixpoint mfcr_value (crs : Z -> Z) (n : nat) (first : Z) (acc : Z) : Z :=
  match n with
  | O => acc
  | Datatypes.S n' =>
      mfcr_value crs n' (first + 1) (mfcr_field_value acc (crs first))
  end.
(* ===================================================================== *)
(** * Concrete inputs for examples                                       *)
(* ===================================================================== *)

Definition sample_inst : UGeckoInstruction :=
  {| OPCD := 31; SUBOP10 := 0; Rc := false; RA := 3; RB := 4; RD := 5;
     CRBA := 0; CRBB := 0; CRBD := 0; TO := 0; SIMM_16 := 0;
     SPRU := 0; SPRL := 0 |}.

(** A condition-register logical instruction with the given extended opcode
    and bit indices. *)
Definition cr_inst (subop crba crbb crbd : Z) : UGeckoInstruction :=
  {| OPCD := 19; SUBOP10 := subop; Rc := false; RA := crba; RB := crbb; RD := crbd;
     CRBA := crba; CRBB := crbb; CRBD := crbd; TO := crbd; SIMM_16 := 0;
     SPRU := 0; SPRL := 0 |}.

(** A JIT with nothing allocated and every guard setting off. *)
Definition sample_jit : Jit :=
  {| gpr_scoped := 0; fpr_scoped := 0; fixups := 0;
     js_compilerPC := 0x80003100;
     js_downcountAmount := 0; js_skipInstructions := 0;
     js_op_1_inst := sample_inst;
     CanMergeNextInstructions := fun _ => false;
     bJITSystemRegistersOff := false;
     jo_fp_exceptions := false;
     OPTION_CONDITIONAL_CONTINUE := false |}.

(** A host whose registers and memory all hold [v]. *)
Definition sample_host (v : Z) : Host :=
  {| regs := fun _ => v;
     fregs := fun _ => f_of_mem 0;
     nzcv := {| flagN := false; flagZ := false; flagC := false; flagV := false |};
     mem := fun _ => v;
     fcvtzs := fun _ => 0;
     globals_addr := 0;
     events := [] |}.

(** A move-from-timebase instruction: [mftb rd, TBL] for [index = 268],
    [mftb rd, TBU] for [index = 269]. *)
Definition mftb_inst (rd index : Z) : UGeckoInstruction :=
  {| OPCD := 31; SUBOP10 := 371; Rc := false; RA := 0; RB := 0; RD := rd;
     CRBA := 0; CRBB := 0; CRBD := 0; TO := 0; SIMM_16 := 0;
     SPRU := Z.shiftr index 5; SPRL := Z.land index 0x1F |}.

(** A JIT about to translate an [mftb] that is followed by [next], which
    may be merged. *)
Definition sample_jit_before (next : UGeckoInstruction) : Jit :=
  {| gpr_scoped := 0; fpr_scoped := 0; fixups := 0;
     js_compilerPC := 0x80003100;
     js_downcountAmount := 0; js_skipInstructions := 0;
     js_op_1_inst := next;
     CanMergeNextInstructions := fun _ => true;
     bJITSystemRegistersOff := false;
     jo_fp_exceptions := false;
     OPTION_CONDITIONAL_CONTINUE := false |}.

(** [tw to, r3, r4]. *)
Definition tw_inst (to : Z) : UGeckoInstruction :=
  {| OPCD := 31; SUBOP10 := 4; Rc := false; RA := 3; RB := 4; RD := to;
     CRBA := 0; CRBB := 0; CRBD := to; TO := to; SIMM_16 := 0;
     SPRU := 0; SPRL := 0 |}.

(** [twi to, r3, simm]. *)
Definition twi_inst (to simm : Z) : UGeckoInstruction :=
  {| OPCD := 3; SUBOP10 := 0; Rc := false; RA := 3; RB := 0; RD := to;
     CRBA := 0; CRBB := 0; CRBD := to; TO := to; SIMM_16 := simm;
     SPRU := 0; SPRL := 0 |}.

(** A host with [a] in the register of r3, [b] in that of r4 and zero
    everywhere else. *)
Definition host_with_operands (a b : Z) : Host :=
  {| regs := upd (GPRh 3) a (upd (GPRh 4) b (fun _ => 0));
     fregs := fun _ => f_of_mem 0;
     nzcv := {| flagN := false; flagZ := false; flagC := false; flagV := false |};
     mem := fun _ => 0;
     fcvtzs := fun _ => 0;
     globals_addr := 0;
     events := [] |}.

(** An FPSCR bit instruction ([mtfsb0] or [mtfsb1]) on bit [crbd]. *)
Definition fpscr_inst (crbd : Z) : UGeckoInstruction :=
  {| OPCD := 63; SUBOP10 := 70; Rc := false; RA := 0; RB := 0; RD := crbd;
     CRBA := 0; CRBB := 0; CRBD := crbd; TO := crbd; SIMM_16 := 0;
     SPRU := 0; SPRL := 0 |}.


(** [mfspr rd, index]. *)
Definition mfspr_inst (rd index : Z) : UGeckoInstruction :=
  {| OPCD := 31; SUBOP10 := 339; Rc := false; RA := 0; RB := 0; RD := rd;
     CRBA := 0; CRBB := 0; CRBD := 0; TO := 0; SIMM_16 := 0;
     SPRU := Z.shiftr index 5; SPRL := Z.land index 0x1F |}.

(** A JIT in which the handlers of this file are switched off. *)
Definition sample_jit_off : Jit :=
  {| gpr_scoped := 0; fpr_scoped := 0; fixups := 0;
     js_compilerPC := 0x80003100;
     js_downcountAmount := 0; js_skipInstructions := 0;
     js_op_1_inst := sample_inst;
     CanMergeNextInstructions := fun _ => false;
     bJITSystemRegistersOff := true;
     jo_fp_exceptions := false;
     OPTION_CONDITIONAL_CONTINUE := false |}.

(** The record form of an FPSCR bit instruction ([mtfsb0.] or [mtfsb1.]). *)
Definition fpscr_record_inst (crbd : Z) : UGeckoInstruction :=
  {| OPCD := 63; SUBOP10 := 70; Rc := true; RA := 0; RB := 0; RD := crbd;
     CRBA := 0; CRBB := 0; CRBD := crbd; TO := crbd; SIMM_16 := 0;
     SPRU := 0; SPRL := 0 |}.

(** A JIT that translates with floating-point exceptions enabled. *)
Definition sample_jit_fp_exceptions : Jit :=
  {| gpr_scoped := 0; fpr_scoped := 0; fixups := 0;
     js_compilerPC := 0x80003100;
     js_downcountAmount := 0; js_skipInstructions := 0;
     js_op_1_inst := sample_inst;
     CanMergeNextInstructions := fun _ => false;
     bJITSystemRegistersOff := false;
     jo_fp_exceptions := true;
     OPTION_CONDITIONAL_CONTINUE := false |}.
(* ===================================================================== *)
(** * Proof support                                                      *)
(* ===================================================================== *)

(** ** Wrapping and single bits *)

Lemma wrap_range w v : 0 <= w -> 0 <= wrap w v < 2 ^ w.
Proof.
  intros. unfold wrap. apply Z.mod_pos_bound. apply Z.pow_pos_nonneg; lia.
Qed.

Lemma wrap_wrap w v : wrap w (wrap w v) = wrap w v.
Proof. unfold wrap. apply Zmod_mod. Qed.

Lemma wrap_small w v : 0 <= v < 2 ^ w -> wrap w v = v.
Proof. intros. unfold wrap. apply Z.mod_small; lia. Qed.

Lemma wrap_b2z w (b : bool) : 0 < w -> wrap w (Z.b2z b) = Z.b2z b.
Proof.
  intros. apply wrap_small.
  assert (2 ^ 1 <= 2 ^ w) by (apply Z.pow_le_mono_r; lia).
  destruct b; cbn [Z.b2z]; change (2 ^ 1) with 2 in *; lia.
Qed.

Lemma testbit_wrap w v i :
  0 <= w -> Z.testbit (wrap w v) i = (i <? w) && Z.testbit v i.
Proof. intros. unfold wrap. apply Z.testbit_mod_pow2; lia. Qed.

Lemma testbit_msb n x :
  0 <= n -> 0 <= x < 2 ^ (n + 1) -> Z.testbit x n = (2 ^ n <=? x).
Proof.
  intros Hn Hx.
  assert (P : 0 < 2 ^ n) by (apply Z.pow_pos_nonneg; lia).
  replace (2 ^ (n + 1)) with (2 * 2 ^ n) in Hx
    by (rewrite <- Z.pow_succ_r by lia; f_equal; lia).
  destruct (Z.leb_spec (2 ^ n) x) as [L|L].
  - apply Z.testbit_true; [lia|].
    assert (E : x / 2 ^ n = 1)
      by (symmetry; apply Z.div_unique with (r := x - 2 ^ n); lia).
    rewrite E. reflexivity.
  - apply Z.testbit_false; [lia|].
    rewrite Z.div_small by lia. reflexivity.
Qed.

Lemma ubfx_1 v lsb : 0 <= lsb -> ubfx v lsb 1 = Z.b2z (Z.testbit v lsb).
Proof.
  intros. unfold ubfx. rewrite Z.land_ones by lia. change (2 ^ 1) with 2.
  rewrite <- Z.bit0_mod, Z.shiftr_spec by lia. reflexivity.
Qed.

Lemma HostReg_eqb_refl h : HostReg_eqb h h = true.
Proof. destruct h; cbn; auto using Z.eqb_refl, Nat.eqb_refl. Qed.

Lemma upd_same h v f : upd h v f h = v.
Proof. unfold upd. now rewrite HostReg_eqb_refl. Qed.

(** ** Flags after a comparison *)

Lemma signed_wrap_range w v :
  0 < w -> - 2 ^ (w - 1) <= signed w (wrap w v) < 2 ^ (w - 1).
Proof.
  intros. pose proof (wrap_range w v ltac:(lia)).
  assert (E : 2 ^ w = 2 * 2 ^ (w - 1))
    by (rewrite <- Z.pow_succ_r by lia; f_equal; lia).
  unfold signed. destruct (Z.ltb_spec (wrap w v) (2 ^ (w - 1))); lia.
Qed.

Ltac split_cmp :=
  repeat match goal with
  | |- context [?a <? ?b] => destruct (Z.ltb_spec a b)
  | |- context [?a <=? ?b] => destruct (Z.leb_spec a b)
  | |- context [?a =? ?b] => destruct (Z.eqb_spec a b)
  | H : context [?a <? ?b] |- _ => destruct (Z.ltb_spec a b)
  | H : context [?a <=? ?b] |- _ => destruct (Z.leb_spec a b)
  | H : context [?a =? ?b] |- _ => destruct (Z.eqb_spec a b)
  end.

(** Comparing a 64-bit register with zero. *)
Lemma cmp0_flags v :
  flagZ (SUBS_flags 64 (wrap 64 v) 0) = (wrap 64 v =? 0) /\
  flagN (SUBS_flags 64 (wrap 64 v) 0) = (2 ^ 63 <=? wrap 64 v) /\
  flagV (SUBS_flags 64 (wrap 64 v) 0) = false.
Proof.
  pose proof (wrap_range 64 v ltac:(lia)) as R.
  unfold SUBS_flags; cbn [flagN flagZ flagV].
  rewrite Z.sub_0_r, wrap_wrap.
  rewrite (testbit_msb 63) by (change (63 + 1) with 64; lia).
  repeat split.
  change (signed 64 0) with 0. rewrite Z.sub_0_r.
  unfold signed. change (64 - 1) with 63 in *.
  split_cmp; cbn; try reflexivity; lia.
Qed.

Lemma cmp0_GT v :
  cond_holds CC_GT (SUBS_flags 64 (wrap 64 v) 0) = spec_GT (wrap 64 v).
Proof.
  destruct (cmp0_flags v) as (Z0 & N0 & V0).
  pose proof (wrap_range 64 v ltac:(lia)) as R.
  unfold cond_holds. rewrite Z0, N0, V0.
  unfold spec_GT, signed. change (64 - 1) with 63.
  split_cmp; cbn; try reflexivity; lia.
Qed.

Lemma cmp0_LE v :
  cond_holds CC_LE (SUBS_flags 64 (wrap 64 v) 0) = negb (spec_GT (wrap 64 v)).
Proof. rewrite <- cmp0_GT. reflexivity. Qed.

Lemma cmp0_NEQ v :
  cond_holds CC_NEQ (SUBS_flags 64 (wrap 64 v) 0) = negb (wrap 64 v =? 0).
Proof.
  destruct (cmp0_flags v) as (Z0 & _). unfold cond_holds. now rewrite Z0.
Qed.

(** Comparing the low half with the zero register. *)
Lemma cmp0_EQ_32 v :
  cond_holds CC_EQ (SUBS_flags 32 (wrap 32 v) 0) = (wrap 32 v =? 0).
Proof.
  unfold cond_holds, SUBS_flags; cbn [flagZ].
  now rewrite Z.sub_0_r, wrap_wrap.
Qed.

Lemma wrap_32_64 v : wrap 32 (wrap 64 v) = wrap 32 v.
Proof.
  unfold wrap. apply Z.mod_mod_divide.
  exists (2 ^ 32). reflexivity.
Qed.

(** ** Symbolic execution of emitted code *)

Ltac host_cbn :=
  cbn [exec branch_taken step opwidth Is64Bit wr rd host_of set_regs set_nzcv
       set_mem set_fregs log regs nzcv mem fregs events fcvtzs globals_addr
       upd fupd mupd frd fwr op2val HostReg_eqb Offset_eqb load store
       EncodeRegTo64 EncodeRegTo32 EncodeRegToSingle gpr_CR gpr_R PPC_REG].

Ltac observe :=
  unfold jump_taken, reg_after, state_after, run.


Arguments rd w st !r /.
Arguments wr w st !r v /.

Lemma upd_other h h' v f : HostReg_eqb h h' = false -> upd h v f h' = f h'.
Proof. unfold upd. intros ->. reflexivity. Qed.

(** Generating: unfold the emitter monad down to the instruction list. *)
Ltac jit_cbn :=
  cbn [emitted jit_after
       JitArm64.SetCRFieldBit JitArm64.FixGTBeforeSettingCRFieldBit
       JitArm64.ClearCRFieldBit JitArm64.SetCRFieldBit_literal
       JitArm64.GetCRFieldBit JitArm64.crXXX_combine
       JitArm64.UpdateFPExceptionSummary JitArm64.UpdateRoundingMode
       scope when bind ret emit get_jit new_fixup B B_ SetJumpTarget
       FALLBACK_IF JITDISABLE
       gpr_BindCRToRegister gpr_BindToRegister gpr_GetScopedReg fpr_GetScopedReg
       with_scoped with_fixups with_js
       gpr_scoped fpr_scoped fixups js_compilerPC js_downcountAmount
       js_skipInstructions js_op_1_inst CanMergeNextInstructions
       bJITSystemRegistersOff jo_fp_exceptions OPTION_CONDITIONAL_CONTINUE
       negb orb andb Z.eqb Pos.eqb
       PowerPC.CR_GT_BIT PowerPC.CR_SO_BIT PowerPC.CR_EQ_BIT PowerPC.CR_LT_BIT
       PowerPC.CR_EMU_SO_BIT PowerPC.CR_EMU_LT_BIT
       app EncodeRegTo64 EncodeRegTo32 EncodeRegToSingle];
  unfold gpr_CR, gpr_R, PPC_REG;
  cbn [EncodeRegTo64 EncodeRegTo32 EncodeRegToSingle].

Ltac neq_regs :=
  cbn [HostReg_eqb];
  first [ reflexivity | assumption
        | apply Nat.eqb_neq; (assumption || congruence || lia)
        | apply Z.eqb_neq; (assumption || congruence || lia) ].

Ltac simp_regs :=
  repeat first [ rewrite upd_same | rewrite upd_other by neq_regs
               | rewrite wrap_wrap ].

Ltac flat_state :=
  unfold set_regs, set_nzcv, set_mem, set_fregs, log;
  cbn [regs nzcv mem fregs events fcvtzs globals_addr].

(** Give the value an instruction has just produced a name, so that the
    state stays small while the code is stepped through. *)
Ltac name_new :=
  try match goal with
  | |- context [exec _ _ {| regs := upd _ ?V _; fregs := _; nzcv := _;
                             mem := _; fcvtzs := _; globals_addr := _;
                             events := _ |}] =>
      tryif is_var V then fail else
        (let v := fresh "v" in remember V as v)
  end;
  try match goal with
  | |- context [exec _ _ {| regs := _; fregs := _; nzcv := ?P;
                             mem := _; fcvtzs := _; globals_addr := _;
                             events := _ |}] =>
      lazymatch P with
      | SUBS_flags _ _ _ => let p := fresh "p" in remember P as p
      | ANDS_flags _ _ => let p := fresh "p" in remember P as p
      end
  end.

(** One instruction of straight-line code. *)
Ltac exec1 :=
  lazymatch goal with
  | |- context [exec None (?i :: ?rest) ?st] =>
      change (exec None (i :: rest) st)
        with (exec (branch_taken i st) rest (step i st));
      cbn [branch_taken step opwidth Is64Bit wr rd host_of op2val load store];
      flat_state; simp_regs; name_new
  end.

Ltac exec_all := repeat exec1; cbn [exec].

(** ** The write sequences compute their value functions *)

Lemma bit_cases (bit : Z) :
  bit = 0 \/ bit = 1 \/ bit = 2 \/ bit = 3 \/
  ((bit =? 0) = false /\ (bit =? 1) = false /\
   (bit =? 2) = false /\ (bit =? 3) = false).
Proof.
  destruct (Z.eqb_spec bit 0); [auto|].
  destruct (Z.eqb_spec bit 1); [auto|].
  destruct (Z.eqb_spec bit 2); [auto|].
  destruct (Z.eqb_spec bit 3); [auto 6|].
  do 4 right. auto.
Qed.

Lemma fix_gt_csel r :
  wrap 64 (if cond_holds CC_NEQ (SUBS_flags 64 (wrap 64 r) 0)
           then wrap 64 r else wrap 64 (wrap 64 (Z.shiftl 1 63)))
  = fix_gt (wrap 64 r).
Proof.
  rewrite cmp0_NEQ. unfold fix_gt, bit63.
  destruct (wrap 64 r =? 0); cbn [negb]; now rewrite !wrap_wrap.
Qed.

Lemma rd_range st r : 0 <= rd 64 st r < 2 ^ 64.
Proof.
  unfold rd. destruct (host_of r); [apply wrap_range|]; lia.
Qed.

Ltac finish_value :=
  cbn [rd host_of regs]; simp_regs; subst; rewrite ?wrap_wrap, ?fix_gt_csel;
  reflexivity.

Lemma SetCRFieldBit_runs f bit in_ negate hint j st :
  exists x st',
    state_after (JitArm64.SetCRFieldBit f bit in_ negate hint) j st = Some st' /\
    rd 64 st' (gpr_CR f)
      = SetCRFieldBit_value bit negate hint (rd 64 st (gpr_CR f)) x /\
    0 <= x < 2 ^ 64 /\
    (forall k, in_ = X (Scoped k) -> k <> gpr_scoped j -> x = rd 64 st in_) /\
    (forall g, g <> f -> regs st' (CRh g) = regs st (CRh g)).
Proof.
  destruct (bit_cases bit) as [-> | [-> | [-> | [-> | (H0 & H1 & H2 & H3)]]]].
  all: observe; unfold JitArm64.SetCRFieldBit, SetCRFieldBit_value;
       unfold PowerPC.CR_SO_BIT, PowerPC.CR_EQ_BIT, PowerPC.CR_GT_BIT,
              PowerPC.CR_LT_BIT;
       rewrite ?H0, ?H1, ?H2, ?H3;
       destruct negate, hint; jit_cbn; exec_all.
  all: let r := constr:(in_) in
       match goal with
       | H : context [rd 64 ?s r] |- _ => exists (rd 64 s r)
       | |- _ => exists (rd 64 st r)
       end; eexists; split; [reflexivity|].
  all: split; [finish_value|].
  all: split; [first [apply rd_range | lia]|].
  all: split; [intros k -> Hk; cbn [rd host_of regs]; simp_regs; reflexivity|].
  all: intros g Hg; cbn [regs]; simp_regs; reflexivity.
Qed.

Lemma SetCRFieldBit_literal_runs f bit j st :
  exists st',
    state_after (JitArm64.SetCRFieldBit_literal f bit) j st = Some st' /\
    rd 64 st' (gpr_CR f)
      = SetCRFieldBit_literal_value bit (rd 64 st (gpr_CR f)) /\
    (forall g, g <> f -> regs st' (CRh g) = regs st (CRh g)).
Proof.
  destruct (bit_cases bit) as [-> | [-> | [-> | [-> | (H0 & H1 & H2 & H3)]]]].
  all: observe; unfold JitArm64.SetCRFieldBit_literal, SetCRFieldBit_literal_value;
       unfold PowerPC.CR_SO_BIT, PowerPC.CR_EQ_BIT, PowerPC.CR_GT_BIT,
              PowerPC.CR_LT_BIT;
       rewrite ?H0, ?H1, ?H2, ?H3; jit_cbn; exec_all.
  all: eexists; split; [reflexivity|].
  all: split; [finish_value|].
  all: intros g Hg; cbn [regs]; simp_regs; reflexivity.
Qed.

Lemma ClearCRFieldBit_runs f bit j st :
  exists st',
    state_after (JitArm64.ClearCRFieldBit f bit) j st = Some st' /\
    rd 64 st' (gpr_CR f) = ClearCRFieldBit_value bit (rd 64 st (gpr_CR f)) /\
    (forall g, g <> f -> regs st' (CRh g) = regs st (CRh g)).
Proof.
  destruct (bit_cases bit) as [-> | [-> | [-> | [-> | (H0 & H1 & H2 & H3)]]]].
  all: observe; unfold JitArm64.ClearCRFieldBit, ClearCRFieldBit_value;
       unfold PowerPC.CR_SO_BIT, PowerPC.CR_EQ_BIT, PowerPC.CR_GT_BIT,
              PowerPC.CR_LT_BIT;
       rewrite ?H0, ?H1, ?H2, ?H3; jit_cbn; exec_all.
  all: eexists; split; [reflexivity|].
  all: split; [finish_value|].
  all: intros g Hg; cbn [regs]; simp_regs; reflexivity.
Qed.

(** ** Single bits of the computed words *)

Lemma testbit_bfi1 d s lsb i :
  0 <= lsb -> 0 <= i ->
  Z.testbit (bfi d s lsb 1) i = if i =? lsb then Z.testbit s 0 else Z.testbit d i.
Proof.
  intros Hl Hi. unfold bfi.
  rewrite Z.lor_spec, Z.ldiff_spec, !Z.shiftl_spec, Z.land_spec by lia.
  rewrite !Z.testbit_ones by lia.
  destruct (Z.eqb_spec i lsb) as [->|N].
  - rewrite Z.sub_diag. cbn. now rewrite andb_false_r, andb_true_r.
  - destruct (Z.leb_spec 0 (i - lsb)); destruct (Z.ltb_spec (i - lsb) 1);
      try lia; cbn; now rewrite ?andb_true_r, ?andb_false_r, ?orb_false_r.
Qed.

Lemma spec_GT_bits w :
  0 <= w < 2 ^ 64 -> spec_GT w = negb (Z.testbit w 63) && negb (w =? 0).
Proof.
  intros R. unfold spec_GT, signed. change (64 - 1) with 63.
  rewrite (testbit_msb 63) by (change (63 + 1) with 64; lia).
  split_cmp; cbn; try reflexivity; lia.
Qed.

Lemma testbit_true_nonzero w i : Z.testbit w i = true -> (w =? 0) = false.
Proof.
  intros H. destruct (Z.eqb_spec w 0) as [->|]; [|reflexivity].
  now rewrite Z.testbit_0_l in H.
Qed.

Lemma wrap_land w a b : 0 <= w -> wrap w (Z.land a b) = Z.land (wrap w a) (wrap w b).
Proof.
  intros. unfold wrap. rewrite <- !Z.land_ones by lia.
  apply Z.bits_inj'. intros i Hi. rewrite !Z.land_spec. btauto.
Qed.

Lemma wrap_lor w a b : 0 <= w -> wrap w (Z.lor a b) = Z.lor (wrap w a) (wrap w b).
Proof.
  intros. unfold wrap. rewrite <- !Z.land_ones by lia.
  apply Z.bits_inj'. intros i Hi. rewrite ?Z.land_spec, ?Z.lor_spec, ?Z.land_spec. btauto.
Qed.

Lemma wrap_lxor w a b : 0 <= w -> wrap w (Z.lxor a b) = Z.lxor (wrap w a) (wrap w b).
Proof.
  intros. unfold wrap. rewrite <- !Z.land_ones by lia.
  apply Z.bits_inj'. intros i Hi. rewrite ?Z.land_spec, ?Z.lxor_spec, ?Z.land_spec. btauto.
Qed.

(** Replace a closed boolean or numeric subterm by its value. *)
Ltac has_var t := match t with context [?v] => is_var v end.

Ltac closed_bool t :=
  tryif has_var t then fail else
  let b := eval vm_compute in t in
  lazymatch b with
  | true => change t with true
  | false => change t with false
  end.

Ltac bits_step :=
  match goal with
  | |- context [Z.testbit (wrap ?w ?a) ?i] => rewrite (testbit_wrap w a i) by lia
  | |- context [Z.testbit (Z.lor ?a ?b) ?i] => rewrite (Z.lor_spec a b i)
  | |- context [Z.testbit (Z.land ?a ?b) ?i] => rewrite (Z.land_spec a b i)
  | |- context [Z.testbit (Z.lxor ?a ?b) ?i] => rewrite (Z.lxor_spec a b i)
  | |- context [Z.testbit (bfi ?d ?s ?l 1) ?i] =>
      rewrite (testbit_bfi1 d s l i) by (vm_compute; discriminate)
  | |- context [Z.testbit ?a ?i] => closed_bool (Z.testbit a i)
  | |- context [?a <? ?b] => closed_bool (a <? b)
  | |- context [?a =? ?b] => closed_bool (a =? b)
  end.

Ltac bits := repeat bits_step; cbn [andb orb negb xorb].

Ltac bool_cases :=
  repeat match goal with
  | |- context [Z.testbit ?a ?i] => destruct (Z.testbit a i)
  end; cbn [andb orb negb xorb]; try reflexivity.

Lemma fix_gt_range w : 0 <= w < 2 ^ 64 -> 0 <= fix_gt w < 2 ^ 64.
Proof. intros. unfold fix_gt, bit63. destruct (w =? 0); [vm_compute; split; congruence | lia]. Qed.

(** Once guarded, a word that reads GT as false has its sign bit set. *)
Lemma fix_gt_sign w :
  0 <= w < 2 ^ 64 -> spec_GT w = false -> Z.testbit (fix_gt w) 63 = true.
Proof.
  intros R G. rewrite spec_GT_bits in G by lia. unfold fix_gt.
  destruct (w =? 0); [reflexivity|].
  destruct (Z.testbit w 63); [reflexivity | discriminate].
Qed.

Lemma not_GT_of_sign v : Z.testbit (wrap 64 v) 63 = true -> spec_GT (wrap 64 v) = false.
Proof.
  intros H. rewrite spec_GT_bits by (apply wrap_range; lia). now rewrite H.
Qed.

Lemma SetCRFieldBit_value_keeps_GT_false bit negate hint w x :
  0 <= w < 2 ^ 64 -> bit <> PowerPC.CR_GT_BIT -> spec_GT w = false ->
  spec_GT (SetCRFieldBit_value bit negate hint w x) = false.
Proof.
  intros R NG G. pose proof (fix_gt_sign w R G) as S.
  unfold SetCRFieldBit_value. apply not_GT_of_sign.
  destruct (bit_cases bit) as [-> | [-> | [-> | [-> | (H0 & H1 & H2 & H3)]]]];
    [| | now elim NG | |];
    unfold PowerPC.CR_SO_BIT, PowerPC.CR_EQ_BIT, PowerPC.CR_GT_BIT,
           PowerPC.CR_LT_BIT, PowerPC.CR_EMU_SO_BIT, PowerPC.CR_EMU_LT_BIT;
    rewrite ?H0, ?H1, ?H2, ?H3; cbn [Z.eqb Pos.eqb];
    destruct negate, hint; cbn [negb]; bits; rewrite ?S; bool_cases.
Qed.

Lemma fix_gt_other_bits w i :
  0 <= i -> i <> 63 -> Z.testbit (fix_gt w) i = Z.testbit w i.
Proof.
  intros Hi N. unfold fix_gt, bit63. destruct (Z.eqb_spec w 0) as [->|]; [|reflexivity].
  rewrite Z.testbit_0_l. change (wrap 64 (Z.shiftl 1 63)) with (2 ^ 63).
  rewrite Z.pow2_bits_eqb by lia. apply Z.eqb_neq. congruence.
Qed.

Ltac unfold_bits :=
  unfold PowerPC.CR_SO_BIT, PowerPC.CR_EQ_BIT, PowerPC.CR_GT_BIT,
         PowerPC.CR_LT_BIT, PowerPC.CR_EMU_SO_BIT, PowerPC.CR_EMU_LT_BIT.

Lemma SetCRFieldBit_literal_value_keeps_GT_false bit w :
  0 <= w < 2 ^ 64 -> bit <> PowerPC.CR_GT_BIT -> spec_GT w = false ->
  spec_GT (SetCRFieldBit_literal_value bit w) = false.
Proof.
  intros R NG G. pose proof (fix_gt_sign w R G) as S.
  unfold SetCRFieldBit_literal_value. apply not_GT_of_sign.
  destruct (bit_cases bit) as [-> | [-> | [-> | [-> | (H0 & H1 & H2 & H3)]]]];
    [| | now elim NG | |];
    unfold_bits; rewrite ?H0, ?H1, ?H2, ?H3; cbn [Z.eqb Pos.eqb];
    bits; rewrite ?S; bool_cases.
Qed.

Lemma ClearCRFieldBit_value_keeps_GT_false bit w :
  0 <= w < 2 ^ 64 -> bit <> PowerPC.CR_GT_BIT -> spec_GT w = false ->
  spec_GT (ClearCRFieldBit_value bit w) = false.
Proof.
  intros R NG G. pose proof (fix_gt_sign w R G) as S.
  unfold ClearCRFieldBit_value.
  destruct (bit_cases bit) as [-> | [-> | [-> | [-> | (H0 & H1 & H2 & H3)]]]];
    [| | now elim NG | |];
    unfold_bits; rewrite ?H0, ?H1, ?H2, ?H3; cbn [Z.eqb Pos.eqb]; trivial.
  - (* SO: a zero word stays zero, a negative word stays negative *)
    rewrite spec_GT_bits in G by lia. rewrite spec_GT_bits by (apply wrap_range; lia).
    destruct (Z.eqb_spec w 0) as [->|].
    + reflexivity.
    + destruct (Z.testbit w 63) eqn:B; [|discriminate].
      bits. rewrite B. reflexivity.
  - apply not_GT_of_sign. bits. rewrite S. reflexivity.
  - rewrite spec_GT_bits in G by lia. rewrite spec_GT_bits by (apply wrap_range; lia).
    destruct (Z.eqb_spec w 0) as [->|].
    + reflexivity.
    + destruct (Z.testbit w 63) eqn:B; [|discriminate].
      bits. rewrite B. reflexivity.
Qed.

Lemma SetCRFieldBit_value_bit32 bit negate hint w x :
  Z.testbit (SetCRFieldBit_value bit negate hint w x) 32 = true.
Proof.
  unfold SetCRFieldBit_value. bits. apply orb_true_r.
Qed.

Lemma SetCRFieldBit_literal_value_bit32 bit w :
  Z.testbit (SetCRFieldBit_literal_value bit w) 32 = true.
Proof.
  unfold SetCRFieldBit_literal_value. bits. apply orb_true_r.
Qed.

Lemma ClearCRFieldBit_value_bit32 bit w :
  Z.testbit (ClearCRFieldBit_value bit w) 32 = Z.testbit w 32.
Proof.
  unfold ClearCRFieldBit_value.
  destruct (bit_cases bit) as [-> | [-> | [-> | [-> | (H0 & H1 & H2 & H3)]]]];
    unfold_bits; rewrite ?H0, ?H1, ?H2, ?H3; cbn [Z.eqb Pos.eqb]; trivial;
    bits; rewrite ?fix_gt_other_bits by lia; bool_cases.
Qed.

(** ** Composing generators *)

Lemma exec_app c1 : forall c2 s st,
  exec s (c1 ++ c2) st =
  match exec s c1 st with
  | Fallthrough st1 => exec None c2 st1
  | Pending f st1 => exec (Some f) c2 st1
  | o => o
  end.
Proof.
  induction c1 as [|i c1 IH]; intros c2 s st.
  - destruct s; reflexivity.
  - destruct s as [f|].
    + cbn [app exec]. destruct i; try apply IH.
      destruct (Nat.eqb f f0); apply IH.
    + cbn [app exec]. destruct i; try apply IH; reflexivity.
Qed.

Lemma gen_run_bind {A B} (m : Emit A) (k : A -> Emit B) j st a j1 st1 :
  gen_run m j st = Some (a, j1, st1) ->
  gen_run (bind m k) j st = gen_run (k a) j1 st1.
Proof.
  unfold gen_run, bind. destruct (m j) as [[[a' c1] j']|]; [|discriminate].
  destruct (exec None c1 st) eqn:E; try discriminate.
  intros [= -> -> ->].
  destruct (k a j1) as [[[b c2] j2]|]; [|reflexivity].
  rewrite exec_app, E. reflexivity.
Qed.

Lemma state_after_gen {A} (m : Emit A) j st :
  state_after m j st =
  match gen_run m j st with Some (_, _, st') => Some st' | None => None end.
Proof.
  unfold state_after, run, emitted, gen_run.
  destruct (m j) as [[[a c] j']|]; [|reflexivity].
  destruct (exec None c st); reflexivity.
Qed.

Lemma state_after_bind {A B} (m : Emit A) (k : A -> Emit B) j st a j1 st1 :
  gen_run m j st = Some (a, j1, st1) ->
  state_after (bind m k) j st = state_after (k a) j1 st1.
Proof.
  intros H. rewrite !state_after_gen, (gen_run_bind m k j st a j1 st1 H).
  reflexivity.
Qed.

Lemma gen_run_scope {A} (m : Emit A) j st a j1 st1 :
  gen_run m j st = Some (a, j1, st1) ->
  gen_run (scope m) j st
    = Some (a, with_scoped j1 (gpr_scoped j) (fpr_scoped j), st1).
Proof.
  unfold gen_run, scope. destruct (m j) as [[[a' c] j']|]; [|discriminate].
  destruct (exec None c st); try discriminate. now intros [= -> -> ->].
Qed.

Lemma state_after_scope {A} (m : Emit A) j st :
  state_after (scope m) j st = state_after m j st.
Proof.
  unfold state_after, run, emitted, scope.
  destruct (m j) as [[[a c] j']|]; reflexivity.
Qed.

Lemma emitted_scope {A} (m : Emit A) j : emitted (scope m) j = emitted m j.
Proof.
  unfold emitted, scope. destruct (m j) as [[[a c] j']|]; reflexivity.
Qed.

Lemma state_after_JITDISABLE setting body j st :
  setting j = false ->
  state_after (JITDISABLE setting body) j st = state_after body j st.
Proof.
  intros H. unfold state_after, run, emitted, JITDISABLE, FALLBACK_IF, bind, get_jit.
  rewrite H. destruct (body j) as [[[a c] j']|]; reflexivity.
Qed.

Lemma emitted_JITDISABLE setting body j :
  setting j = false -> emitted (JITDISABLE setting body) j = emitted body j.
Proof.
  intros H. unfold emitted, JITDISABLE, FALLBACK_IF, bind, get_jit.
  rewrite H. destruct (body j) as [[[a c] j']|]; reflexivity.
Qed.

Lemma gen_run_GetScopedReg j st :
  gen_run gpr_GetScopedReg j st
  = Some (W (Scoped (gpr_scoped j)),
          with_scoped j (Datatypes.S (gpr_scoped j)) (fpr_scoped j), st).
Proof. reflexivity. Qed.

(** ** Reading a flag into a scoped temporary *)

Lemma land3_range x : 0 <= 3 - Z.land x 3 <= 3.
Proof.
  assert (0 <= Z.land x 3) by (apply Z.land_nonneg; lia).
  assert (Z.land x 3 <= 3).
  { change 3 with (Z.ones 2). rewrite Z.land_ones by lia.
    pose proof (Z.mod_pos_bound x (2 ^ 2) ltac:(lia)). change (Z.ones 2) with 3.
    change (2 ^ 2) with 4 in *. lia. }
  lia.
Qed.

Lemma bit_range_cases bit : 0 <= bit <= 3 -> bit = 0 \/ bit = 1 \/ bit = 2 \/ bit = 3.
Proof. lia. Qed.

Lemma GetCRFieldBit_gen f bit k j st :
  0 <= bit <= 3 ->
  exists st',
    gen_run (JitArm64.GetCRFieldBit f bit (X (Scoped k))) j st = Some (tt, j, st') /\
    regs st' (Scoped k) = Z.b2z (spec_flag bit (rd 64 st (gpr_CR f))) /\
    (forall h, HostReg_eqb (Scoped k) h = false -> regs st' h = regs st h).
Proof.
  intros Hb.
  destruct (bit_range_cases bit Hb) as [-> | [-> | [-> | ->]]];
    unfold gen_run; jit_cbn; exec_all; eexists; (split; [reflexivity|]);
    cbn [regs rd host_of]; simp_regs; subst; unfold spec_flag; unfold_bits;
    cbn [Z.eqb Pos.eqb]; (split; [|intros h Hh; now rewrite upd_other by exact Hh]).
  - rewrite ubfx_1, wrap_b2z by lia. reflexivity.
  - rewrite cmp0_EQ_32. unfold spec_EQ. rewrite wrap_32_64.
    destruct (wrap 32 (regs st (CRh f)) =? 0); reflexivity.
  - rewrite cmp0_GT. destruct (spec_GT _); reflexivity.
  - rewrite ubfx_1, wrap_b2z by lia. reflexivity.
Qed.

(** ** The flag a write leaves *)

Ltac closed_num t :=
  tryif has_var t then fail else
  let v := eval vm_compute in t in progress change t with v.

Ltac low32 :=
  unfold spec_EQ;
  repeat first [ rewrite wrap_32_64 | rewrite wrap_wrap
               | rewrite wrap_lor by lia | rewrite wrap_lxor by lia
               | rewrite wrap_land by lia ];
  repeat match goal with
  | |- context [wrap ?a ?b] => closed_num (wrap a b)
  end;
  rewrite ?Z.land_0_r, ?Z.lor_0_l, ?Z.lor_0_r.

Lemma GT_of_marked v :
  Z.testbit (wrap 64 v) 32 = true ->
  spec_GT (wrap 64 v) = negb (Z.testbit (wrap 64 v) 63).
Proof.
  intros M. rewrite spec_GT_bits by (apply wrap_range; lia).
  rewrite (testbit_true_nonzero _ _ M). apply andb_true_r.
Qed.

Lemma SetCRFieldBit_value_flag bit negate hint w v :
  0 <= bit <= 3 ->
  spec_flag bit (SetCRFieldBit_value bit negate hint w (input_for hint v))
  = xorb v negate.
Proof.
  intros Hb.
  destruct (bit_range_cases bit Hb) as [-> | [-> | [-> | ->]]];
    unfold spec_flag; unfold_bits; cbn [Z.eqb Pos.eqb].
  - unfold spec_SO, SetCRFieldBit_value, input_for; unfold_bits; cbn [Z.eqb Pos.eqb].
    destruct negate, hint, v; cbn [negb Z.b2z]; bits; reflexivity.
  - unfold SetCRFieldBit_value, input_for; unfold_bits; cbn [Z.eqb Pos.eqb].
    destruct negate, hint, v; cbn [negb Z.b2z]; low32; reflexivity.
  - pose proof (SetCRFieldBit_value_bit32 2 negate hint w (input_for hint v)) as M.
    unfold SetCRFieldBit_value in *.
    rewrite (GT_of_marked _ M). clear M.
    unfold input_for; unfold_bits; cbn [Z.eqb Pos.eqb].
    destruct negate, hint, v; cbn [negb Z.b2z]; bits; reflexivity.
  - unfold spec_LT, SetCRFieldBit_value, input_for; unfold_bits; cbn [Z.eqb Pos.eqb].
    destruct negate, hint, v; cbn [negb Z.b2z]; bits; reflexivity.
Qed.

Lemma SetCRFieldBit_literal_value_flag bit w :
  0 <= bit <= 3 -> spec_flag bit (SetCRFieldBit_literal_value bit w) = true.
Proof.
  intros Hb.
  destruct (bit_range_cases bit Hb) as [-> | [-> | [-> | ->]]];
    unfold spec_flag; unfold_bits; cbn [Z.eqb Pos.eqb].
  - unfold spec_SO, SetCRFieldBit_literal_value; unfold_bits; cbn [Z.eqb Pos.eqb].
    bits. bool_cases.
  - unfold SetCRFieldBit_literal_value; unfold_bits; cbn [Z.eqb Pos.eqb].
    low32. reflexivity.
  - pose proof (SetCRFieldBit_literal_value_bit32 2 w) as M.
    unfold SetCRFieldBit_literal_value in *.
    rewrite (GT_of_marked _ M). clear M.
    unfold_bits; cbn [Z.eqb Pos.eqb]. bits. bool_cases.
  - unfold spec_LT, SetCRFieldBit_literal_value; unfold_bits; cbn [Z.eqb Pos.eqb].
    bits. bool_cases.
Qed.

Lemma ClearCRFieldBit_value_flag bit w :
  0 <= bit <= 3 -> spec_flag bit (ClearCRFieldBit_value bit w) = false.
Proof.
  intros Hb.
  destruct (bit_range_cases bit Hb) as [-> | [-> | [-> | ->]]];
    unfold spec_flag; unfold_bits; cbn [Z.eqb Pos.eqb].
  - unfold spec_SO, ClearCRFieldBit_value; unfold_bits; cbn [Z.eqb Pos.eqb].
    bits. bool_cases.
  - unfold spec_EQ, ClearCRFieldBit_value; unfold_bits; cbn [Z.eqb Pos.eqb].
    rewrite wrap_32_64. apply Z.eqb_neq. intros E.
    assert (B : Z.testbit (wrap 32 (Z.lor (fix_gt w) (wrap 64 1))) 0 = true)
      by (bits; bool_cases).
    rewrite E in B. discriminate.
  - unfold ClearCRFieldBit_value; unfold_bits; cbn [Z.eqb Pos.eqb].
    apply not_GT_of_sign. bits. bool_cases.
  - unfold spec_LT, ClearCRFieldBit_value; unfold_bits; cbn [Z.eqb Pos.eqb].
    bits. bool_cases.
Qed.

(** ** Combining two flag bits *)

Lemma crXXX_combine_gen op negate a b A B j st :
  a <> b ->
  regs st (Scoped a) = Z.b2z A -> regs st (Scoped b) = Z.b2z B ->
  exists st',
    gen_run (JitArm64.crXXX_combine (SUBOP10_of op) negate
               (W (Scoped a)) (W (Scoped b))) j st
      = Some (combine_hint op negate, j, st') /\
    regs st' (Scoped a)
      = input_for (combine_hint op negate) (combined op negate A B) /\
    (forall h, HostReg_eqb (Scoped a) h = false -> regs st' h = regs st h).
Proof.
  intros Hab HA HB.
  destruct op, negate; unfold gen_run; cbn [SUBOP10_of]; jit_cbn; exec_all;
    eexists; (split; [reflexivity|]); cbn [regs];
    (split; [|intros h Hh; now rewrite upd_other by exact Hh]);
    simp_regs; subst; rewrite HA, HB; destruct A, B; reflexivity.
Qed.

Lemma input_for_range hint v : 0 <= input_for hint v < 2 ^ 64.
Proof. destruct hint, v; vm_compute; split; congruence. Qed.

(** The general path of [crXXX]: the destination flag ends up as the
    combined boolean, negated when [negate_result] says so. *)
Lemma crXXX_with_runs op inst negate j st :
  SUBOP10 inst = SUBOP10_of op ->
  exists st',
    state_after (JitArm64.crXXX_with inst negate) j st = Some st' /\
    CR_bit st' (CRBD inst)
      = xorb (combined op negate (CR_bit st (CRBA inst)) (CR_bit st (CRBB inst)))
             negate.
Proof.
  intros Hop. unfold JitArm64.crXXX_with. rewrite Hop.
  set (d := gpr_scoped j).
  (* WA *)
  rewrite (state_after_bind _ _ _ _ _ _ _ (gen_run_GetScopedReg j st)).
  fold d. cbn [EncodeRegTo64].
  set (j1 := with_scoped j (Datatypes.S d) (fpr_scoped j)).
  (* the inner block *)
  destruct (GetCRFieldBit_gen (Z.shiftr (CRBA inst) 2) (3 - Z.land (CRBA inst) 3)
              d (with_scoped j1 (Datatypes.S (Datatypes.S d)) (fpr_scoped j1)) st
              (land3_range _)) as (st1 & G1 & VA & F1).
  destruct (GetCRFieldBit_gen (Z.shiftr (CRBB inst) 2) (3 - Z.land (CRBB inst) 3)
              (Datatypes.S d)
              (with_scoped j1 (Datatypes.S (Datatypes.S d)) (fpr_scoped j1)) st1
              (land3_range _)) as (st2 & G2 & VB & F2).
  assert (VA2 : regs st2 (Scoped d) = Z.b2z (CR_bit st (CRBA inst))).
  { rewrite F2 by (cbn [HostReg_eqb]; apply Nat.eqb_neq; lia). exact VA. }
  assert (VB2 : regs st2 (Scoped (Datatypes.S d)) = Z.b2z (CR_bit st (CRBB inst))).
  { rewrite VB. unfold CR_bit, gpr_CR, rd. cbn [host_of].
    now rewrite F1 by reflexivity. }
  destruct (crXXX_combine_gen op negate d (Datatypes.S d) _ _
              (with_scoped j1 (Datatypes.S (Datatypes.S d)) (fpr_scoped j1)) st2
              ltac:(lia) VA2 VB2) as (st3 & G3 & VC & F3).
  assert (Gblock :
    gen_run (scope (
      WB <- gpr_GetScopedReg ;;
      let XB := EncodeRegTo64 WB in
      JitArm64.GetCRFieldBit (Z.shiftr (CRBA inst) 2) (3 - Z.land (CRBA inst) 3)
        (X (Scoped d)) ;;
      JitArm64.GetCRFieldBit (Z.shiftr (CRBB inst) 2) (3 - Z.land (CRBB inst) 3) XB ;;
      JitArm64.crXXX_combine (SUBOP10_of op) negate (W (Scoped d)) WB)) j1 st
    = Some (combine_hint op negate,
            with_scoped (with_scoped j1 (Datatypes.S (Datatypes.S d)) (fpr_scoped j1))
                        (gpr_scoped j1) (fpr_scoped j1), st3)).
  { apply gen_run_scope.
    rewrite (gen_run_bind _ _ _ _ _ _ _ (gen_run_GetScopedReg j1 st)).
    cbn [EncodeRegTo64]. change (gpr_scoped j1) with (Datatypes.S d).
    rewrite (gen_run_bind _ _ _ _ _ _ _ G1).
    rewrite (gen_run_bind _ _ _ _ _ _ _ G2).
    exact G3. }
  rewrite (state_after_bind _ _ _ _ _ _ _ Gblock).
  (* the store *)
  set (j3 := with_scoped _ (gpr_scoped j1) (fpr_scoped j1)).
  destruct (SetCRFieldBit_runs (Z.shiftr (CRBD inst) 2) (3 - Z.land (CRBD inst) 3)
              (X (Scoped d)) negate (combine_hint op negate) j3 st3)
    as (x & st' & E & V & _ & Hx & _).
  exists st'. split; [exact E|].
  unfold CR_bit at 1. rewrite V.
  rewrite (Hx d eq_refl) by (subst j3 j1; cbn [gpr_scoped with_scoped]; lia).
  assert (X3 : rd 64 st3 (X (Scoped d))
               = input_for (combine_hint op negate)
                   (combined op negate (CR_bit st (CRBA inst)) (CR_bit st (CRBB inst)))).
  { unfold rd. cbn [host_of]. rewrite VC.
    apply wrap_small, input_for_range. }
  rewrite X3. apply SetCRFieldBit_value_flag, land3_range.
Qed.

(** ** The FPSCR summary *)

Lemma tst_NEQ w r : cond_holds CC_NEQ (ANDS_flags w r) = negb (r =? 0).
Proof. reflexivity. Qed.

Lemma wrap_if_bit w (b : bool) :
  0 < w -> wrap w (if b then 1 else 0) = Z.b2z b.
Proof. intros. rewrite <- (wrap_b2z w b) by lia. destruct b; reflexivity. Qed.

Lemma land_wrap_l w a b : 0 <= w -> Z.land (wrap w a) (wrap w b) = wrap w (Z.land a (wrap w b)).
Proof. intros. rewrite wrap_land, wrap_wrap by lia. reflexivity. Qed.

Lemma UpdateFPExceptionSummary_runs k j st :
  k <> gpr_scoped j ->
  exists st',
    gen_run (JitArm64.UpdateFPExceptionSummary (W (Scoped k))) j st
      = Some (tt, with_scoped j (gpr_scoped j) (fpr_scoped j), st') /\
    regs st' (Scoped k)
      = UpdateFPExceptionSummary_value (rd 32 st (W (Scoped k))) /\
    (forall h, HostReg_eqb (Scoped k) h = false ->
               HostReg_eqb (Scoped (gpr_scoped j)) h = false ->
               regs st' h = regs st h) /\
    mem st' = mem st /\ events st' = events st.
Proof.
  intros Hk. unfold gen_run. jit_cbn. exec_all.
  eexists. split; [reflexivity|]. cbn [regs mem events rd host_of].
  split; [|split; [|split; reflexivity]].
  - simp_regs. subst. unfold UpdateFPExceptionSummary_value.
    rewrite !tst_NEQ, !wrap_wrap, !wrap_if_bit by lia.
    rewrite ?wrap_b2z by lia.
    change (wrap 32 FPSCR_VX_ANY) with FPSCR_VX_ANY.
    change (wrap 32 FPSCR_ANY_E) with FPSCR_ANY_E.
    set (w := wrap 32 (regs st (Scoped k))).
    rewrite (Z.land_comm FPSCR_VX_ANY w).
    set (w1 := wrap 32 (bfi w _ _ 1)).
    assert (E : wrap 32 (Z.land w1 FPSCR_ANY_E) = Z.land w1 FPSCR_ANY_E).
    { rewrite wrap_land by lia. unfold w1 at 1. rewrite wrap_wrap. reflexivity. }
    rewrite E. rewrite (Z.land_comm (Z.land w1 FPSCR_ANY_E)). reflexivity.
  - intros h H1 H2. now rewrite !upd_other by assumption.
Qed.

(** ** Running a generator piece by piece *)

Lemma gen_run_emit i j st :
  exec None [i] st = Fallthrough (step i st) ->
  gen_run (emit i) j st = Some (tt, j, step i st).
Proof. unfold gen_run, emit. intros ->. reflexivity. Qed.

Lemma UpdateFPExceptionSummary_gen k j st :
  k <> gpr_scoped j ->
  gen_run (JitArm64.UpdateFPExceptionSummary (W (Scoped k))) j st
  = Some (tt, with_scoped j (gpr_scoped j) (fpr_scoped j),
          final_state (JitArm64.UpdateFPExceptionSummary (W (Scoped k))) j st).
Proof.
  intros Hk. destruct (UpdateFPExceptionSummary_runs k j st Hk) as (st' & G & _).
  unfold final_state. rewrite G. reflexivity.
Qed.

Ltac run_emit := erewrite gen_run_bind; [| apply gen_run_emit; reflexivity].
Ltac run_tmp := erewrite gen_run_bind; [| apply gen_run_GetScopedReg].
Ltac eval_state :=
  cbn [step opwidth Is64Bit wr rd host_of op2val load store
       EncodeRegTo64 EncodeRegTo32];
  flat_state; simp_regs.

Lemma land_pow2_testbit a k :
  0 <= k -> (Z.land a (2 ^ k) =? 0) = negb (Z.testbit a k).
Proof.
  intros Hk.
  assert (E : Z.land a (2 ^ k) = if Z.testbit a k then 2 ^ k else 0).
  { apply Z.bits_inj'. intros i Hi. rewrite Z.land_spec, Z.pow2_bits_eqb by lia.
    destruct (Z.eqb_spec k i) as [<-|N].
    - destruct (Z.testbit a k); [now rewrite Z.pow2_bits_eqb, Z.eqb_refl by lia|].
      now rewrite Z.testbit_0_l.
    - rewrite andb_false_r.
      destruct (Z.testbit a k); [|now rewrite Z.testbit_0_l].
      rewrite Z.pow2_bits_eqb by lia. symmetry. now apply Z.eqb_neq. }
  rewrite E. destruct (Z.testbit a k); [|reflexivity].
  apply Z.eqb_neq. assert (0 < 2 ^ k) by (apply Z.pow_pos_nonneg; lia). lia.
Qed.
(* ===================================================================== *)
(** * Reading a flag                                                     *)
(* ===================================================================== *)

(** C4.  For every packed word [w] held in the register of a condition field,
    [GetCRFieldBit] emits a single [UBFX] of bit 59 (SO) or bit 62 (LT), a
    32-bit compare of the low half with zero followed by [CSET EQ] (EQ), or a
    64-bit compare with zero followed by [CSET GT] (GT), and leaves in [out]
    exactly the flag as the data model defines it.  [JumpIfCRFieldBit] emits
    one test-bit branch, one compare-and-branch on the low half, or a compare
    with zero and a conditional branch, and the branch is taken exactly when
    the flag equals [jump_if_set]. *)
Theorem flag_tests_read_the_packed_word :
  forall (field : Z) (h : HostReg) (jump_if_set : bool) (j : Jit) (st : Host),
    let CR := gpr_CR field in
    let WCR := EncodeRegTo32 CR in
    let out := X h in
    let w := rd 64 st CR in
    let f := fixups j in
    (emitted (JitArm64.GetCRFieldBit field PowerPC.CR_SO_BIT out) j
       = Some [UBFX out CR 59 1] /\
     emitted (JitArm64.GetCRFieldBit field PowerPC.CR_LT_BIT out) j
       = Some [UBFX out CR 62 1] /\
     emitted (JitArm64.GetCRFieldBit field PowerPC.CR_EQ_BIT out) j
       = Some [CMP WCR WZR; CSET out CC_EQ] /\
     emitted (JitArm64.GetCRFieldBit field PowerPC.CR_GT_BIT out) j
       = Some [CMP CR ZR; CSET out CC_GT]) /\
    (reg_after (JitArm64.GetCRFieldBit field PowerPC.CR_SO_BIT out) j st out
       = Some (Z.b2z (Z.testbit w 59)) /\
     reg_after (JitArm64.GetCRFieldBit field PowerPC.CR_LT_BIT out) j st out
       = Some (Z.b2z (Z.testbit w 62)) /\
     reg_after (JitArm64.GetCRFieldBit field PowerPC.CR_EQ_BIT out) j st out
       = Some (Z.b2z (wrap 32 w =? 0)) /\
     reg_after (JitArm64.GetCRFieldBit field PowerPC.CR_GT_BIT out) j st out
       = Some (Z.b2z (0 <? signed 64 w))) /\
    (emitted (JitArm64.JumpIfCRFieldBit field PowerPC.CR_SO_BIT jump_if_set) j
       = Some [if jump_if_set then BrTBNZ CR 59 f else BrTBZ CR 59 f] /\
     emitted (JitArm64.JumpIfCRFieldBit field PowerPC.CR_LT_BIT jump_if_set) j
       = Some [if jump_if_set then BrTBNZ CR 62 f else BrTBZ CR 62 f] /\
     emitted (JitArm64.JumpIfCRFieldBit field PowerPC.CR_EQ_BIT jump_if_set) j
       = Some [if jump_if_set then BrCBZ WCR f else BrCBNZ WCR f] /\
     emitted (JitArm64.JumpIfCRFieldBit field PowerPC.CR_GT_BIT jump_if_set) j
       = Some [CMP CR (Imm 0); BrCond (if jump_if_set then CC_GT else CC_LE) f]) /\
    (jump_taken (JitArm64.JumpIfCRFieldBit field PowerPC.CR_SO_BIT jump_if_set) j st
       = Some (Bool.eqb (Z.testbit w 59) jump_if_set) /\
     jump_taken (JitArm64.JumpIfCRFieldBit field PowerPC.CR_LT_BIT jump_if_set) j st
       = Some (Bool.eqb (Z.testbit w 62) jump_if_set) /\
     jump_taken (JitArm64.JumpIfCRFieldBit field PowerPC.CR_EQ_BIT jump_if_set) j st
       = Some (Bool.eqb (wrap 32 w =? 0) jump_if_set) /\
     jump_taken (JitArm64.JumpIfCRFieldBit field PowerPC.CR_GT_BIT jump_if_set) j st
       = Some (Bool.eqb (0 <? signed 64 w) jump_if_set)).
Proof.
  intros field h jis j st CR WCR out w f.
  assert (EmSO : emitted (JitArm64.GetCRFieldBit field PowerPC.CR_SO_BIT out) j
                 = Some [UBFX out CR 59 1]) by reflexivity.
  assert (EmLT : emitted (JitArm64.GetCRFieldBit field PowerPC.CR_LT_BIT out) j
                 = Some [UBFX out CR 62 1]) by reflexivity.
  assert (EmEQ : emitted (JitArm64.GetCRFieldBit field PowerPC.CR_EQ_BIT out) j
                 = Some [CMP WCR WZR; CSET out CC_EQ]) by reflexivity.
  assert (EmGT : emitted (JitArm64.GetCRFieldBit field PowerPC.CR_GT_BIT out) j
                 = Some [CMP CR ZR; CSET out CC_GT]) by reflexivity.
  assert (JmSO : emitted (JitArm64.JumpIfCRFieldBit field PowerPC.CR_SO_BIT jis) j
                 = Some [if jis then BrTBNZ CR 59 f else BrTBZ CR 59 f])
    by (destruct jis; reflexivity).
  assert (JmLT : emitted (JitArm64.JumpIfCRFieldBit field PowerPC.CR_LT_BIT jis) j
                 = Some [if jis then BrTBNZ CR 62 f else BrTBZ CR 62 f])
    by (destruct jis; reflexivity).
  assert (JmEQ : emitted (JitArm64.JumpIfCRFieldBit field PowerPC.CR_EQ_BIT jis) j
                 = Some [if jis then BrCBZ WCR f else BrCBNZ WCR f])
    by (destruct jis; reflexivity).
  assert (JmGT : emitted (JitArm64.JumpIfCRFieldBit field PowerPC.CR_GT_BIT jis) j
                 = Some [CMP CR (Imm 0); BrCond (if jis then CC_GT else CC_LE) f])
    by reflexivity.
  split; [auto|]. split; [|split; [auto|]].
  - (* the value left in [out] *)
    observe. rewrite EmSO, EmLT, EmEQ, EmGT. subst CR WCR out w. host_cbn.
    rewrite !upd_same, !wrap_wrap, !ubfx_1, !wrap_b2z by lia.
    rewrite cmp0_EQ_32, cmp0_GT, wrap_32_64.
    repeat split; f_equal.
    + rewrite wrap_small; [reflexivity|].
      destruct (wrap 32 (regs st (CRh field)) =? 0); lia.
    + rewrite wrap_small; [reflexivity|].
      destruct (spec_GT (wrap 64 (regs st (CRh field)))); lia.
  - (* the branch *)
    observe. rewrite JmSO, JmLT, JmEQ, JmGT. subst CR WCR out w. host_cbn.
    change (wrap 64 0) with 0.
    assert (G : cond_holds (if jis then CC_GT else CC_LE)
                  (SUBS_flags 64 (wrap 64 (regs st (CRh field))) 0)
                = Bool.eqb (spec_GT (wrap 64 (regs st (CRh field)))) jis).
    { destruct jis; [rewrite cmp0_GT | rewrite cmp0_LE];
        destruct (spec_GT _); reflexivity. }
    rewrite G. rewrite wrap_32_64. unfold spec_GT.
    repeat split;
      destruct jis; host_cbn;
      repeat match goal with
      | |- context [if ?b then _ else _] => destruct b
      end; reflexivity.
Qed.

(* ===================================================================== *)
(** * Writing a flag                                                     *)
(* ===================================================================== *)

(** C1.  A write of a flag other than GT never turns GT from false to true.
    For [SetCRFieldBit] with an input register, for its literal overload and
    for [ClearCRFieldBit], if the field's word reads GT as false before the
    emitted code runs, it reads GT as false afterwards.  The two set forms
    begin with the guard sequence of [FixGTBeforeSettingCRFieldBit], which
    replaces a zero word by the sign bit alone and leaves any other word
    as it is; [ClearCRFieldBit] begins with it when it clears EQ, the one
    clear that sets a bit.  In particular, from the packed word 0, setting SO
    leaves GT false and SO true. *)
Theorem writes_other_than_GT_keep_GT_false :
  forall (field bit : Z) (in_ : ARM64Reg) (negate hint : bool)
         (j : Jit) (st : Host),
    bit <> PowerPC.CR_GT_BIT ->
    spec_GT (rd 64 st (gpr_CR field)) = false ->
    let CR := gpr_CR field in
    (* GT stays false *)
    (exists st',
        state_after (JitArm64.SetCRFieldBit field bit in_ negate hint) j st
          = Some st' /\ spec_GT (rd 64 st' CR) = false) /\
    (exists st',
        state_after (JitArm64.SetCRFieldBit_literal field bit) j st = Some st' /\
        spec_GT (rd 64 st' CR) = false) /\
    (exists st',
        state_after (JitArm64.ClearCRFieldBit field bit) j st = Some st' /\
        spec_GT (rd 64 st' CR) = false) /\
    (* the guard comes first *)
    (exists guard,
        emitted (JitArm64.FixGTBeforeSettingCRFieldBit CR) j = Some guard /\
        reg_after (JitArm64.FixGTBeforeSettingCRFieldBit CR) j st CR
          = Some (if rd 64 st CR =? 0 then 2 ^ 63 else rd 64 st CR) /\
        (exists rest,
            emitted (JitArm64.SetCRFieldBit field bit in_ negate hint) j
              = Some (guard ++ rest)) /\
        (exists rest,
            emitted (JitArm64.SetCRFieldBit_literal field bit) j
              = Some (guard ++ rest)) /\
        (exists rest,
            emitted (JitArm64.ClearCRFieldBit field PowerPC.CR_EQ_BIT) j
              = Some (guard ++ rest))) /\
    (* the regression case: word 0, set SO *)
    (rd 64 st CR = 0 ->
     exists st',
       state_after (JitArm64.SetCRFieldBit_literal field PowerPC.CR_SO_BIT) j st
         = Some st' /\
       spec_GT (rd 64 st' CR) = false /\ spec_SO (rd 64 st' CR) = true).
Proof.
  intros field bit in_ negate hint j st NG G CR.
  pose proof (rd_range st (gpr_CR field)) as R.
  split; [|split; [|split; [|split]]].
  - destruct (SetCRFieldBit_runs field bit in_ negate hint j st)
      as (x & st' & E & V & _).
    exists st'. split; [exact E|]. subst CR. rewrite V.
    now apply SetCRFieldBit_value_keeps_GT_false.
  - destruct (SetCRFieldBit_literal_runs field bit j st) as (st' & E & V & _).
    exists st'. split; [exact E|]. subst CR. rewrite V.
    now apply SetCRFieldBit_literal_value_keeps_GT_false.
  - destruct (ClearCRFieldBit_runs field bit j st) as (st' & E & V & _).
    exists st'. split; [exact E|]. subst CR. rewrite V.
    now apply ClearCRFieldBit_value_keeps_GT_false.
  - eexists. split; [reflexivity|]. split; [|split; [|split]].
    + subst CR. observe. jit_cbn. exec_all. cbn [rd host_of regs]. simp_regs.
      subst. rewrite fix_gt_csel.
      rewrite wrap_small by (apply fix_gt_range, wrap_range; lia).
      unfold fix_gt. destruct (wrap 64 (regs st (CRh field)) =? 0); reflexivity.
    + destruct (Z.eqb_spec bit PowerPC.CR_GT_BIT) as [|N]; [contradiction|].
      unfold JitArm64.SetCRFieldBit, emitted, bind, when.
      apply Z.eqb_neq in N. rewrite N. cbn [negb].
      match goal with
      | |- context [match ?m j with _ => _ end] =>
          change (match m j with Some (_, c, _) => Some c | None => None end)
            with (emitted m j)
      end.
      destruct (bit_cases bit) as [-> | [-> | [-> | [-> | (H0 & H1 & H2 & H3)]]]];
        unfold_bits; rewrite ?H0, ?H1, ?H2, ?H3;
        destruct negate, hint; eexists; reflexivity.
    + destruct (bit_cases bit) as [-> | [-> | [-> | [-> | (H0 & H1 & H2 & H3)]]]];
        try (now elim NG);
        unfold JitArm64.SetCRFieldBit_literal; unfold_bits;
        rewrite ?H0, ?H1, ?H2, ?H3; eexists; reflexivity.
    + eexists; reflexivity.
  - intros W0.
    destruct (SetCRFieldBit_literal_runs field PowerPC.CR_SO_BIT j st)
      as (st' & E & V & _).
    exists st'. split; [exact E|]. subst CR. rewrite V, W0. split; reflexivity.
Qed.

Lemma writes_other_than_GT_keep_GT_false_witness :
  PowerPC.CR_SO_BIT <> PowerPC.CR_GT_BIT /\
  spec_GT (rd 64 (sample_host 0) (gpr_CR 0)) = false /\
  exists st',
    state_after (JitArm64.SetCRFieldBit_literal 0 PowerPC.CR_SO_BIT)
      sample_jit (sample_host 0) = Some st' /\
    spec_GT (rd 64 st' (gpr_CR 0)) = false.
Proof.
  assert (N : PowerPC.CR_SO_BIT <> PowerPC.CR_GT_BIT) by discriminate.
  assert (G : spec_GT (rd 64 (sample_host 0) (gpr_CR 0)) = false) by reflexivity.
  split; [exact N|]. split; [exact G|].
  exact (proj1 (proj2 (writes_other_than_GT_keep_GT_false
                  0 PowerPC.CR_SO_BIT (X (Scoped 0)) false false
                  sample_jit (sample_host 0) N G))).
Defined.

(** C8, as the code has it.  After either form of [SetCRFieldBit] the
    field's word has bit 32 set.  [ClearCRFieldBit] does not set bit 32: it
    leaves that bit as it found it. *)
Theorem set_forms_mark_bit_32 :
  forall (field bit : Z) (in_ : ARM64Reg) (negate hint : bool)
         (j : Jit) (st : Host),
    let CR := gpr_CR field in
    (exists st',
        state_after (JitArm64.SetCRFieldBit field bit in_ negate hint) j st
          = Some st' /\ Z.testbit (rd 64 st' CR) 32 = true) /\
    (exists st',
        state_after (JitArm64.SetCRFieldBit_literal field bit) j st = Some st' /\
        Z.testbit (rd 64 st' CR) 32 = true) /\
    (exists st',
        state_after (JitArm64.ClearCRFieldBit field bit) j st = Some st' /\
        Z.testbit (rd 64 st' CR) 32 = Z.testbit (rd 64 st CR) 32).
Proof.
  intros field bit in_ negate hint j st CR. subst CR.
  split; [|split].
  - destruct (SetCRFieldBit_runs field bit in_ negate hint j st)
      as (x & st' & E & V & _).
    exists st'. split; [exact E|]. rewrite V. apply SetCRFieldBit_value_bit32.
  - destruct (SetCRFieldBit_literal_runs field bit j st) as (st' & E & V & _).
    exists st'. split; [exact E|]. rewrite V.
    apply SetCRFieldBit_literal_value_bit32.
  - destruct (ClearCRFieldBit_runs field bit j st) as (st' & E & V & _).
    exists st'. split; [exact E|]. rewrite V. apply ClearCRFieldBit_value_bit32.
Qed.

(** C8 as stated fails for [ClearCRFieldBit]: clearing SO in the word 0
    leaves the word 0, whose bit 32 is clear. *)
Lemma clear_leaves_bit_32_clear :
  exists st',
    state_after (JitArm64.ClearCRFieldBit 0 PowerPC.CR_SO_BIT)
      sample_jit (sample_host 0) = Some st' /\
    rd 64 st' (gpr_CR 0) = 0 /\
    Z.testbit (rd 64 st' (gpr_CR 0)) 32 = false.
Proof.
  eexists. split; [reflexivity|]. split; reflexivity.
Qed.

(* ===================================================================== *)
(** * The condition-register logical instructions                        *)
(* ===================================================================== *)

(** The path of [crXXX] for identical source bits that passes the one flag
    through, negated or not. *)
Lemma crXXX_same_index_runs inst negate j st :
  exists st',
    state_after
      (WA <- gpr_GetScopedReg ;;
       let XA := EncodeRegTo64 WA in
       JitArm64.GetCRFieldBit (Z.shiftr (CRBA inst) 2) (3 - Z.land (CRBA inst) 3) XA ;;
       JitArm64.SetCRFieldBit (Z.shiftr (CRBD inst) 2) (3 - Z.land (CRBD inst) 3) XA
         negate false) j st = Some st' /\
    CR_bit st' (CRBD inst) = xorb (CR_bit st (CRBA inst)) negate.
Proof.
  set (d := gpr_scoped j).
  rewrite (state_after_bind _ _ _ _ _ _ _ (gen_run_GetScopedReg j st)).
  fold d. cbn [EncodeRegTo64].
  set (j1 := with_scoped j (Datatypes.S d) (fpr_scoped j)).
  destruct (GetCRFieldBit_gen (Z.shiftr (CRBA inst) 2) (3 - Z.land (CRBA inst) 3)
              d j1 st (land3_range _)) as (st1 & G1 & VA & F1).
  rewrite (state_after_bind _ _ _ _ _ _ _ G1).
  destruct (SetCRFieldBit_runs (Z.shiftr (CRBD inst) 2) (3 - Z.land (CRBD inst) 3)
              (X (Scoped d)) negate false j1 st1)
    as (x & st' & E & V & _ & Hx & _).
  exists st'. split; [exact E|].
  unfold CR_bit at 1. rewrite V.
  rewrite (Hx d eq_refl) by (subst j1; cbn [gpr_scoped with_scoped]; lia).
  assert (X1 : rd 64 st1 (X (Scoped d)) = input_for false (CR_bit st (CRBA inst))).
  { unfold rd. cbn [host_of]. rewrite VA. apply wrap_b2z. lia. }
  rewrite X1. apply SetCRFieldBit_value_flag, land3_range.
Qed.

(** C5.  For each of the eight instructions and every state, the flag that
    [crXXX] leaves in the destination bit is the architected function of the
    two source flags.  When the two source bit indices are the same, the
    emitted code is that of a one-operand form: [ClearCRFieldBit] for crandc
    and crxor, the literal [SetCRFieldBit] for creqv and crorc, and a single
    [GetCRFieldBit] of A stored unnegated for crand and cror, negated for
    crnor and crnand. *)
Theorem crXXX_matches_truth_tables :
  forall (op : CROp) (inst : UGeckoInstruction) (j : Jit) (st : Host),
    SUBOP10 inst = SUBOP10_of op ->
    bJITSystemRegistersOff j = false ->
    let fa := Z.shiftr (CRBA inst) 2 in
    let ba := 3 - Z.land (CRBA inst) 3 in
    let fd := Z.shiftr (CRBD inst) 2 in
    let bd := 3 - Z.land (CRBD inst) 3 in
    let pass negate :=
      WA <- gpr_GetScopedReg ;;
      JitArm64.GetCRFieldBit fa ba (EncodeRegTo64 WA) ;;
      JitArm64.SetCRFieldBit fd bd (EncodeRegTo64 WA) negate false in
    (exists st',
        state_after (JitArm64.crXXX inst) j st = Some st' /\
        CR_bit st' (CRBD inst)
          = spec_cr_truth op (CR_bit st (CRBA inst)) (CR_bit st (CRBB inst))) /\
    (CRBA inst = CRBB inst ->
     emitted (JitArm64.crXXX inst) j =
     emitted (match op with
              | crandc | crxor => JitArm64.ClearCRFieldBit fd bd
              | creqv | crorc => JitArm64.SetCRFieldBit_literal fd bd
              | crand | cror => pass false
              | crnor | crnand => pass true
              end) j).
Proof.
  intros op inst j st Hop Hoff fa ba fd bd pass.
  split.
  - unfold JitArm64.crXXX.
    rewrite state_after_JITDISABLE by exact Hoff.
    rewrite state_after_scope. rewrite Hop.
    destruct (Z.eqb_spec (CRBA inst) (CRBB inst)) as [Same|Diff].
    + (* identical source bits *)
      rewrite <- Same.
      destruct op; cbn [SUBOP10_of Z.eqb Pos.eqb orb andb].
      * destruct (crXXX_same_index_runs inst false j st) as (st' & E & V).
        exists st'. split; [exact E|]. rewrite V.
        cbn [spec_cr_truth]. now destruct (CR_bit st (CRBA inst)).
      * destruct (crXXX_same_index_runs inst false j st) as (st' & E & V).
        exists st'. split; [exact E|]. rewrite V.
        cbn [spec_cr_truth]. now destruct (CR_bit st (CRBA inst)).
      * destruct (ClearCRFieldBit_runs fd bd j st) as (st' & E & V & _).
        exists st'. split; [exact E|]. unfold CR_bit at 1. fold fd bd. rewrite V.
        rewrite ClearCRFieldBit_value_flag by apply land3_range.
        cbn [spec_cr_truth]. now destruct (CR_bit st (CRBA inst)).
      * destruct (crXXX_same_index_runs inst true j st) as (st' & E & V).
        exists st'. split; [exact E|]. rewrite V.
        cbn [spec_cr_truth]. now destruct (CR_bit st (CRBA inst)).
      * destruct (crXXX_same_index_runs inst true j st) as (st' & E & V).
        exists st'. split; [exact E|]. rewrite V.
        cbn [spec_cr_truth]. now destruct (CR_bit st (CRBA inst)).
      * destruct (ClearCRFieldBit_runs fd bd j st) as (st' & E & V & _).
        exists st'. split; [exact E|]. unfold CR_bit at 1. fold fd bd. rewrite V.
        rewrite ClearCRFieldBit_value_flag by apply land3_range.
        cbn [spec_cr_truth]. now destruct (CR_bit st (CRBA inst)).
      * destruct (SetCRFieldBit_literal_runs fd bd j st) as (st' & E & V & _).
        exists st'. split; [exact E|]. unfold CR_bit at 1. fold fd bd. rewrite V.
        rewrite SetCRFieldBit_literal_value_flag by apply land3_range.
        cbn [spec_cr_truth]. now destruct (CR_bit st (CRBA inst)).
      * destruct (SetCRFieldBit_literal_runs fd bd j st) as (st' & E & V & _).
        exists st'. split; [exact E|]. unfold CR_bit at 1. fold fd bd. rewrite V.
        rewrite SetCRFieldBit_literal_value_flag by apply land3_range.
        cbn [spec_cr_truth]. now destruct (CR_bit st (CRBA inst)).
    + (* distinct source bits *)
      cbn [andb]. unfold JitArm64.crXXX_general.
      match goal with
      | |- context [JitArm64.crXXX_with inst ?n] =>
          destruct (crXXX_with_runs op inst n j st Hop) as (st' & E & V);
          exists st'; split; [exact E|]; rewrite V; rewrite Hop
      end.
      destruct op; cbn [SUBOP10_of Z.eqb Pos.eqb orb andb combined spec_cr_truth];
        repeat match goal with
        | |- context [if ?c then _ else _] => destruct c
        end;
        destruct (CR_bit st (CRBA inst)), (CR_bit st (CRBB inst)); reflexivity.
  - intros Same. unfold JitArm64.crXXX.
    rewrite emitted_JITDISABLE by exact Hoff. rewrite emitted_scope.
    rewrite Hop. apply Z.eqb_eq in Same. rewrite Same.
    destruct op; reflexivity.
Qed.

Lemma crXXX_matches_truth_tables_witness :
  SUBOP10 (cr_inst 193 1 2 3) = SUBOP10_of crxor /\
  bJITSystemRegistersOff sample_jit = false /\
  exists st',
    state_after (JitArm64.crXXX (cr_inst 193 1 2 3)) sample_jit (sample_host 1)
      = Some st' /\
    CR_bit st' 3 = spec_cr_truth crxor (CR_bit (sample_host 1) 1)
                                       (CR_bit (sample_host 1) 2).
Proof.
  assert (Hop : SUBOP10 (cr_inst 193 1 2 3) = SUBOP10_of crxor) by reflexivity.
  assert (Hoff : bJITSystemRegistersOff sample_jit = false) by reflexivity.
  split; [exact Hop|]. split; [exact Hoff|].
  exact (proj1 (crXXX_matches_truth_tables crxor (cr_inst 193 1 2 3)
                  sample_jit (sample_host 1) Hop Hoff)).
Defined.

(** C9.  For creqv the two ways of producing NOT (A XOR B) agree.  With
    [negate_result] set the combining instruction is a 64-bit [EOR] and
    [SetCRFieldBit] negates; with it clear the combining instruction is a
    32-bit [EON] and [SetCRFieldBit] is told that bits 1 to 31 are set.  For
    every destination bit, all source flags and every starting state, both
    leave the destination flag equal to NOT (A XOR B).  [crXXX] takes the
    first form exactly when the destination flag is EQ or GT. *)
Theorem creqv_forms_agree :
  forall (inst : UGeckoInstruction) (j : Jit) (st : Host),
    SUBOP10 inst = SUBOP10_of creqv ->
    let WA := W (Scoped (gpr_scoped j)) in
    let WB := W (Scoped (Datatypes.S (gpr_scoped j))) in
    let bd := 3 - Z.land (CRBD inst) 3 in
    let a := CR_bit st (CRBA inst) in
    let b := CR_bit st (CRBB inst) in
    (* the two combining instructions and their hints *)
    JitArm64.crXXX_combine (SUBOP10 inst) true WA WB j
      = Some (false, [EOR (EncodeRegTo64 WA) (EncodeRegTo64 WA)
                          (Reg (EncodeRegTo64 WB))], j) /\
    JitArm64.crXXX_combine (SUBOP10 inst) false WA WB j
      = Some (true, [EON WA WA (Reg WB)], j) /\
    (* both forms write NOT (a XOR b) *)
    (exists st1 st2,
        state_after (JitArm64.crXXX_with inst true) j st = Some st1 /\
        state_after (JitArm64.crXXX_with inst false) j st = Some st2 /\
        CR_bit st1 (CRBD inst) = negb (xorb a b) /\
        CR_bit st2 (CRBD inst) = negb (xorb a b) /\
        CR_bit st1 (CRBD inst) = CR_bit st2 (CRBD inst)) /\
    (* which one [crXXX] emits *)
    JitArm64.crXXX_general inst
      = JitArm64.crXXX_with inst
          ((bd =? PowerPC.CR_EQ_BIT) || (bd =? PowerPC.CR_GT_BIT)) /\
    (bJITSystemRegistersOff j = false -> CRBA inst <> CRBB inst ->
     emitted (JitArm64.crXXX inst) j = emitted (JitArm64.crXXX_general inst) j).
Proof.
  intros inst j st Hop WA WB bd a b.
  split; [rewrite Hop; reflexivity|].
  split; [rewrite Hop; reflexivity|].
  split; [|split].
  - destruct (crXXX_with_runs creqv inst true j st Hop) as (st1 & E1 & V1).
    destruct (crXXX_with_runs creqv inst false j st Hop) as (st2 & E2 & V2).
    exists st1, st2. fold a b in V1, V2. cbn [combined] in V1, V2.
    assert (F1 : CR_bit st1 (CRBD inst) = negb (xorb a b))
      by (rewrite V1; destruct a, b; reflexivity).
    assert (F2 : CR_bit st2 (CRBD inst) = negb (xorb a b))
      by (rewrite V2; destruct a, b; reflexivity).
    repeat split; try assumption. congruence.
  - unfold JitArm64.crXXX_general. rewrite Hop. reflexivity.
  - intros Hoff Diff. unfold JitArm64.crXXX.
    rewrite emitted_JITDISABLE by exact Hoff. rewrite emitted_scope.
    apply Z.eqb_neq in Diff. rewrite Diff. reflexivity.
Qed.

Lemma creqv_forms_agree_witness :
  SUBOP10 (cr_inst 289 1 2 3) = SUBOP10_of creqv /\
  exists st1 st2,
    state_after (JitArm64.crXXX_with (cr_inst 289 1 2 3) true)
      sample_jit (sample_host 1) = Some st1 /\
    state_after (JitArm64.crXXX_with (cr_inst 289 1 2 3) false)
      sample_jit (sample_host 1) = Some st2 /\
    CR_bit st1 3 = CR_bit st2 3.
Proof.
  assert (Hop : SUBOP10 (cr_inst 289 1 2 3) = SUBOP10_of creqv) by reflexivity.
  split; [exact Hop|].
  destruct (proj1 (proj2 (proj2 (creqv_forms_agree (cr_inst 289 1 2 3)
                                   sample_jit (sample_host 1) Hop))))
    as (st1 & st2 & E1 & E2 & _ & _ & Same).
  exists st1, st2. repeat split; assumption.
Defined.

(* ===================================================================== *)
(** * The FPSCR summary bits                                             *)
(* ===================================================================== *)

Lemma bfi_with_bit v (b : bool) i :
  0 <= i < 32 ->
  wrap 32 (bfi (wrap 32 v) (Z.b2z b) i 1) = with_bit i b (wrap 32 v).
Proof.
  intros Hi. apply Z.bits_inj'. intros n Hn.
  rewrite testbit_wrap, testbit_bfi1 by lia.
  unfold with_bit. destruct b; cbn [Z.b2z].
  - rewrite Z.setbit_eqb, testbit_wrap by lia. change (Z.testbit 1 0) with true.
    rewrite (Z.eqb_sym i n).
    destruct (Z.ltb_spec n 32); destruct (Z.eqb_spec n i); cbn; try reflexivity; lia.
  - rewrite Z.clearbit_eqb, testbit_wrap by lia. change (Z.testbit 0 0) with false.
    rewrite (Z.eqb_sym i n).
    destruct (Z.ltb_spec n 32); destruct (Z.eqb_spec n i); cbn;
      rewrite ?andb_true_r, ?andb_false_r; reflexivity.
Qed.

Lemma with_bit_wrap v b i :
  0 <= i < 32 -> wrap 32 (with_bit i b (wrap 32 v)) = with_bit i b (wrap 32 v).
Proof. intros. rewrite <- bfi_with_bit by lia. apply wrap_wrap. Qed.

Lemma UpdateFPExceptionSummary_value_bits v :
  let w := wrap 32 v in
  let r := UpdateFPExceptionSummary_value w in
  r = with_bit 30 (spec_FEX (with_bit 29 (spec_VX w) w)) (with_bit 29 (spec_VX w) w) /\
  Z.testbit r 29 = spec_VX w /\
  Z.testbit r 30 = spec_FEX (with_bit 29 (spec_VX w) w) /\
  (forall i, 0 <= i -> i <> 29 -> i <> 30 -> Z.testbit r i = Z.testbit w i).
Proof.
  intros w r.
  assert (E : r = with_bit 30 (spec_FEX (with_bit 29 (spec_VX w) w))
                    (with_bit 29 (spec_VX w) w)).
  { subst r w. unfold UpdateFPExceptionSummary_value.
    change (MathUtil.IntLog2 FPSCR_VX) with 29.
    change (MathUtil.IntLog2 FPSCR_FEX) with 30.
    fold (spec_VX (wrap 32 v)). rewrite bfi_with_bit by lia.
    fold (spec_FEX (with_bit 29 (spec_VX (wrap 32 v)) (wrap 32 v))).
    rewrite <- (with_bit_wrap v (spec_VX (wrap 32 v)) 29) at 1 by lia.
    rewrite bfi_with_bit by lia. now rewrite with_bit_wrap by lia. }
  split; [exact E|]. rewrite E. unfold with_bit.
  repeat split.
  - destruct (spec_FEX _), (spec_VX w);
      rewrite ?Z.setbit_eqb, ?Z.clearbit_eqb, ?Z.setbit_eqb, ?Z.clearbit_eqb by lia;
      cbn [Z.eqb Pos.eqb]; bool_cases.
  - destruct (spec_FEX _), (spec_VX w);
      rewrite ?Z.setbit_eqb, ?Z.clearbit_eqb by lia;
      cbn [Z.eqb Pos.eqb]; bool_cases.
  - intros i Hi N29 N30.
    assert (H29 : (29 =? i) = false) by (apply Z.eqb_neq; lia).
    assert (H30 : (30 =? i) = false) by (apply Z.eqb_neq; lia).
    destruct (spec_FEX _), (spec_VX w);
      rewrite ?Z.setbit_eqb, ?Z.clearbit_eqb, ?Z.setbit_eqb, ?Z.clearbit_eqb by lia;
      rewrite ?H29, ?H30; bool_cases.
Qed.

(** C6, as the code has it.  [UpdateFPExceptionSummary] leaves in the FPSCR
    register a function of the word [w] it found there: bit 29 (VX) becomes
    [(w AND FPSCR_VX_ANY) != 0]; bit 30 (FEX) becomes
    [((w1 >> 22) AND (w1 AND FPSCR_ANY_E)) != 0] where [w1] is [w] with the
    new VX already written; no other bit changes, and memory is untouched. *)
Theorem FP_summary_is_recomputed_in_order :
  forall (k : nat) (j : Jit) (st : Host),
    (k < gpr_scoped j)%nat ->
    let fpscr := W (Scoped k) in
    let w := rd 32 st fpscr in
    let w1 := with_bit 29 (spec_VX w) w in
    exists st',
      state_after (JitArm64.UpdateFPExceptionSummary fpscr) j st = Some st' /\
      rd 32 st' fpscr = with_bit 30 (spec_FEX w1) w1 /\
      Z.testbit (rd 32 st' fpscr) 29 = spec_VX w /\
      Z.testbit (rd 32 st' fpscr) 30 = spec_FEX w1 /\
      (forall i, 0 <= i -> i <> 29 -> i <> 30 ->
                 Z.testbit (rd 32 st' fpscr) i = Z.testbit w i) /\
      mem st' = mem st.
Proof.
  intros k j st Hk fpscr w w1. subst fpscr.
  destruct (UpdateFPExceptionSummary_runs k j st ltac:(lia))
    as (st' & G & V & _ & M & _).
  exists st'. split; [rewrite state_after_gen, G; reflexivity|].
  assert (R : rd 32 st' (W (Scoped k)) = UpdateFPExceptionSummary_value w).
  { unfold rd at 1. cbn [host_of]. rewrite V.
    unfold UpdateFPExceptionSummary_value. apply wrap_wrap. }
  rewrite R.
  destruct (UpdateFPExceptionSummary_value_bits (regs st (Scoped k)))
    as (E & B29 & B30 & Other).
  repeat split; assumption.
Qed.

Lemma FP_summary_is_recomputed_in_order_witness :
  (0 < gpr_scoped (with_scoped sample_jit 1 0))%nat /\
  exists st',
    state_after (JitArm64.UpdateFPExceptionSummary (W (Scoped 0)))
      (with_scoped sample_jit 1 0) (sample_host 0x01000080) = Some st' /\
    Z.testbit (rd 32 st' (W (Scoped 0))) 29 = spec_VX 0x01000080.
Proof.
  assert (H : (0 < gpr_scoped (with_scoped sample_jit 1 0))%nat) by (cbn; lia).
  split; [exact H|].
  destruct (FP_summary_is_recomputed_in_order 0 (with_scoped sample_jit 1 0)
              (sample_host 0x01000080) H) as (st' & E & _ & B29 & _).
  exists st'. split; [exact E | exact B29].
Defined.

(** C6 as stated fails when FEX is read as a function of the incoming word:
    with VXSNAN pending, VE enabled and VX still clear (word 0x01000080) the
    code sets FEX, while [((w >> 22) AND (w AND FPSCR_ANY_E)) != 0] on the
    incoming word is false. *)
Lemma FEX_is_not_a_function_of_the_incoming_VX :
  exists st',
    state_after (JitArm64.UpdateFPExceptionSummary (W (Scoped 0)))
      (with_scoped sample_jit 1 0) (sample_host 0x01000080) = Some st' /\
    rd 32 (sample_host 0x01000080) (W (Scoped 0)) = 0x01000080 /\
    rd 32 st' (W (Scoped 0)) = 0x61000080 /\
    Z.testbit (rd 32 st' (W (Scoped 0))) 30 = true /\
    spec_FEX 0x01000080 = false.
Proof.
  eexists. split; [reflexivity|]. repeat split; reflexivity.
Qed.

(** ** mtfsb1x *)

Lemma mtfsb1x_conditions c :
  0 <= c <= 31 ->
  Z.land (Z.shiftr 0x80000000 c) FPSCR_ANY_X <> 0 ->
  let mask := Z.shiftr 0x80000000 c in
  (mask =? FPSCR_FEX) || (mask =? FPSCR_VX) = false /\
  negb (Z.land mask FPSCR_ANY_X =? 0) = true /\
  negb (Z.land mask (Z.lor FPSCR_ANY_X FPSCR_ANY_E) =? 0) = true /\
  (29 <=? c) = false /\
  mask = 2 ^ (31 - c) /\ 31 - c <> 29 /\ 31 - c <> 30 /\ 31 - c <> 31.
Proof.
  intros Hc HX mask. subst mask.
  assert (C : c = 0 \/ c = 1 \/ c = 2 \/ c = 3 \/ c = 4 \/ c = 5 \/ c = 6 \/ c = 7 \/
              c = 8 \/ c = 9 \/ c = 10 \/ c = 11 \/ c = 12 \/ c = 13 \/ c = 14 \/
              c = 15 \/ c = 16 \/ c = 17 \/ c = 18 \/ c = 19 \/ c = 20 \/ c = 21 \/
              c = 22 \/ c = 23 \/ c = 24 \/ c = 25 \/ c = 26 \/ c = 27 \/ c = 28 \/
              c = 29 \/ c = 30 \/ c = 31) by lia.
  repeat (destruct C as [-> | C]); try subst c;
    try (exfalso; apply HX; reflexivity);
    repeat split; (reflexivity || discriminate).
Qed.

(** C10.  When [mtfsb1x] sets an exception bit of [FPSCR_ANY_X] (bit
    [31 - CRBD] of the word), the word it stores back has that bit set, and
    its FX bit (bit 31) is set if the exception bit was clear before and is
    what it was if the exception bit was already set.  The stored word is the
    recomputed summary of [w], with FX ORed in for a new exception and the
    exception bit ORed in. *)
Theorem mtfsb1x_sets_FX_for_a_new_exception :
  forall (inst : UGeckoInstruction) (j : Jit) (st : Host),
    Rc inst = false ->
    bJITSystemRegistersOff j = false ->
    jo_fp_exceptions j = false ->
    0 <= CRBD inst <= 31 ->
    Z.land (Z.shiftr 0x80000000 (CRBD inst)) FPSCR_ANY_X <> 0 ->
    let k := 31 - CRBD inst in
    let w := load 32 st (PPCSTATE_OFF fpscr) in
    exists st',
      state_after (JitArm64.mtfsb1x inst) j st = Some st' /\
      Z.testbit (load 32 st' (PPCSTATE_OFF fpscr)) k = true /\
      Z.testbit (load 32 st' (PPCSTATE_OFF fpscr)) 31
        = (if Z.testbit w k then Z.testbit w 31 else true) /\
      load 32 st' (PPCSTATE_OFF fpscr)
        = UpdateFPExceptionSummary_value
            (Z.lor (if Z.testbit w k then w else Z.lor w (2 ^ 31)) (2 ^ k)).
Proof.
  intros inst j st HRc Hoff Hfp Hc HX k w.
  destruct (mtfsb1x_conditions _ Hc HX)
    as (H1 & H2 & H3 & H4 & Hm & K29 & K30 & K31).
  fold k in Hm, K29, K30, K31.
  unfold JitArm64.mtfsb1x.
  rewrite state_after_JITDISABLE by exact Hoff. rewrite HRc. cbn [FALLBACK_IF].
  rewrite state_after_JITDISABLE by exact Hfp. rewrite state_after_scope.
  rewrite H1, H2, H3, H4. cbn [when].
  set (mask := Z.shiftr 0x80000000 (CRBD inst)) in *.
  set (d := gpr_scoped j).
  erewrite state_after_bind.
  2:{ apply gen_run_scope. run_tmp. fold d. unfold PPC_REG. run_emit. eval_state.
      erewrite gen_run_bind.
      2:{ apply gen_run_scope. run_tmp. cbn [gpr_scoped with_scoped].
          run_emit. eval_state. run_emit. eval_state.
          apply gen_run_emit. reflexivity. }
      eval_state. run_emit. eval_state.
      erewrite gen_run_bind.
      2:{ apply UpdateFPExceptionSummary_gen. cbn [gpr_scoped with_scoped]. lia. }
      apply gen_run_emit. reflexivity. }
  (* the word handed to the summary *)
  fold w. rewrite tst_NEQ.
  assert (Rw : wrap 32 w = w) by (unfold w, load; apply wrap_wrap).
  rewrite !Rw.
  assert (Mk : wrap 32 mask = 2 ^ k).
  { rewrite Hm. apply wrap_small. split; [apply Z.pow_nonneg; lia|].
    apply Z.pow_lt_mono_r; lia. }
  rewrite !Mk, land_pow2_testbit, negb_involutive by lia.
  change (wrap 32 (Z.shiftl 1 31)) with (2 ^ 31).
  set (pre := wrap 32 (Z.lor (wrap 32 (if Z.testbit w k then w
                                       else wrap 32 (Z.lor w (2 ^ 31)))) (2 ^ k))).
  match goal with
  | |- context [final_state ?m ?jj ?ss] =>
      destruct (UpdateFPExceptionSummary_runs d jj ss
                  ltac:(cbn [gpr_scoped with_scoped]; lia))
        as (stU & GU & VU & _ & MU & _);
      unfold final_state; rewrite GU
  end.
  cbn [rd host_of regs] in VU. rewrite !upd_same in VU.
  assert (Rp : wrap 32 pre = pre) by (unfold pre; apply wrap_wrap).
  rewrite Rp in VU.
  eexists. split; [reflexivity|].
  assert (L : load 32 (step (STR IndexType.Unsigned (W (Scoped d)) (X PPC_REGh)
                              (PPCSTATE_OFF fpscr)) stU) (PPCSTATE_OFF fpscr)
              = UpdateFPExceptionSummary_value pre).
  { cbn [step opwidth Is64Bit store]. flat_state. unfold load. cbn [mem].
    unfold mupd. cbn [Offset_eqb PPCField_tag Z.eqb].
    cbn [rd host_of]. rewrite VU. unfold UpdateFPExceptionSummary_value.
    rewrite !wrap_wrap. reflexivity. }
  rewrite L.
  assert (P : pre = Z.lor (if Z.testbit w k then w else Z.lor w (2 ^ 31)) (2 ^ k)).
  { assert (R31 : wrap 32 (2 ^ 31) = 2 ^ 31) by reflexivity.
    assert (Rk : wrap 32 (2 ^ k) = 2 ^ k) by (rewrite <- Mk; apply wrap_wrap).
    assert (Rl : wrap 32 (Z.lor w (2 ^ 31)) = Z.lor w (2 ^ 31))
      by (rewrite wrap_lor, Rw, R31 by lia; reflexivity).
    unfold pre. destruct (Z.testbit w k).
    - rewrite Rw, wrap_lor, Rw, Rk by lia. reflexivity.
    - rewrite wrap_wrap, Rl, wrap_lor, Rl, Rk by lia. reflexivity. }
  destruct (UpdateFPExceptionSummary_value_bits
              (Z.lor (wrap 32 (if Z.testbit w k then w
                               else wrap 32 (Z.lor w (2 ^ 31)))) (2 ^ k)))
    as (_ & _ & _ & Other).
  fold pre in Other.
  split; [|split].
  - rewrite Other by lia. unfold pre. bits.
    rewrite Z.pow2_bits_eqb, Z.eqb_refl by lia.
    rewrite orb_true_r. apply andb_true_iff. split; [|reflexivity].
    apply Z.ltb_lt. lia.
  - rewrite Other by lia. unfold pre.
    rewrite testbit_wrap, Z.lor_spec, testbit_wrap by lia.
    rewrite Z.pow2_bits_eqb by lia.
    assert (N : (k =? 31) = false) by (apply Z.eqb_neq; lia). rewrite N.
    destruct (Z.testbit w k).
    + now rewrite orb_false_r.
    + rewrite testbit_wrap, Z.lor_spec by lia. change (Z.testbit (2 ^ 31) 31) with true.
      now rewrite orb_true_r.
  - now rewrite P.
Qed.

Lemma mtfsb1x_sets_FX_for_a_new_exception_witness :
  Rc (cr_inst 38 0 0 7) = false /\
  bJITSystemRegistersOff sample_jit = false /\
  jo_fp_exceptions sample_jit = false /\
  0 <= CRBD (cr_inst 38 0 0 7) <= 31 /\
  Z.land (Z.shiftr 0x80000000 (CRBD (cr_inst 38 0 0 7))) FPSCR_ANY_X <> 0 /\
  exists st',
    state_after (JitArm64.mtfsb1x (cr_inst 38 0 0 7)) sample_jit (sample_host 0)
      = Some st' /\
    Z.testbit (load 32 st' (PPCSTATE_OFF fpscr)) 24 = true /\
    Z.testbit (load 32 st' (PPCSTATE_OFF fpscr)) 31 = true.
Proof.
  assert (HRc : Rc (cr_inst 38 0 0 7) = false) by reflexivity.
  assert (Hoff : bJITSystemRegistersOff sample_jit = false) by reflexivity.
  assert (Hfp : jo_fp_exceptions sample_jit = false) by reflexivity.
  assert (Hc : 0 <= CRBD (cr_inst 38 0 0 7) <= 31) by (cbn; lia).
  assert (HX : Z.land (Z.shiftr 0x80000000 (CRBD (cr_inst 38 0 0 7))) FPSCR_ANY_X <> 0)
    by (vm_compute; discriminate).
  repeat (split; [assumption|]).
  destruct (mtfsb1x_sets_FX_for_a_new_exception (cr_inst 38 0 0 7) sample_jit
              (sample_host 0) HRc Hoff Hfp Hc HX) as (st' & E & Bk & B31 & _).
  exists st'. repeat split; assumption.
Defined.
Lemma fupd_same k v f : fupd k v f k = v.
Proof. unfold fupd. now rewrite Nat.eqb_refl. Qed.

Lemma fupd_other k k' v f : k <> k' -> fupd k v f k' = f k'.
Proof. unfold fupd. intros H. apply Nat.eqb_neq in H. now rewrite H. Qed.

(** One instruction of straight-line code that may touch the FPU or memory. *)
Ltac exec1f :=
  lazymatch goal with
  | |- context [exec None (?i :: ?rest) ?st] =>
      change (exec None (i :: rest) st)
        with (exec (branch_taken i st) rest (step i st));
      cbn [branch_taken step opwidth Is64Bit wr rd host_of op2val store fwr frd
           EncodeRegToSingle Z.eqb Pos.eqb];
      unfold load;
      flat_state; simp_regs;
      repeat first [ rewrite fupd_same | rewrite fupd_other by congruence ];
      name_new
  end.

(** ** Division by 12 through the reciprocal *)

Lemma shiftr_shiftr_67 x : Z.shiftr (Z.shiftr x 64) 3 = Z.shiftr x 67.
Proof. rewrite Z.shiftr_shiftr by lia. reflexivity. Qed.

Lemma div12_exact a :
  0 <= a < 2 ^ 64 -> Z.shiftr (a * 0xAAAAAAAAAAAAAAAB) 67 = a / 12.
Proof.
  intros Ha. rewrite Z.shiftr_div_pow2 by lia.
  change (2 ^ 64) with 18446744073709551616 in Ha.
  change (2 ^ 67) with 147573952589676412928.
  symmetry. apply Z.div_unique with (r := a * 12297829382473034411 - 147573952589676412928 * (a / 12)).
  - left. pose proof (Z.div_mod a 12 ltac:(lia)) as E.
    pose proof (Z.mod_pos_bound a 12 ltac:(lia)) as B. lia.
  - lia.
Qed.

Lemma mulhi_range a b :
  0 <= a < 2 ^ 64 -> 0 <= b < 2 ^ 64 -> 0 <= Z.shiftr (a * b) 64 < 2 ^ 64.
Proof.
  intros Ha Hb. rewrite Z.shiftr_div_pow2 by lia. split.
  - apply Z.div_pos; nia.
  - apply Z.div_lt_upper_bound; nia.
Qed.

Lemma reciprocal_sequence a :
  0 <= a < 2 ^ 64 ->
  Z.shiftr (wrap 64 (Z.shiftr (a * wrap 64 (wrap 64 (Z.lor 0 (wrap 64 0xAAAAAAAAAAAAAAAA)) + wrap 64 1)) 64)) 3
  = Z.shiftr (a * 0xAAAAAAAAAAAAAAAB) 67.
Proof.
  intros Ha.
  change (wrap 64 (wrap 64 (Z.lor 0 (wrap 64 0xAAAAAAAAAAAAAAAA)) + wrap 64 1))
    with 0xAAAAAAAAAAAAAAAB.
  rewrite wrap_small by (apply mulhi_range; [exact Ha | split; [lia | reflexivity]]).
  apply shiftr_shiftr_67.
Qed.
Lemma mfspr_timebase_div12_runs (r a b : nat) j st :
  r <> a -> r <> b -> a <> b ->
  exists st',
    gen_run (JitArm64.mfspr_timebase_div12 (X (Scoped r)) (X (Scoped a)) (X (Scoped b))) j st
      = Some (tt, j, st') /\
    rd 64 st' (X (Scoped r))
      = wrap 64 (rd 64 st (X (Scoped a))
                 + Z.shiftr (rd 64 st (X (Scoped r)) * 0xAAAAAAAAAAAAAAAB) 67).
Proof.
  intros Hra Hrb Hab.
  unfold gen_run, JitArm64.mfspr_timebase_div12. jit_cbn.
  repeat exec1f. cbn [exec]. eexists. split; [reflexivity|].
  cbn [rd host_of regs]. simp_regs. subst. rewrite !wrap_wrap.
  rewrite reciprocal_sequence by (apply wrap_range; lia).
  reflexivity.
Qed.

Lemma mfspr_timebase_div12_code Xresult XA XB j :
  exists code,
    emitted (JitArm64.mfspr_timebase_div12 Xresult XA XB) j = Some code /\
    forallb (fun i => negb (is_division i)) code = true.
Proof. eexists. split; reflexivity. Qed.

Lemma regs_upd_unscoped h k v f :
  (forall k', h <> Scoped k') -> upd (Scoped k) v f h = f h.
Proof.
  intros N. apply upd_other. destruct h; try reflexivity.
  cbn [HostReg_eqb]. apply Nat.eqb_neq. intros ->. now apply (N k0).
Qed.

Lemma mfspr_timebase_read_runs (g r a b c d : nat) j st :
  g <> r -> g <> a -> g <> b -> r <> a -> r <> b -> a <> b -> c <> d ->
  exists st',
    gen_run (JitArm64.mfspr_timebase_read (W (Scoped g)) (W (Scoped r))
               (W (Scoped a)) (W (Scoped b)) (S c) (S d)) j st
      = Some (tt, j, st') /\
    regs st' (Scoped r) = spec_timebase st /\
    (forall h, (forall k, h <> Scoped k) -> regs st' h = regs st h) /\
    mem st' = mupd (PPCSTATE_OFF_SPR (SPR_TL + 1))
                (wrap 32 (Z.shiftr (spec_timebase st) 32))
                (mupd (PPCSTATE_OFF_SPR SPR_TL) (wrap 32 (spec_timebase st)) (mem st)).
Proof.
  intros Hgr Hga Hgb Hra Hrb Hab Hcd.
  unfold gen_run, JitArm64.mfspr_timebase_read, JitArm64.mfspr_timebase_div12.
  jit_cbn. repeat exec1f. cbn [exec]. eexists. split; [reflexivity|].
  cbn [regs mem]. simp_regs.
  assert (E : v11 = spec_timebase st).
  { subst. rewrite !wrap_wrap.
    rewrite reciprocal_sequence by (apply wrap_range; lia).
    rewrite div12_exact by (apply wrap_range; lia).
    unfold spec_timebase, timebase_elapsed, scaled_downcount, load.
    cbn [Offset_next]. rewrite ?wrap_wrap. reflexivity. }
  rewrite E. split; [reflexivity|]. split.
  - intros h N. now rewrite !regs_upd_unscoped by exact N.
  - unfold spec_timebase. rewrite ?wrap_wrap. reflexivity.
Qed.

Lemma spec_timebase_range st : 0 <= spec_timebase st < 2 ^ 64.
Proof. unfold spec_timebase. apply wrap_range. lia. Qed.

Lemma shiftr_32_range tb : 0 <= tb < 2 ^ 64 -> 0 <= Z.shiftr tb 32 < 2 ^ 32.
Proof.
  intros H. rewrite Z.shiftr_div_pow2 by lia. split.
  - apply Z.div_pos; lia.
  - apply Z.div_lt_upper_bound; lia.
Qed.

Lemma gen_run_get_jit j st : gen_run get_jit j st = Some (j, j, st).
Proof. reflexivity. Qed.

Lemma merges_next_inv j inst :
  merges_next j inst = true ->
  (SPR_index (js_op_1_inst j) = SPR_TL \/ SPR_index (js_op_1_inst j) = SPR_TU) /\
  RD (js_op_1_inst j) <> RD inst.
Proof.
  unfold merges_next. cbv zeta. intros H.
  apply andb_true_iff in H as [_ H]. apply andb_true_iff in H as [H N].
  apply andb_true_iff in H as [_ H]. apply orb_true_iff in H. split.
  - destruct H as [H|H]; apply Z.eqb_eq in H; auto.
  - apply negb_true_iff, Z.eqb_neq in N. exact N.
Qed.

Lemma mfspr_timebase_merge_runs inst (r : nat) j st :
  SPR_index inst = SPR_TL \/ SPR_index inst = SPR_TU ->
  0 <= regs st (Scoped r) < 2 ^ 64 ->
  exists st',
    gen_run (JitArm64.mfspr_timebase_merge (SPR_index inst) (RD inst) (W (Scoped r))) j st
      = Some (tt, (if merges_next j inst
                   then with_js j (js_downcountAmount j + 1) 1 else j), st') /\
    regs st' (GPRh (RD inst)) = timebase_half (SPR_index inst) (regs st (Scoped r)) /\
    (merges_next j inst = true ->
     regs st' (GPRh (RD (js_op_1_inst j)))
       = timebase_half (SPR_index (js_op_1_inst j)) (regs st (Scoped r))) /\
    (forall g, g <> RD inst ->
               (merges_next j inst = true -> g <> RD (js_op_1_inst j)) ->
               regs st' (GPRh g) = regs st (GPRh g)) /\
    mem st' = mem st.
Proof.
  intros HI HR. unfold JitArm64.mfspr_timebase_merge.
  erewrite gen_run_bind by apply gen_run_get_jit. cbv zeta.
  change (CanMergeNextInstructions j 1 && _) with (merges_next j inst).
  change (Z.lor (Z.shiftl (SPRU (js_op_1_inst j)) 5) (Z.land (SPRL (js_op_1_inst j)) 31))
    with (SPR_index (js_op_1_inst j)).
  assert (TLU : (SPR_TL =? SPR_TU) = false) by reflexivity.
  assert (TUL : (SPR_TU =? SPR_TL) = false) by reflexivity.
  destruct (merges_next j inst) eqn:M.
  - destruct (merges_next_inv j inst M) as [HN ND].
    destruct HI as [HI|HI], HN as [HN|HN]; rewrite HI, HN;
      rewrite ?Z.eqb_refl, ?TLU, ?TUL;
      unfold gen_run; jit_cbn; repeat exec1f; cbn [exec];
      (eexists; split; [reflexivity|]); cbn [regs mem]; unfold timebase_half;
      rewrite ?Z.eqb_refl, ?TLU, ?TUL; simp_regs.
    all: subst; rewrite ?(wrap_small 64 (regs st (Scoped r))) by exact HR;
      rewrite ?(wrap_small 64 (Z.shiftr _ 32))
        by (pose proof (shiftr_32_range _ HR); lia);
      repeat split; try reflexivity;
      intros g G1 G2; specialize (G2 eq_refl);
      rewrite !upd_other by (cbn [HostReg_eqb]; apply Z.eqb_neq; congruence);
      reflexivity.
  - destruct HI as [HI|HI]; rewrite HI;
      rewrite ?Z.eqb_refl, ?TLU, ?TUL;
      unfold gen_run; jit_cbn; repeat exec1f; cbn [exec];
      (eexists; split; [reflexivity|]); cbn [regs mem]; unfold timebase_half;
      rewrite ?Z.eqb_refl, ?TLU, ?TUL; simp_regs.
    all: subst; rewrite ?(wrap_small 64 (regs st (Scoped r))) by exact HR;
      rewrite ?(wrap_small 64 (Z.shiftr _ 32))
        by (pose proof (shiftr_32_range _ HR); lia);
      repeat split; try reflexivity; try discriminate;
      intros g G1 G2;
      rewrite !upd_other by (cbn [HostReg_eqb]; apply Z.eqb_neq; congruence);
      reflexivity.
Qed.

Lemma gen_run_fpr_GetScopedReg j st :
  gen_run fpr_GetScopedReg j st
  = Some (S (fpr_scoped j),
          with_scoped j (gpr_scoped j) (Datatypes.S (fpr_scoped j)), st).
Proof. reflexivity. Qed.

Lemma gen_run_JITDISABLE setting body j st :
  setting j = false ->
  gen_run (JITDISABLE setting body) j st = gen_run body j st.
Proof.
  intros H. unfold gen_run, JITDISABLE, FALLBACK_IF, bind, get_jit.
  rewrite H. destruct (body j) as [[[a c] j']|]; [|reflexivity].
  cbn [app]. reflexivity.
Qed.

(** The whole fast path: what [mfspr] leaves behind for [SPR_TL] and
    [SPR_TU]. *)
Lemma mfspr_timebase_runs inst j st :
  bJITSystemRegistersOff j = false ->
  SPR_index inst = SPR_TL \/ SPR_index inst = SPR_TU ->
  exists j' st',
    gen_run (JitArm64.mfspr inst) j st = Some (tt, j', st') /\
    js_skipInstructions j'
      = (if merges_next j inst then 1 else js_skipInstructions j) /\
    js_downcountAmount j'
      = (if merges_next j inst then js_downcountAmount j + 1
         else js_downcountAmount j) /\
    regs st' (GPRh (RD inst)) = timebase_half (SPR_index inst) (spec_timebase st) /\
    (merges_next j inst = true ->
     regs st' (GPRh (RD (js_op_1_inst j)))
       = timebase_half (SPR_index (js_op_1_inst j)) (spec_timebase st)) /\
    (forall g, g <> RD inst ->
               (merges_next j inst = true -> g <> RD (js_op_1_inst j)) ->
               regs st' (GPRh g) = regs st (GPRh g)) /\
    load 32 st' (PPCSTATE_OFF_SPR SPR_TL) = wrap 32 (spec_timebase st) /\
    load 32 st' (PPCSTATE_OFF_SPR SPR_TU) = Z.shiftr (spec_timebase st) 32.
Proof.
  intros Off HI. unfold JitArm64.mfspr.
  rewrite gen_run_JITDISABLE by exact Off. cbv zeta.
  change (Z.lor (Z.shiftl (SPRU inst) 5) (Z.land (SPRL inst) 31)) with (SPR_index inst).
  replace ((SPR_index inst =? SPR_TL) || (SPR_index inst =? SPR_TU)) with true
    by (destruct HI as [-> | ->]; reflexivity).
  set (g := gpr_scoped j). set (c := fpr_scoped j).
  set (J := with_scoped j (4 + g) (2 + c)).
  destruct (mfspr_timebase_read_runs g (1 + g) (2 + g) (3 + g) c (1 + c) J st)
    as (st1 & G1 & R1 & U1 & M1); try lia.
  assert (HR : 0 <= regs st1 (Scoped (1 + g)) < 2 ^ 64)
    by (rewrite R1; apply spec_timebase_range).
  destruct (mfspr_timebase_merge_runs inst (1 + g) J st1 HI HR)
    as (st2 & G2 & D2 & N2 & U2 & M2).
  change (merges_next J inst) with (merges_next j inst) in *.
  change (js_op_1_inst J) with (js_op_1_inst j) in *.
  eexists. exists st2. split.
  - erewrite gen_run_scope; [reflexivity|].
    unfold JitArm64.mfspr_timebase.
    do 4 run_tmp. do 2 (erewrite gen_run_bind; [| apply gen_run_fpr_GetScopedReg]).
    cbn [gpr_scoped fpr_scoped with_scoped].
    erewrite gen_run_bind by exact G1. exact G2.
  - rewrite R1 in D2, N2. repeat split.
    + destruct (merges_next j inst); reflexivity.
    + destruct (merges_next j inst); reflexivity.
    + exact D2.
    + exact N2.
    + intros r G N. rewrite (U2 r G N). apply U1. discriminate.
    + unfold load. rewrite M2, M1. unfold mupd. cbn [Offset_eqb PPCField_tag Z.eqb].
      change (SPR_TL + 1 =? SPR_TL) with false. rewrite Z.eqb_refl.
      now rewrite wrap_wrap.
    + unfold load. rewrite M2, M1. unfold mupd. cbn [Offset_eqb PPCField_tag Z.eqb].
      change (SPR_TL + 1 =? SPR_TU) with true. cbv iota.
      rewrite wrap_wrap. apply wrap_small, shiftr_32_range, spec_timebase_range.
Qed.

(** ** The code of the fast path *)

Lemma emitted_bind {A B} (m : Emit A) (k : A -> Emit B) j a c1 j1 :
  m j = Some (a, c1, j1) ->
  emitted (bind m k) j = option_map (app c1) (emitted (k a) j1).
Proof.
  intros H. unfold emitted, bind. rewrite H.
  destruct (k a j1) as [[[b c2] j2]|]; reflexivity.
Qed.

Lemma mfspr_timebase_merge_code iIndex d Wresult j :
  exists code,
    emitted (JitArm64.mfspr_timebase_merge iIndex d Wresult) j = Some code /\
    forallb (fun i => negb (is_division i)) code = true /\
    filter is_multiply_high code = [].
Proof.
  unfold JitArm64.mfspr_timebase_merge.
  erewrite emitted_bind by reflexivity. cbv zeta.
  destruct (CanMergeNextInstructions j 1 && _);
    [ destruct (iIndex =? SPR_TL); destruct (_ =? SPR_TL)
    | destruct (iIndex =? SPR_TU) ];
    (eexists; split; [reflexivity | split; reflexivity]).
Qed.

Lemma mfspr_timebase_code inst j :
  bJITSystemRegistersOff j = false ->
  SPR_index inst = SPR_TL \/ SPR_index inst = SPR_TU ->
  exists code,
    emitted (JitArm64.mfspr inst) j = Some code /\
    forallb (fun i => negb (is_division i)) code = true /\
    length (filter is_multiply_high code) = 1%nat.
Proof.
  intros Off HI. unfold JitArm64.mfspr.
  rewrite emitted_JITDISABLE by exact Off. rewrite emitted_scope. cbv zeta.
  change (Z.lor (Z.shiftl (SPRU inst) 5) (Z.land (SPRL inst) 31)) with (SPR_index inst).
  replace ((SPR_index inst =? SPR_TL) || (SPR_index inst =? SPR_TU)) with true
    by (destruct HI as [-> | ->]; reflexivity).
  unfold JitArm64.mfspr_timebase.
  do 7 (erewrite emitted_bind by reflexivity).
  match goal with
  | |- context [emitted (JitArm64.mfspr_timebase_merge ?i ?d ?w) ?J] =>
      destruct (mfspr_timebase_merge_code i d w J) as (c & E & D & F); rewrite E
  end.
  cbn [option_map app]. eexists. split; [reflexivity|]. split.
  - cbn [forallb is_division negb andb]. exact D.
  - cbn [filter is_multiply_high]. rewrite F. reflexivity.
Qed.

(** The code of the fast path holds the reciprocal sequence, one
    multiply-high and no division. *)
Lemma mfspr_timebase_code_holds_the_reciprocal inst j :
  bJITSystemRegistersOff j = false ->
  SPR_index inst = SPR_TL \/ SPR_index inst = SPR_TU ->
  exists code,
    emitted (JitArm64.mfspr inst) j = Some code /\
    forallb (fun i => negb (is_division i)) code = true /\
    length (filter is_multiply_high code) = 1%nat /\
    exists pre post Xresult XA XB,
      code = pre
             ++ [ORR XB ZR (LogicalImm 0xAAAAAAAAAAAAAAAA GPRSize.B64);
                 ADD XB XB (Imm 1);
                 UMULH Xresult Xresult XB;
                 ADD Xresult XA (ArithOption Xresult ShiftType.LSR 3)]
             ++ post.
Proof.
  intros Off HI. unfold JitArm64.mfspr.
  rewrite emitted_JITDISABLE by exact Off. rewrite emitted_scope. cbv zeta.
  change (Z.lor (Z.shiftl (SPRU inst) 5) (Z.land (SPRL inst) 31)) with (SPR_index inst).
  replace ((SPR_index inst =? SPR_TL) || (SPR_index inst =? SPR_TU)) with true
    by (destruct HI as [-> | ->]; reflexivity).
  unfold JitArm64.mfspr_timebase.
  do 7 (erewrite emitted_bind by reflexivity).
  match goal with
  | |- context [emitted (JitArm64.mfspr_timebase_merge ?i ?d ?w) ?J] =>
      destruct (mfspr_timebase_merge_code i d w J) as (c & E & D & F); rewrite E
  end.
  cbn [option_map app]. eexists. split; [reflexivity|]. split; [|split].
  - cbn [forallb is_division negb andb]. exact D.
  - cbn [filter is_multiply_high]. rewrite F. reflexivity.
  - match goal with
    | |- exists pre post Xr Xa Xb, ?L = _ =>
        exists (firstn 12 L), (skipn 16 L)
    end.
    cbn [firstn skipn]. do 3 eexists. cbn [app]. reflexivity.
Qed.

(** Every 64-bit value is the elapsed-tick count of some state. *)
Lemma elapsed_reaches_every_value a :
  0 <= a < 2 ^ 64 -> exists st, timebase_elapsed st = a.
Proof.
  intros Ha.
  exists {| regs := fun _ => 0;
            fregs := fun _ => f_of_mem 0;
            nzcv := {| flagN := false; flagZ := false; flagC := false;
                       flagV := false |};
            mem := fun o => match o with
                            | offsetof_Globals global_timer => a
                            | _ => 0
                            end;
            fcvtzs := fun _ => 0;
            globals_addr := 0;
            events := [] |}.
  unfold timebase_elapsed, scaled_downcount, load. cbn [mem fcvtzs].
  change (wrap 64 0) with 0. change (wrap 32 0) with 0.
  change (signed 32 0) with 0. change (wrap 64 (0 - 0)) with 0.
  rewrite Z.add_0_l, Z.sub_0_r, !wrap_wrap. apply wrap_small, Ha.
Qed.

(* ===================================================================== *)
(** * The timebase fast path                                              *)
(* ===================================================================== *)

(** C3. For every unsigned 64-bit value [a] of the elapsed ticks, the
    timebase fast path of [mfspr] divides by 12 exactly.  Every such [a]
    is the elapsed-tick count of some state, and in any state whose elapsed
    ticks are [a] the code [mfspr] emits for [SPR_TL] or [SPR_TU] runs to
    its end and leaves the start value plus the true quotient [a / 12] as
    the counter: in the two timebase registers of the register file and,
    by halves, in the destination.  The code gets there through the
    reciprocal - the high 64 bits of [a] times [0xAAAAAAAAAAAAAAAB],
    shifted right by 3, a shift of 67 in all, which equals [a / 12] - and
    the whole of the emitted code holds that sequence, one multiply-high
    and no division instruction. *)
Theorem timebase_reciprocal_is_division_by_12
    (inst : UGeckoInstruction) (j : Jit) (a : Z) :
  bJITSystemRegistersOff j = false ->
  SPR_index inst = SPR_TL \/ SPR_index inst = SPR_TU ->
  0 <= a < 2 ^ 64 ->
  Z.shiftr (a * 0xAAAAAAAAAAAAAAAB) 67 = a / 12 /\
  (exists st, timebase_elapsed st = a) /\
  forall st, timebase_elapsed st = a ->
    let tb := wrap 64 (load 64 st (offsetof_Globals fake_TB_start_value) + a / 12) in
    exists st' code,
      state_after (JitArm64.mfspr inst) j st = Some st' /\
      load 32 st' (PPCSTATE_OFF_SPR SPR_TL) = wrap 32 tb /\
      load 32 st' (PPCSTATE_OFF_SPR SPR_TU) = Z.shiftr tb 32 /\
      regs st' (GPRh (RD inst)) = timebase_half (SPR_index inst) tb /\
      emitted (JitArm64.mfspr inst) j = Some code /\
      forallb (fun i => negb (is_division i)) code = true /\
      length (filter is_multiply_high code) = 1%nat /\
      exists pre post Xresult XA XB,
        code = pre
               ++ [ORR XB ZR (LogicalImm 0xAAAAAAAAAAAAAAAA GPRSize.B64);
                   ADD XB XB (Imm 1);
                   UMULH Xresult Xresult XB;
                   ADD Xresult XA (ArithOption Xresult ShiftType.LSR 3)]
               ++ post.
Proof.
  intros Off HI Ha. split; [apply div12_exact, Ha|]. split.
  - apply elapsed_reaches_every_value, Ha.
  - intros st Hst tb.
    destruct (mfspr_timebase_runs inst j st Off HI)
      as (j' & st' & G & _ & _ & D & _ & _ & L & U).
    destruct (mfspr_timebase_code_holds_the_reciprocal inst j Off HI)
      as (code & E & ND & Once & Seq).
    assert (T : spec_timebase st = tb)
      by (unfold spec_timebase, tb; now rewrite Hst).
    rewrite T in *.
    exists st', code. split; [rewrite state_after_gen, G; reflexivity|].
    repeat (split; [assumption|]). exact Seq.
Qed.

Lemma timebase_reciprocal_is_division_by_12_witness :
  bJITSystemRegistersOff sample_jit = false /\
  (SPR_index (mftb_inst 3 SPR_TL) = SPR_TL \/ SPR_index (mftb_inst 3 SPR_TL) = SPR_TU) /\
  0 <= 0xFFFFFFFFFFFFFFFF < 2 ^ 64 /\
  timebase_elapsed (sample_host 0xFFFFFFFFFFFFFFFF) = 0xFFFFFFFFFFFFFFFF /\
  exists st',
    state_after (JitArm64.mfspr (mftb_inst 3 SPR_TL)) sample_jit
                (sample_host 0xFFFFFFFFFFFFFFFF) = Some st' /\
    regs st' (GPRh 3)
      = wrap 32 (wrap 64 (0xFFFFFFFFFFFFFFFF + 0xFFFFFFFFFFFFFFFF / 12)).
Proof.
  assert (Off : bJITSystemRegistersOff sample_jit = false) by reflexivity.
  assert (HI : SPR_index (mftb_inst 3 SPR_TL) = SPR_TL \/
               SPR_index (mftb_inst 3 SPR_TL) = SPR_TU) by (left; reflexivity).
  assert (Ha : 0 <= 0xFFFFFFFFFFFFFFFF < 2 ^ 64) by (split; [lia | reflexivity]).
  assert (He : timebase_elapsed (sample_host 0xFFFFFFFFFFFFFFFF) = 0xFFFFFFFFFFFFFFFF)
    by reflexivity.
  split; [exact Off|]. split; [exact HI|]. split; [exact Ha|]. split; [exact He|].
  destruct (proj2 (proj2 (timebase_reciprocal_is_division_by_12
                            (mftb_inst 3 SPR_TL) sample_jit 0xFFFFFFFFFFFFFFFF
                            Off HI Ha))
              (sample_host 0xFFFFFFFFFFFFFFFF) He)
    as (st' & code & E & _ & _ & D & _).
  exists st'. split; [exact E | exact D].
Defined.

(** C7, as the code has it. With the handler enabled and an instruction
    reading [SPR_TL] or [SPR_TU], the fusion fires exactly when merging
    the next instruction is permitted and that instruction is an [mftb]
    (opcode 31, extended opcode 371) reading either half of the counter -
    the same half or the other one - into a different register. The
    counter is computed once in both cases and the first destination
    gets the half its instruction names. When the fusion fires the second
    destination gets the half the second instruction names, of the same
    value, one instruction is marked to be skipped and the downcount
    grows by one; when it does not, no other guest register changes and
    the skip count and downcount stay as they were. *)
Theorem timebase_read_fusion (inst : UGeckoInstruction) (j : Jit) (st : Host) :
  bJITSystemRegistersOff j = false ->
  SPR_index inst = SPR_TL \/ SPR_index inst = SPR_TU ->
  exists j' st' code,
    gen_run (JitArm64.mfspr inst) j st = Some (tt, j', st') /\
    emitted (JitArm64.mfspr inst) j = Some code /\
    length (filter is_multiply_high code) = 1%nat /\
    regs st' (GPRh (RD inst)) = timebase_half (SPR_index inst) (spec_timebase st) /\
    if merges_next j inst then
      js_skipInstructions j' = 1 /\
      js_downcountAmount j' = js_downcountAmount j + 1 /\
      regs st' (GPRh (RD (js_op_1_inst j)))
        = timebase_half (SPR_index (js_op_1_inst j)) (spec_timebase st)
    else
      js_skipInstructions j' = js_skipInstructions j /\
      js_downcountAmount j' = js_downcountAmount j /\
      forall g, g <> RD inst -> regs st' (GPRh g) = regs st (GPRh g).
Proof.
  intros Off HI.
  destruct (mfspr_timebase_runs inst j st Off HI)
    as (j' & st' & G & SK & DC & D & N & U & _).
  destruct (mfspr_timebase_code inst j Off HI) as (code & E & _ & Once).
  exists j', st', code. repeat (split; [assumption|]).
  destruct (merges_next j inst).
  - repeat split; auto.
  - repeat split; auto. intros g Hg. apply U; [exact Hg | discriminate].
Qed.

Lemma timebase_read_fusion_witness :
  bJITSystemRegistersOff (sample_jit_before (mftb_inst 4 SPR_TU)) = false /\
  (SPR_index (mftb_inst 3 SPR_TL) = SPR_TL \/ SPR_index (mftb_inst 3 SPR_TL) = SPR_TU) /\
  exists j' st',
    gen_run (JitArm64.mfspr (mftb_inst 3 SPR_TL))
      (sample_jit_before (mftb_inst 4 SPR_TU)) (sample_host 24) = Some (tt, j', st') /\
    js_skipInstructions j' = 1 /\
    regs st' (GPRh 3) = wrap 32 (spec_timebase (sample_host 24)) /\
    regs st' (GPRh 4) = Z.shiftr (spec_timebase (sample_host 24)) 32.
Proof.
  assert (Off : bJITSystemRegistersOff (sample_jit_before (mftb_inst 4 SPR_TU)) = false)
    by reflexivity.
  assert (HI : SPR_index (mftb_inst 3 SPR_TL) = SPR_TL \/
               SPR_index (mftb_inst 3 SPR_TL) = SPR_TU) by (left; reflexivity).
  split; [exact Off|]. split; [exact HI|].
  destruct (timebase_read_fusion (mftb_inst 3 SPR_TL)
              (sample_jit_before (mftb_inst 4 SPR_TU)) (sample_host 24) Off HI)
    as (j' & st' & code & G & _ & _ & D & M).
  change (merges_next (sample_jit_before (mftb_inst 4 SPR_TU)) (mftb_inst 3 SPR_TL))
    with true in M.
  destruct M as (SK & _ & N).
  exists j', st'. split; [exact G|]. split; [exact SK|]. split; [exact D | exact N].
Defined.

(** C7 as worded does not hold: two reads of the same half, [mftb r3, TBL]
    followed by [mftb r4, TBL], are fused although the second does not read
    the other half. *)
Lemma fusion_fires_for_the_same_half :
  let inst := mftb_inst 3 SPR_TL in
  let j := sample_jit_before (mftb_inst 4 SPR_TL) in
  spec_fusion_condition j inst = false /\
  js_skipInstructions j = 0 /\
  option_map js_skipInstructions (jit_after (JitArm64.mfspr inst) j) = Some 1 /\
  option_map (fun st' => (regs st' (GPRh 3), regs st' (GPRh 4)))
    (state_after (JitArm64.mfspr inst) j (sample_host 24)) = Some (26, 26).
Proof. vm_compute. repeat split; reflexivity. Qed.
(* ===================================================================== *)
(** * The trap instructions                                               *)
(* ===================================================================== *)

(** ** The conditional branches and the targets they are resolved to *)

Lemma exec_jump_targets fs : forall tail st,
  exec None (map JumpTarget fs ++ tail) st = exec None tail st.
Proof. induction fs as [|g fs IH]; intros tail st; [reflexivity | apply IH]. Qed.

Lemma exec_seek_found fs : forall f tail st,
  In f fs -> exec (Some f) (map JumpTarget fs ++ tail) st = exec None tail st.
Proof.
  induction fs as [|g fs IH]; intros f tail st H; [destruct H|].
  cbn [map app exec]. destruct (Nat.eqb f g) eqn:E.
  - apply exec_jump_targets.
  - apply IH. destruct H as [H|H]; [|exact H].
    apply Nat.eqb_neq in E. congruence.
Qed.

Lemma exec_seek_missed fs : forall f tail st,
  ~ In f fs -> exec (Some f) (map JumpTarget fs ++ tail) st = exec (Some f) tail st.
Proof.
  induction fs as [|g fs IH]; intros f tail st H; [reflexivity|].
  cbn [map app exec]. destruct (Nat.eqb f g) eqn:E.
  - apply Nat.eqb_eq in E. exfalso. apply H. left. congruence.
  - apply IH. intros N. apply H. now right.
Qed.

Lemma SetJumpTargets_emits fs j :
  JitArm64.SetJumpTargets fs j = Some (tt, map JumpTarget fs, j).
Proof.
  induction fs as [|g fs IH]; [reflexivity|].
  cbn [JitArm64.SetJumpTargets map]. unfold bind, SetJumpTarget, emit.
  rewrite IH. reflexivity.
Qed.

(** What the loop over [conditions] emits: branches only, to fresh fixups,
    of which one is taken exactly when a selected condition holds. *)
Lemma twx_fixups_runs conds : forall to i j,
  exists fs code j',
    JitArm64.twx_fixups to i conds j = Some (fs, code, j') /\
    js_compilerPC j' = js_compilerPC j /\
    OPTION_CONDITIONAL_CONTINUE j' = OPTION_CONDITIONAL_CONTINUE j /\
    gpr_scoped j' = gpr_scoped j /\
    (fixups j <= fixups j')%nat /\
    (forall f, In f fs -> (fixups j <= f < fixups j')%nat) /\
    (forall f st rest, exec (Some f) (code ++ rest) st = exec (Some f) rest st) /\
    (forall st rest, twx_condition to i conds (nzcv st) = false ->
                     exec None (code ++ rest) st = exec None rest st) /\
    (forall st rest, twx_condition to i conds (nzcv st) = true ->
                     exists f, In f fs /\
                               exec None (code ++ rest) st = exec (Some f) rest st).
Proof.
  induction conds as [|c conds IH]; intros to i j.
  - exists [], [], j. cbn [JitArm64.twx_fixups twx_condition].
    repeat split; try reflexivity; try lia; try discriminate;
      match goal with H : In _ [] |- _ => destruct H end.
  - cbn [JitArm64.twx_fixups twx_condition].
    destruct (negb (Z.land to (Z.shiftl 1 i) =? 0)).
    + destruct (IH to (i + 1) (with_fixups j (Datatypes.S (fixups j))))
        as (fs & code & j' & E & PC & CC & GS & LE & IN & SK & NO & YES).
      cbn [fixups with_fixups js_compilerPC OPTION_CONDITIONAL_CONTINUE gpr_scoped]
        in PC, CC, GS, LE, IN.
      exists (fixups j :: fs), (BrCond c (fixups j) :: code), j'.
      split.
      { unfold bind, B, new_fixup, ret. rewrite E. cbn [app].
        now rewrite app_nil_r. }
      split; [exact PC|]. split; [exact CC|]. split; [exact GS|].
      split; [lia|]. split; [|split; [|split]].
      * intros f H. destruct H as [<-|H]; [lia | apply IN in H; lia].
      * intros f st rest. cbn [app exec]. apply SK.
      * intros st rest H. cbn [app exec branch_taken step].
        cbn [andb] in H. apply orb_false_iff in H as [H1 H2]. rewrite H1.
        now apply NO.
      * intros st rest H. cbn [app exec branch_taken step]. cbn [andb] in H.
        destruct (cond_holds c (nzcv st)).
        -- exists (fixups j). split; [now left | apply SK].
        -- cbn [orb] in H. destruct (YES st rest H) as (f & F & X).
           exists f. split; [now right | exact X].
    + destruct (IH to (i + 1) j)
        as (fs & code & j' & E & PC & CC & GS & LE & IN & SK & NO & YES).
      exists fs, code, j'. cbn [andb orb]. repeat split; try assumption.
      * now apply IN.
      * now apply IN.
Qed.

Lemma emit_if (b : bool) (x y : insn) :
  (if b then emit x else emit y) = emit (if b then x else y).
Proof. now destruct b. Qed.

Lemma eqb_succ_r n : Nat.eqb n (Datatypes.S n) = false.
Proof. apply Nat.eqb_neq. lia. Qed.

Lemma exec_far_jump f rest st :
  exec None (BrAlways f :: SwitchToFarCode :: JumpTarget f :: rest) st
  = exec None rest st.
Proof. cbn [exec branch_taken step]. now rewrite Nat.eqb_refl. Qed.

(** ** What the code of [twx] does, for every instruction and state *)

Lemma twx_runs inst j st :
  bJITSystemRegistersOff j = false ->
  exists out,
    run (JitArm64.twx inst) j st = Some out /\
    if twx_condition (TO inst) 0 JitArm64.conditions (twx_flags inst st) then
      exists st',
        out = ExceptionExit (js_compilerPC j) st' /\
        load 32 st' (PPCSTATE_OFF Exceptions)
          = Z.lor (load 32 st (PPCSTATE_OFF Exceptions)) EXCEPTION_PROGRAM /\
        load 32 st' (PPCSTATE_OFF_SPR SPR_SRR1) = ProgramExceptionCause_Trap /\
        events st' = events st ++ [EvGprFlush FlushMode.MaintainState;
                                   EvFprFlush FlushMode.MaintainState]
    else if OPTION_CONDITIONAL_CONTINUE j then
      out = Fallthrough (set_nzcv st (twx_flags inst st))
    else
      exists st',
        out = BlockExit (js_compilerPC j + 4) st' /\
        mem st' = mem st /\
        events st' = events st ++ [EvGprFlush FlushMode.All;
                                   EvFprFlush FlushMode.All].
Proof.
  intros Off. unfold run, JitArm64.twx.
  rewrite emitted_JITDISABLE by exact Off. rewrite emitted_scope. cbv zeta.
  erewrite emitted_bind by reflexivity.
  rewrite emit_if. erewrite emitted_bind by reflexivity.
  match goal with
  | |- context [JitArm64.twx_fixups ?to ?i ?cs] =>
      match goal with
      | |- context [emitted _ ?J] =>
          destruct (twx_fixups_runs cs to i J)
            as (fs & code & j' & E & PC & CC & GS & LE & IN & SK & NO & YES)
      end
  end.
  erewrite emitted_bind by exact E.
  erewrite emitted_bind by reflexivity.
  erewrite emitted_bind by apply SetJumpTargets_emits.
  do 14 (erewrite emitted_bind by reflexivity).
  cbn [fixups with_fixups js_compilerPC OPTION_CONDITIONAL_CONTINUE gpr_scoped
       with_scoped] in *.
  rewrite PC, CC. set (d := fixups j').
  assert (Hd : ~ In d fs) by (intros H; apply IN in H; lia).
  set (cmp := if OPCD inst =? 3 then _ else _).
  assert (Hcmp : forall rest, exec None (cmp :: rest) st
                              = exec None rest (set_nzcv st (twx_flags inst st))).
  { intros rest. unfold cmp, twx_flags. destruct (OPCD inst =? 3); reflexivity. }
  destruct (twx_condition (TO inst) 0 JitArm64.conditions (twx_flags inst st)) eqn:C.
  - (* a selected condition holds: through its fixup into the far code *)
    destruct (OPTION_CONDITIONAL_CONTINUE j); unfold when, emitted; cbn [negb];
      jit_cbn; cbn [option_map app]; rewrite Hcmp.
    all: eexists; split; [reflexivity|].
    all: match goal with
         | |- context [exec None (_ ++ ?rest) ?s] =>
             destruct (YES s rest C) as (f & F & X); rewrite X
         end.
    all: cbn [exec]; rewrite (exec_seek_found fs f _ _ F).
    all: rewrite exec_far_jump.
    all: repeat exec1f; cbn [exec].
    all: eexists; split; [reflexivity|].
    all: cbn [mem events]; unfold mupd;
      cbn [Offset_eqb PPCField_tag Z.eqb Pos.eqb andb]; rewrite ?Z.eqb_refl.
    all: subst; rewrite ?wrap_wrap; rewrite wrap_lor by lia; rewrite ?wrap_wrap;
      split; [reflexivity|]; split; [reflexivity|]; now rewrite <- app_assoc.
  - (* none holds: over the targets to [dont_trap] *)
    destruct (OPTION_CONDITIONAL_CONTINUE j); unfold when, emitted; cbn [negb];
      jit_cbn; cbn [option_map app]; rewrite Hcmp.
    all: eexists; split; [reflexivity|].
    all: match goal with
         | |- context [exec None (_ ++ ?rest) ?s] => rewrite (NO s rest C)
         end.
    all: cbn [exec branch_taken step]; rewrite (exec_seek_missed fs d _ _ Hd).
    all: cbn [exec]; rewrite eqb_succ_r, Nat.eqb_refl.
    + reflexivity.
    + cbn [exec branch_taken step]. eexists. split; [reflexivity|].
      cbn [mem events log set_nzcv]. split; [reflexivity|]. now rewrite <- app_assoc.
Qed.

(** ** The flags of a 32-bit comparison *)

Lemma wrap_sub_32 a b :
  0 <= a < 2 ^ 32 -> 0 <= b < 2 ^ 32 ->
  wrap 32 (a - b) = if b <=? a then a - b else a - b + 2 ^ 32.
Proof.
  intros Ha Hb. unfold wrap. destruct (Z.leb_spec b a).
  - apply Z.mod_small. lia.
  - symmetry. apply Z.mod_unique with (q := -1); lia.
Qed.

Lemma cmp32_flags a b :
  0 <= a < 2 ^ 32 -> 0 <= b < 2 ^ 32 ->
  cond_holds CC_LT (SUBS_flags 32 a b) = (signed 32 a <? signed 32 b) /\
  cond_holds CC_GT (SUBS_flags 32 a b) = (signed 32 b <? signed 32 a) /\
  cond_holds CC_EQ (SUBS_flags 32 a b) = (a =? b).
Proof.
  intros Ha Hb. unfold cond_holds, SUBS_flags; cbn [flagN flagZ flagV].
  rewrite (testbit_msb 31)
    by (try lia; change (31 + 1) with 32; apply wrap_range; lia).
  rewrite wrap_sub_32 by assumption.
  unfold signed. change (32 - 1) with 31.
  change (2 ^ 32) with 4294967296 in *. change (2 ^ 31) with 2147483648 in *.
  repeat split; split_cmp; cbn; try reflexivity; lia.
Qed.

(** The trap exit is taken exactly when a condition selected by TO holds of
    the flags of the comparison. *)
Lemma twx_trap_condition inst j st :
  bJITSystemRegistersOff j = false ->
  twx_traps inst j st
  = Some (twx_condition (TO inst) 0 JitArm64.conditions (twx_flags inst st)).
Proof.
  intros Off. destruct (twx_runs inst j st Off) as (out & R & H).
  unfold twx_traps. rewrite R.
  destruct (twx_condition (TO inst) 0 JitArm64.conditions (twx_flags inst st)).
  - destruct H as (st' & -> & _). reflexivity.
  - destruct (OPTION_CONDITIONAL_CONTINUE j).
    + subst out. reflexivity.
    + destruct H as (st' & -> & _). reflexivity.
Qed.

(** The first three entries of [conditions] are the signed relations and
    equality; the last two test the overflow flag of the subtraction. *)
Lemma twx_condition_meaning to a b :
  0 <= a < 2 ^ 32 -> 0 <= b < 2 ^ 32 ->
  let bit i := negb (Z.land to (Z.shiftl 1 i) =? 0) in
  twx_condition to 0 JitArm64.conditions (SUBS_flags 32 a b)
  = (bit 0 && relation_holds SignedLess a b)
    || ((bit 1 && relation_holds SignedGreater a b)
    || ((bit 2 && relation_holds Equal a b)
    || ((bit 3 && negb (flagV (SUBS_flags 32 a b)))
    || ((bit 4 && flagV (SUBS_flags 32 a b)) || false)))).
Proof.
  intros Ha Hb bit. destruct (cmp32_flags a b Ha Hb) as (LT & GT & EQ).
  unfold JitArm64.conditions. cbn [twx_condition]. rewrite LT, GT, EQ.
  reflexivity.
Qed.

Lemma twi_sign_extends_its_immediate :
  s32 (s16 0x8000) = -32768 /\ s32 (s16 0x7FFF) = 32767 /\
  twx_traps (twi_inst 4 0x8000) sample_jit (host_with_operands 0xFFFF8000 0)
    = Some true /\
  twx_traps (twi_inst 4 0x8000) sample_jit (host_with_operands 0x00008000 0)
    = Some false /\
  twx_traps (twi_inst 4 0x7FFF) sample_jit (host_with_operands 0x00007FFF 0)
    = Some true.
Proof. vm_compute. repeat split; reflexivity. Qed.

(** C2. The trap exit is not decided by the five relations. [tw 8, r3, r4]
    with both operands zero leaves through the trap exit, at the current
    program counter and with the trap cause recorded, although none of
    signed-less, signed-greater, unsigned-less and unsigned-greater holds
    between equal operands. Mask bits 3 and 4 test the overflow flag of the
    signed subtraction ([CC_VC], [CC_VS]): whichever relation [sel] assigns
    to the five mask bits, there are operands on which the code with mask 8
    traps though the selected relation fails, and operands on which the code
    with mask 16 does not trap though the selected relation holds. *)
Theorem twx_tests_the_overflow_flag_for_two_mask_bits :
  (exists st',
     run (JitArm64.twx (tw_inst 8)) sample_jit (host_with_operands 0 0)
       = Some (ExceptionExit (js_compilerPC sample_jit) st') /\
     load 32 st' (PPCSTATE_OFF_SPR SPR_SRR1) = ProgramExceptionCause_Trap /\
     load 32 st' (PPCSTATE_OFF Exceptions) = EXCEPTION_PROGRAM) /\
  forallb (fun rel => negb (relation_holds rel 0 0))
    [SignedLess; SignedGreater; UnsignedLess; UnsignedGreater] = true /\
  (forall sel, exists a b,
     twx_traps (tw_inst 8) sample_jit (host_with_operands a b) = Some true /\
     spec_trap sel 8 a b = false) /\
  (forall sel, exists a b,
     twx_traps (tw_inst 16) sample_jit (host_with_operands a b) = Some false /\
     spec_trap sel 16 a b = true) /\
  (forall st,
     twx_traps (tw_inst 8) sample_jit st
       = Some (negb (flagV (twx_flags (tw_inst 8) st)))) /\
  (forall st,
     twx_traps (tw_inst 16) sample_jit st
       = Some (flagV (twx_flags (tw_inst 16) st))).
Proof.
  split; [|split; [|split; [|split; [|split]]]].
  - destruct (twx_runs (tw_inst 8) sample_jit (host_with_operands 0 0) eq_refl)
      as (out & R & H).
    change (twx_condition (TO (tw_inst 8)) 0 JitArm64.conditions
              (twx_flags (tw_inst 8) (host_with_operands 0 0))) with true in H.
    destruct H as (st' & -> & EX & SRR & _).
    exists st'. repeat split; assumption.
  - reflexivity.
  - intros sel. unfold spec_trap. cbn [existsb]. 
    change (Z.testbit 8 0) with false. change (Z.testbit 8 1) with false.
    change (Z.testbit 8 2) with false. change (Z.testbit 8 3) with true.
    change (Z.testbit 8 4) with false. cbn [andb orb].
    destruct (sel 3).
    1, 2, 4, 5: exists 0, 0; split; [vm_compute; reflexivity | reflexivity].
    exists 0, 1. split; [vm_compute; reflexivity | reflexivity].
  - intros sel. unfold spec_trap. cbn [existsb].
    change (Z.testbit 16 0) with false. change (Z.testbit 16 1) with false.
    change (Z.testbit 16 2) with false. change (Z.testbit 16 3) with false.
    change (Z.testbit 16 4) with true. cbn [andb orb].
    destruct (sel 4).
    + exists 0, 1. split; [vm_compute; reflexivity | reflexivity].
    + exists 1, 0. split; [vm_compute; reflexivity | reflexivity].
    + exists 0, 0. split; [vm_compute; reflexivity | reflexivity].
    + exists 0, 1. split; [vm_compute; reflexivity | reflexivity].
    + exists 1, 0. split; [vm_compute; reflexivity | reflexivity].
  - intros st. rewrite twx_trap_condition by reflexivity.
    unfold JitArm64.conditions. cbn [twx_condition].
    change (TO (tw_inst 8)) with 8.
    cbn. now rewrite orb_false_r.
  - intros st. rewrite twx_trap_condition by reflexivity.
    unfold JitArm64.conditions. cbn [twx_condition].
    change (TO (tw_inst 16)) with 16.
    cbn. now rewrite orb_false_r.
Qed.
(* ===================================================================== *)
(** * The FPSCR bit instructions                                          *)
(* ===================================================================== *)

Lemma gen_run_FALLBACK_false body j st :
  gen_run (FALLBACK_IF false body) j st = gen_run body j st.
Proof. reflexivity. Qed.

Lemma gen_run_ret {A} (a : A) j st : gen_run (ret a) j st = Some (a, j, st).
Proof. reflexivity. Qed.

Lemma regs_upd_host h k v f :
  (forall n, h <> Scoped n) -> upd (Scoped k) v f h = f h.
Proof. apply regs_upd_unscoped. Qed.

Lemma UpdateFPExceptionSummary_value_wrap w :
  wrap 32 (UpdateFPExceptionSummary_value w) = UpdateFPExceptionSummary_value w.
Proof. unfold UpdateFPExceptionSummary_value. apply wrap_wrap. Qed.

(** The end both instructions share: recompute the summary if the bit
    calls for it, then store the word. *)
Lemma fpscr_store_tail (b : bool) k j st :
  k <> gpr_scoped j ->
  exists j' st',
    gen_run (when b (JitArm64.UpdateFPExceptionSummary (W (Scoped k))) ;;
             STR IndexType.Unsigned (W (Scoped k)) PPC_REG (PPCSTATE_OFF fpscr)) j st
      = Some (tt, j', st') /\
    (forall g f, with_scoped j' g f = with_scoped j g f) /\
    mem st' = mupd (PPCSTATE_OFF fpscr)
                (if b then UpdateFPExceptionSummary_value (rd 32 st (W (Scoped k)))
                 else rd 32 st (W (Scoped k)))
                (mem st) /\
    events st' = events st /\
    (forall h, (forall n, h <> Scoped n) -> regs st' h = regs st h).
Proof.
  intros Hk. destruct b; cbn [when].
  - destruct (UpdateFPExceptionSummary_runs k j st Hk) as (stU & G & V & F & M & E).
    eexists. eexists. split.
    { erewrite gen_run_bind by exact G. apply gen_run_emit. reflexivity. }
    split; [reflexivity|].
    cbn [step opwidth Is64Bit store PPC_REG]. flat_state.
    cbn [rd host_of] in V |- *. rewrite V, M, E. split; [|split; [reflexivity|]].
    + rewrite wrap_wrap, UpdateFPExceptionSummary_value_wrap. reflexivity.
    + intros h N. destruct h; try (apply F; reflexivity).
      exfalso. now apply (N k0).
  - eexists. eexists. split.
    { erewrite gen_run_bind by apply gen_run_ret. apply gen_run_emit. reflexivity. }
    split; [reflexivity|].
    cbn [step opwidth Is64Bit store PPC_REG]. flat_state.
    cbn [rd host_of]. rewrite !wrap_wrap. repeat split; reflexivity.
Qed.

Lemma mupd_same o v m : mupd o v m o = v.
Proof.
  unfold mupd. destruct o as [f|i|g]; cbn [Offset_eqb]; now rewrite Z.eqb_refl.
Qed.

Lemma mupd_other o o' v m : Offset_eqb o o' = false -> mupd o v m o' = m o'.
Proof. unfold mupd. now intros ->. Qed.

Lemma gen_run_when_UpdateRoundingMode (b : bool) j st :
  gen_run (when b JitArm64.UpdateRoundingMode) j st
  = Some (tt, j, if b then log st (EvCall RoundingModeUpdated) else st).
Proof. destruct b; reflexivity. Qed.

Lemma mtfsb0x_runs inst j st :
  Rc inst = false ->
  bJITSystemRegistersOff j = false ->
  let c := CRBD inst in
  let mask := Z.shiftr 0x80000000 c in
  let summary := (mask =? FPSCR_FEX) || (mask =? FPSCR_VX) in
  exists st',
    gen_run (JitArm64.mtfsb0x inst) j st
      = Some (tt, with_scoped j (gpr_scoped j) (fpr_scoped j), st') /\
    load 32 st' (PPCSTATE_OFF fpscr)
      = mtfsb0x_value c (load 32 st (PPCSTATE_OFF fpscr)) /\
    (forall o, Offset_eqb (PPCSTATE_OFF fpscr) o = false -> mem st' o = mem st o) /\
    events st' = events st ++ (if negb summary && (29 <=? c)
                               then [EvCall RoundingModeUpdated] else []) /\
    (forall h, (forall n, h <> Scoped n) -> regs st' h = regs st h).
Proof.
  intros HRc Hoff c mask summary. unfold JitArm64.mtfsb0x.
  rewrite gen_run_JITDISABLE by exact Hoff. rewrite HRc, gen_run_FALLBACK_false.
  cbv zeta. fold c. fold mask. fold summary. unfold mtfsb0x_value. fold mask. fold summary.
  set (d := gpr_scoped j).
  destruct summary.
  - exists st. split; [erewrite gen_run_scope by apply gen_run_ret; reflexivity|].
    cbn [negb andb]. rewrite app_nil_r. repeat split; reflexivity.
  - cbn [negb andb]. cbv zeta.
    set (b := negb (Z.land mask (Z.lor FPSCR_ANY_X FPSCR_ANY_E) =? 0)).
    set (J1 := with_scoped j (Datatypes.S d) (fpr_scoped j)).
    set (st1 := step (AND (W (Scoped d)) (W (Scoped d))
                        (LogicalImm (wrap 32 (Z.lnot mask)) GPRSize.B32))
                  (step (LDR IndexType.Unsigned (W (Scoped d)) PPC_REG
                           (PPCSTATE_OFF fpscr)) st)).
    destruct (fpscr_store_tail b d J1 st1 ltac:(cbn; lia))
      as (j2 & st2 & G & WS & M & E & F).
    exists (if 29 <=? c then log st2 (EvCall RoundingModeUpdated) else st2).
    split.
    { erewrite gen_run_scope.
      2:{ erewrite gen_run_bind.
          2:{ apply gen_run_scope. run_tmp. fold d. fold J1. run_emit. run_emit.
              fold st1. exact G. }
          apply gen_run_when_UpdateRoundingMode. }
      rewrite WS. reflexivity. }
    assert (R1 : rd 32 st1 (W (Scoped d))
                 = wrap 32 (Z.land (load 32 st (PPCSTATE_OFF fpscr))
                                   (wrap 32 (Z.lnot mask)))).
    { unfold st1. eval_state. cbn [rd host_of regs]. simp_regs.
      unfold load. now rewrite wrap_wrap. }
    assert (M1 : mem st1 = mem st) by reflexivity.
    assert (E1 : events st1 = events st) by reflexivity.
    assert (F1 : forall h, (forall n, h <> Scoped n) -> regs st1 h = regs st h).
    { intros h N. unfold st1. eval_state. cbn [regs].
      now rewrite !regs_upd_host by exact N. }
    rewrite R1 in M.
    assert (L : load 32 (if 29 <=? c then log st2 (EvCall RoundingModeUpdated) else st2)
                  (PPCSTATE_OFF fpscr) = wrap 32 (mem st2 (PPCSTATE_OFF fpscr)))
      by (destruct (29 <=? c); reflexivity).
    split; [|split; [|split]].
    + rewrite L, M, mupd_same. destruct b.
      * apply UpdateFPExceptionSummary_value_wrap.
      * apply wrap_wrap.
    + intros o N. transitivity (mem st2 o); [destruct (29 <=? c); reflexivity|].
      rewrite M, mupd_other by exact N. now rewrite M1.
    + destruct (29 <=? c); cbn [events log]; rewrite E, E1;
        [reflexivity | now rewrite app_nil_r].
    + intros h N. transitivity (regs st2 h); [destruct (29 <=? c); reflexivity|].
      rewrite F by exact N. now apply F1.
Qed.

(** The guarded part of [mtfsb1x]: FX is ORed in unless the exception bit
    is already set. *)
Lemma mtfsb1x_marks_FX (b : bool) mask d j st :
  gpr_scoped j = Datatypes.S d ->
  exists j' st',
    gen_run (when b (scope (
               WB <- gpr_GetScopedReg ;;
               TST (W (Scoped d)) (LogicalImm mask GPRSize.B32) ;;
               ORR WB (W (Scoped d)) (LogicalImm (Z.shiftl 1 31) GPRSize.B32) ;;
               CSEL (W (Scoped d)) (W (Scoped d)) WB CC_NEQ))) j st
      = Some (tt, j', st') /\
    (forall g f, with_scoped j' g f = with_scoped j g f) /\
    gpr_scoped j' = gpr_scoped j /\
    rd 32 st' (W (Scoped d))
      = (if b
         then (if negb (Z.land (rd 32 st (W (Scoped d))) (wrap 32 mask) =? 0)
               then rd 32 st (W (Scoped d))
               else wrap 32 (Z.lor (rd 32 st (W (Scoped d)))
                                   (wrap 32 (Z.shiftl 1 31))))
         else rd 32 st (W (Scoped d))) /\
    mem st' = mem st /\ events st' = events st /\
    (forall h, (forall n, h <> Scoped n) -> regs st' h = regs st h).
Proof.
  intros Hd. destruct b; cbn [when].
  - eexists. eexists. split.
    { apply gen_run_scope. run_tmp. rewrite Hd. run_emit. run_emit.
      apply gen_run_emit. reflexivity. }
    split; [reflexivity|]. split; [reflexivity|].
    eval_state. cbn [step opwidth Is64Bit wr rd host_of nzcv regs mem events].
    flat_state. simp_regs. rewrite tst_NEQ.
    split; [|split; [reflexivity|split; [reflexivity|]]].
    + destruct (negb _); now rewrite ?wrap_wrap.
    + intros h N. now rewrite !regs_upd_host by exact N.
  - exists j, st. repeat split; reflexivity.
Qed.

Lemma mtfsb1x_runs inst j st :
  Rc inst = false ->
  bJITSystemRegistersOff j = false ->
  jo_fp_exceptions j = false ->
  let c := CRBD inst in
  let mask := Z.shiftr 0x80000000 c in
  let summary := (mask =? FPSCR_FEX) || (mask =? FPSCR_VX) in
  exists st',
    gen_run (JitArm64.mtfsb1x inst) j st
      = Some (tt, with_scoped j (gpr_scoped j) (fpr_scoped j), st') /\
    load 32 st' (PPCSTATE_OFF fpscr)
      = mtfsb1x_value c (load 32 st (PPCSTATE_OFF fpscr)) /\
    (forall o, Offset_eqb (PPCSTATE_OFF fpscr) o = false -> mem st' o = mem st o) /\
    events st' = events st ++ (if negb summary && (29 <=? c)
                               then [EvCall RoundingModeUpdated] else []) /\
    (forall h, (forall n, h <> Scoped n) -> regs st' h = regs st h).
Proof.
  intros HRc Hoff Hfp c mask summary. unfold JitArm64.mtfsb1x.
  rewrite gen_run_JITDISABLE by exact Hoff. rewrite HRc, gen_run_FALLBACK_false.
  rewrite gen_run_JITDISABLE by exact Hfp.
  cbv zeta. fold c. fold mask. fold summary. unfold mtfsb1x_value. fold mask. fold summary.
  set (d := gpr_scoped j).
  destruct summary.
  - exists st. split; [erewrite gen_run_scope by apply gen_run_ret; reflexivity|].
    cbn [negb andb]. rewrite app_nil_r. repeat split; reflexivity.
  - cbn [negb andb]. cbv zeta.
    set (bX := negb (Z.land mask FPSCR_ANY_X =? 0)).
    set (b := negb (Z.land mask (Z.lor FPSCR_ANY_X FPSCR_ANY_E) =? 0)).
    set (J1 := with_scoped j (Datatypes.S d) (fpr_scoped j)).
    set (stL := step (LDR IndexType.Unsigned (W (Scoped d)) PPC_REG
                        (PPCSTATE_OFF fpscr)) st).
    destruct (mtfsb1x_marks_FX bX mask d J1 stL eq_refl)
      as (jX & stX & GX & WX & SX & RX & MX & EX & FX).
    set (stO := step (ORR (W (Scoped d)) (W (Scoped d))
                        (LogicalImm mask GPRSize.B32)) stX).
    destruct (fpscr_store_tail b d jX stO ltac:(rewrite SX; cbn; lia))
      as (j2 & st2 & G & WS & M & E & F).
    exists (if 29 <=? c then log st2 (EvCall RoundingModeUpdated) else st2).
    split.
    { erewrite gen_run_scope.
      2:{ erewrite gen_run_bind.
          2:{ apply gen_run_scope. run_tmp. fold d. fold J1. run_emit. fold stL.
              erewrite gen_run_bind by exact GX.
              run_emit. fold stO. exact G. }
          apply gen_run_when_UpdateRoundingMode. }
      rewrite WS, WX. reflexivity. }
    assert (RL : rd 32 stL (W (Scoped d)) = load 32 st (PPCSTATE_OFF fpscr)).
    { unfold stL. eval_state. cbn [rd host_of regs]. simp_regs.
      unfold load. now rewrite wrap_wrap. }
    assert (RO : rd 32 stO (W (Scoped d))
                 = wrap 32 (Z.lor (rd 32 stX (W (Scoped d))) (wrap 32 mask))).
    { unfold stO. cbn [step opwidth Is64Bit wr host_of op2val]. flat_state.
      cbn [rd host_of regs]. simp_regs. reflexivity. }
    assert (MO : mem stO = mem st) by (unfold stO; cbn; rewrite MX; reflexivity).
    assert (EO : events stO = events st) by (unfold stO; cbn; rewrite EX; reflexivity).
    assert (FO : forall h, (forall n, h <> Scoped n) -> regs stO h = regs st h).
    { intros h N. unfold stO. cbn [step opwidth Is64Bit wr host_of]. flat_state.
      rewrite regs_upd_host by exact N. rewrite FX by exact N.
      unfold stL. eval_state. cbn [regs]. now rewrite regs_upd_host by exact N. }
    rewrite RO, RX, RL in M.
    assert (L : load 32 (if 29 <=? c then log st2 (EvCall RoundingModeUpdated) else st2)
                  (PPCSTATE_OFF fpscr) = wrap 32 (mem st2 (PPCSTATE_OFF fpscr)))
      by (destruct (29 <=? c); reflexivity).
    split; [|split; [|split]].
    + rewrite L, M, mupd_same. destruct b.
      * apply UpdateFPExceptionSummary_value_wrap.
      * apply wrap_wrap.
    + intros o N. transitivity (mem st2 o); [destruct (29 <=? c); reflexivity|].
      rewrite M, mupd_other by exact N. now rewrite MO.
    + destruct (29 <=? c); cbn [events log]; rewrite E, EO;
        [reflexivity | now rewrite app_nil_r].
    + intros h N. transitivity (regs st2 h); [destruct (29 <=? c); reflexivity|].
      rewrite F by exact N. now apply FO.
Qed.

(** ** The stored word, bit by bit *)

Lemma index_cases c :
  0 <= c <= 31 ->
  c = 0 \/ c = 1 \/ c = 2 \/ c = 3 \/ c = 4 \/ c = 5 \/ c = 6 \/ c = 7 \/
  c = 8 \/ c = 9 \/ c = 10 \/ c = 11 \/ c = 12 \/ c = 13 \/ c = 14 \/ c = 15 \/
  c = 16 \/ c = 17 \/ c = 18 \/ c = 19 \/ c = 20 \/ c = 21 \/ c = 22 \/ c = 23 \/
  c = 24 \/ c = 25 \/ c = 26 \/ c = 27 \/ c = 28 \/ c = 29 \/ c = 30 \/ c = 31.
Proof. lia. Qed.

Ltac each_index C := repeat (destruct C as [-> | C]); try subst.

Lemma shiftr_mask c : 0 <= c <= 31 -> Z.shiftr 0x80000000 c = 2 ^ (31 - c).
Proof. intros H. pose proof (index_cases c H) as C. each_index C; reflexivity. Qed.

Lemma mask_is_summary c :
  0 <= c <= 31 ->
  (2 ^ (31 - c) =? FPSCR_FEX) || (2 ^ (31 - c) =? FPSCR_VX) = (c =? 1) || (c =? 2).
Proof. intros H. pose proof (index_cases c H) as C. each_index C; reflexivity. Qed.

Lemma clear_bit_32 v k :
  0 <= k <= 31 ->
  wrap 32 (Z.land (wrap 32 v) (wrap 32 (Z.lnot (2 ^ k)))) = Z.clearbit (wrap 32 v) k.
Proof.
  intros Hk. apply Z.bits_inj'. intros i Hi.
  rewrite testbit_wrap, Z.land_spec, !testbit_wrap, Z.lnot_spec, Z.pow2_bits_eqb,
    Z.clearbit_eqb, testbit_wrap by lia.
  destruct (Z.ltb_spec i 32); cbn [andb]; [|reflexivity].
  destruct (Z.testbit v i), (Z.eqb_spec k i); reflexivity.
Qed.

Lemma set_bit_32 v k :
  0 <= k <= 31 ->
  wrap 32 (Z.lor (wrap 32 v) (wrap 32 (2 ^ k))) = Z.setbit (wrap 32 v) k.
Proof.
  intros Hk. apply Z.bits_inj'. intros i Hi.
  rewrite testbit_wrap, Z.lor_spec, !testbit_wrap, Z.pow2_bits_eqb,
    Z.setbit_eqb, testbit_wrap by lia.
  destruct (Z.ltb_spec i 32); cbn [andb]; [apply orb_comm|].
  destruct (Z.eqb_spec k i); [lia | reflexivity].
Qed.

Lemma clearbit_range v k : 0 <= k <= 31 -> wrap 32 (Z.clearbit (wrap 32 v) k) = Z.clearbit (wrap 32 v) k.
Proof. intros Hk. rewrite <- clear_bit_32 by exact Hk. apply wrap_wrap. Qed.

Lemma setbit_range v k : 0 <= k <= 31 -> wrap 32 (Z.setbit (wrap 32 v) k) = Z.setbit (wrap 32 v) k.
Proof. intros Hk. rewrite <- set_bit_32 by exact Hk. apply wrap_wrap. Qed.

(** The summary of a word, in the words of the data model. *)
Lemma summary_of v :
  UpdateFPExceptionSummary_value (wrap 32 v)
  = with_bit 30 (spec_FEX (with_bit 29 (spec_VX (wrap 32 v)) (wrap 32 v)))
      (with_bit 29 (spec_VX (wrap 32 v)) (wrap 32 v)).
Proof. apply (UpdateFPExceptionSummary_value_bits v). Qed.

Lemma mtfsb0x_value_bits c v :
  0 <= c <= 31 -> c <> 1 -> c <> 2 ->
  let k := 31 - c in
  let w := wrap 32 v in
  let w0 := Z.clearbit w k in
  let relevant := negb (Z.land (2 ^ k) (Z.lor FPSCR_ANY_X FPSCR_ANY_E) =? 0) in
  mtfsb0x_value c w
  = if relevant
    then with_bit 30 (spec_FEX (with_bit 29 (spec_VX w0) w0)) (with_bit 29 (spec_VX w0) w0)
    else w0.
Proof.
  intros Hc H1 H2 k w w0 relevant. unfold mtfsb0x_value.
  rewrite shiftr_mask, mask_is_summary by exact Hc.
  replace ((c =? 1) || (c =? 2)) with false
    by (symmetry; apply orb_false_iff; split; apply Z.eqb_neq; assumption).
  cbv zeta. fold k. fold relevant. unfold w. rewrite clear_bit_32 by (unfold k; lia).
  fold w. fold w0. destruct relevant; [|reflexivity].
  unfold w0, w. rewrite <- clearbit_range by (unfold k; lia). apply summary_of.
Qed.

Lemma testbit_with_bit i (b : bool) w n :
  0 <= i -> Z.testbit (with_bit i b w) n = if n =? i then b else Z.testbit w n.
Proof.
  intros Hi. unfold with_bit. rewrite (Z.eqb_sym n i).
  destruct b; [rewrite Z.setbit_eqb by lia | rewrite Z.clearbit_eqb by lia];
    destruct (i =? n), (Z.testbit w n); reflexivity.
Qed.

(** The summary touches bits 29 and 30 only. *)
Lemma summary_other_bits v i :
  0 <= i -> i <> 29 -> i <> 30 ->
  Z.testbit (UpdateFPExceptionSummary_value (wrap 32 v)) i = Z.testbit (wrap 32 v) i.
Proof. intros. now apply (UpdateFPExceptionSummary_value_bits v). Qed.

Lemma mtfsb1x_value_bits c v :
  0 <= c <= 31 -> c <> 1 -> c <> 2 ->
  let k := 31 - c in
  let w := wrap 32 v in
  let w1 := if negb (Z.land (2 ^ k) FPSCR_ANY_X =? 0)
            then (if Z.testbit w k then w else Z.setbit w 31) else w in
  let w2 := Z.setbit w1 k in
  mtfsb1x_value c w
  = if negb (Z.land (2 ^ k) (Z.lor FPSCR_ANY_X FPSCR_ANY_E) =? 0)
    then UpdateFPExceptionSummary_value w2 else w2.
Proof.
  intros Hc H1 H2 k w w1 w2. unfold mtfsb1x_value.
  rewrite shiftr_mask, mask_is_summary by exact Hc.
  replace ((c =? 1) || (c =? 2)) with false
    by (symmetry; apply orb_false_iff; split; apply Z.eqb_neq; assumption).
  cbv zeta. fold k.
  assert (Hk : 0 <= k <= 31) by (unfold k; lia).
  assert (Mk : wrap 32 (2 ^ k) = 2 ^ k).
  { apply wrap_small. split; [apply Z.pow_nonneg; lia|].
    apply Z.pow_lt_mono_r; lia. }
  rewrite Mk, land_pow2_testbit, negb_involutive by lia.
  replace (Z.shiftl 1 31) with (2 ^ 31) by reflexivity.
  assert (S31 : wrap 32 (Z.lor w (wrap 32 (2 ^ 31))) = Z.setbit w 31)
    by (apply set_bit_32; lia).
  rewrite S31. fold w1.
  assert (E : wrap 32 (Z.lor w1 (2 ^ k)) = w2).
  { unfold w2. rewrite <- Mk at 1.
    assert (R1 : w1 = wrap 32 w1).
    { unfold w1. destruct (negb _); [destruct (Z.testbit w k)|]; symmetry;
        first [apply wrap_wrap | apply setbit_range; lia]. }
    rewrite R1. apply set_bit_32. lia. }
  rewrite E. reflexivity.
Qed.

Lemma testbit_32_high v i : 32 <= i -> Z.testbit (wrap 32 v) i = false.
Proof.
  intros H. rewrite testbit_wrap by lia.
  destruct (Z.ltb_spec i 32); [lia | reflexivity].
Qed.

(** ** mtfsb0x *)

(** X6. [mtfsb0x] on a bit other than FEX and VX stores the FPSCR word with
    that bit cleared and, when the bit is an exception or enable bit, with VX
    and FEX recomputed from the cleared word.  No other bit of the word, no
    other memory cell and no guest register changes. *)
Theorem mtfsb0x_clears_one_bit (inst : UGeckoInstruction) (j : Jit) (st : Host) :
  Rc inst = false ->
  bJITSystemRegistersOff j = false ->
  0 <= CRBD inst <= 31 -> CRBD inst <> 1 -> CRBD inst <> 2 ->
  let k := 31 - CRBD inst in
  let w := load 32 st (PPCSTATE_OFF fpscr) in
  let w0 := Z.clearbit w k in
  let w1 := with_bit 29 (spec_VX w0) w0 in
  exists st',
    state_after (JitArm64.mtfsb0x inst) j st = Some st' /\
    load 32 st' (PPCSTATE_OFF fpscr)
      = (if Z.land (2 ^ k) (Z.lor FPSCR_ANY_X FPSCR_ANY_E) =? 0
         then w0 else with_bit 30 (spec_FEX w1) w1) /\
    Z.testbit (load 32 st' (PPCSTATE_OFF fpscr)) k = false /\
    (forall i, 0 <= i -> i <> k -> i <> 29 -> i <> 30 ->
               Z.testbit (load 32 st' (PPCSTATE_OFF fpscr)) i = Z.testbit w i) /\
    (forall o, Offset_eqb (PPCSTATE_OFF fpscr) o = false -> mem st' o = mem st o) /\
    (forall h, (forall n, h <> Scoped n) -> regs st' h = regs st h).
Proof.
  intros HRc Hoff Hc H1 H2 k w w0 w1.
  destruct (mtfsb0x_runs inst j st HRc Hoff) as (st' & G & L & M & _ & F).
  exists st'. rewrite state_after_gen, G. split; [reflexivity|].
  assert (Hk : 0 <= k <= 31) by (unfold k; lia).
  assert (K29 : k <> 29) by (unfold k; lia).
  assert (K30 : k <> 30) by (unfold k; lia).
  pose proof (mtfsb0x_value_bits (CRBD inst) (mem st (PPCSTATE_OFF fpscr)) Hc H1 H2) as VB.
  cbv zeta in VB. fold (load 32 st (PPCSTATE_OFF fpscr)) in VB.
  fold w k in VB. fold w0 in VB. fold w1 in VB.
  fold w in L. rewrite VB in L. rewrite L. clear VB L.
  set (r := Z.land (2 ^ k) (Z.lor FPSCR_ANY_X FPSCR_ANY_E) =? 0).
  assert (B : forall i, 0 <= i -> i <> 29 -> i <> 30 ->
              Z.testbit (if negb r then with_bit 30 (spec_FEX w1) w1 else w0) i
              = Z.testbit w0 i).
  { intros i Hi I29 I30. destruct r; cbn [negb]; [reflexivity|].
    unfold w1. rewrite !testbit_with_bit by lia.
    apply Z.eqb_neq in I29, I30. now rewrite I29, I30. }
  split; [destruct r; reflexivity|].
  split; [|split; [|split; assumption]].
  - rewrite B by lia. unfold w0. rewrite Z.clearbit_eqb by lia.
    rewrite Z.eqb_refl. apply andb_false_r.
  - intros i Hi Ik I29 I30. rewrite B by assumption. unfold w0.
    rewrite Z.clearbit_eqb by lia.
    assert (N : (k =? i) = false) by (apply Z.eqb_neq; congruence).
    now rewrite N, andb_true_r.
Qed.

Lemma mtfsb0x_clears_one_bit_witness :
  Rc (fpscr_inst 7) = false /\
  bJITSystemRegistersOff sample_jit = false /\
  0 <= CRBD (fpscr_inst 7) <= 31 /\
  exists st',
    state_after (JitArm64.mtfsb0x (fpscr_inst 7)) sample_jit (sample_host 0x61000080)
      = Some st' /\
    load 32 st' (PPCSTATE_OFF fpscr) = 0x00000080.
Proof.
  assert (HRc : Rc (fpscr_inst 7) = false) by reflexivity.
  assert (Hoff : bJITSystemRegistersOff sample_jit = false) by reflexivity.
  assert (Hc : 0 <= CRBD (fpscr_inst 7) <= 31) by (cbn; lia).
  repeat (split; [assumption|]).
  destruct (mtfsb0x_clears_one_bit (fpscr_inst 7) sample_jit (sample_host 0x61000080)
              HRc Hoff Hc ltac:(discriminate) ltac:(discriminate))
    as (st' & E & L & _).
  exists st'. split; [exact E | exact L].
Defined.

(** ** mtfsb1x outside the exception bits *)

(** X7. [mtfsb1x] on a bit that is neither a summary bit nor an exception
    bit stores the word with that bit set, and FX is not ORed in on the
    side: FX (bit 31 of the word) reads afterwards as it read before,
    unless FX is itself the bit the instruction names (bit index 0), which
    is then set as any named bit is.  For an enable bit VX and FEX are
    recomputed from the new word, for any other bit nothing else
    changes. *)
Theorem mtfsb1x_sets_a_plain_bit (inst : UGeckoInstruction) (j : Jit) (st : Host) :
  Rc inst = false ->
  bJITSystemRegistersOff j = false ->
  jo_fp_exceptions j = false ->
  0 <= CRBD inst <= 31 -> CRBD inst <> 1 -> CRBD inst <> 2 ->
  Z.land (2 ^ (31 - CRBD inst)) FPSCR_ANY_X = 0 ->
  let k := 31 - CRBD inst in
  let w := load 32 st (PPCSTATE_OFF fpscr) in
  let w2 := Z.setbit w k in
  let w3 := with_bit 29 (spec_VX w2) w2 in
  exists st',
    state_after (JitArm64.mtfsb1x inst) j st = Some st' /\
    load 32 st' (PPCSTATE_OFF fpscr)
      = (if Z.land (2 ^ k) FPSCR_ANY_E =? 0
         then w2 else with_bit 30 (spec_FEX w3) w3) /\
    Z.testbit (load 32 st' (PPCSTATE_OFF fpscr)) k = true /\
    Z.testbit (load 32 st' (PPCSTATE_OFF fpscr)) 31
      = (if CRBD inst =? 0 then true else Z.testbit w 31) /\
    (forall i, 0 <= i -> i <> k -> i <> 29 -> i <> 30 ->
               Z.testbit (load 32 st' (PPCSTATE_OFF fpscr)) i = Z.testbit w i) /\
    (forall o, Offset_eqb (PPCSTATE_OFF fpscr) o = false -> mem st' o = mem st o) /\
    (forall h, (forall n, h <> Scoped n) -> regs st' h = regs st h).
Proof.
  intros HRc Hoff Hfp Hc H1 H2 HX k w w2 w3.
  destruct (mtfsb1x_runs inst j st HRc Hoff Hfp) as (st' & G & L & M & _ & F).
  exists st'. rewrite state_after_gen, G. split; [reflexivity|].
  assert (Hk : 0 <= k <= 31) by (unfold k; lia).
  assert (K29 : k <> 29) by (unfold k; lia).
  assert (K30 : k <> 30) by (unfold k; lia).
  pose proof (mtfsb1x_value_bits (CRBD inst) (mem st (PPCSTATE_OFF fpscr)) Hc H1 H2) as VB.
  cbv zeta in VB. fold (load 32 st (PPCSTATE_OFF fpscr)) in VB. fold w k in VB.
  rewrite Z.land_lor_distr_r in VB. fold k in HX. rewrite HX in VB.
  rewrite Z.lor_0_l in VB. change (negb (0 =? 0)) with false in VB.
  cbv iota in VB. fold w2 in VB.
  fold w in L. rewrite VB in L. rewrite L. clear VB L.
  assert (S2 : UpdateFPExceptionSummary_value w2 = with_bit 30 (spec_FEX w3) w3).
  { unfold w3, w2, w, load. rewrite <- (setbit_range _ k) by exact Hk.
    apply summary_of. }
  rewrite S2.
  set (r := Z.land (2 ^ k) FPSCR_ANY_E =? 0).
  assert (B : forall i, 0 <= i -> i <> 29 -> i <> 30 ->
              Z.testbit (if negb r then with_bit 30 (spec_FEX w3) w3 else w2) i
              = Z.testbit w2 i).
  { intros i Hi I29 I30. destruct r; cbn [negb]; [reflexivity|].
    unfold w3. rewrite !testbit_with_bit by lia.
    apply Z.eqb_neq in I29, I30. now rewrite I29, I30. }
  split; [destruct r; reflexivity|].
  split; [|split; [|split; [|split; assumption]]].
  - rewrite B by lia. unfold w2. rewrite Z.setbit_eqb by lia.
    now rewrite Z.eqb_refl.
  - rewrite B by lia. unfold w2. rewrite Z.setbit_eqb by lia.
    destruct (Z.eqb_spec (CRBD inst) 0) as [E0 | N0].
    + replace (k =? 31) with true
        by (symmetry; apply Z.eqb_eq; unfold k; lia).
      reflexivity.
    + replace (k =? 31) with false
        by (symmetry; apply Z.eqb_neq; unfold k; lia).
      reflexivity.
  - intros i Hi Ik I29 I30. rewrite B by assumption. unfold w2.
    rewrite Z.setbit_eqb by lia.
    assert (N : (k =? i) = false) by (apply Z.eqb_neq; congruence).
    now rewrite N.
Qed.

Lemma mtfsb1x_sets_a_plain_bit_witness :
  Rc (fpscr_inst 24) = false /\
  bJITSystemRegistersOff sample_jit = false /\
  jo_fp_exceptions sample_jit = false /\
  0 <= CRBD (fpscr_inst 24) <= 31 /\
  Z.land (2 ^ (31 - CRBD (fpscr_inst 24))) FPSCR_ANY_X = 0 /\
  exists st',
    state_after (JitArm64.mtfsb1x (fpscr_inst 24)) sample_jit (sample_host 0x01000000)
      = Some st' /\
    load 32 st' (PPCSTATE_OFF fpscr) = 0x61000080 /\
    Z.testbit (load 32 st' (PPCSTATE_OFF fpscr)) 31 = false.
Proof.
  assert (HRc : Rc (fpscr_inst 24) = false) by reflexivity.
  assert (Hoff : bJITSystemRegistersOff sample_jit = false) by reflexivity.
  assert (Hfp : jo_fp_exceptions sample_jit = false) by reflexivity.
  assert (Hc : 0 <= CRBD (fpscr_inst 24) <= 31) by (cbn; lia).
  assert (HX : Z.land (2 ^ (31 - CRBD (fpscr_inst 24))) FPSCR_ANY_X = 0) by reflexivity.
  repeat (split; [assumption|]).
  destruct (mtfsb1x_sets_a_plain_bit (fpscr_inst 24) sample_jit (sample_host 0x01000000)
              HRc Hoff Hfp Hc ltac:(discriminate) ltac:(discriminate) HX)
    as (st' & E & L & _ & FX & _).
  exists st'. split; [exact E|]. split; [exact L | exact FX].
Defined.

(** ** The summary bits and the rounding mode *)

Lemma emitted_FALLBACK_false body j :
  emitted (FALLBACK_IF false body) j = emitted body j.
Proof. reflexivity. Qed.

(** X8. FEX and VX cannot be written directly.  For bit index 1 or 2
    [mtfsb0x] emits no instruction, whether floating-point exceptions are
    enabled in the JIT or not, and [mtfsb1x] emits none either: with
    floating-point exceptions disabled it emits nothing, and with them
    enabled it emits only the hand-over to the interpreter that it emits
    for every bit then. *)
Theorem mtfsb_leaves_the_summary_bits_alone
    (inst : UGeckoInstruction) (j : Jit) :
  Rc inst = false ->
  bJITSystemRegistersOff j = false ->
  CRBD inst = 1 \/ CRBD inst = 2 ->
  emitted (JitArm64.mtfsb0x inst) j = Some [] /\
  emitted (JitArm64.mtfsb1x inst) j
    = Some (if jo_fp_exceptions j then [FallBackToInterpreter] else []).
Proof.
  intros HRc Hoff Hc. unfold JitArm64.mtfsb0x, JitArm64.mtfsb1x.
  rewrite !emitted_JITDISABLE by exact Hoff. rewrite HRc, !emitted_FALLBACK_false.
  split.
  - rewrite emitted_scope. cbv zeta. destruct Hc as [-> | ->]; reflexivity.
  - destruct (jo_fp_exceptions j) eqn:Hfp.
    + unfold emitted, JITDISABLE, bind, get_jit. rewrite Hfp. reflexivity.
    + rewrite emitted_JITDISABLE by exact Hfp. rewrite emitted_scope. cbv zeta.
      destruct Hc as [-> | ->]; reflexivity.
Qed.

Lemma mtfsb_leaves_the_summary_bits_alone_witness :
  Rc (fpscr_inst 1) = false /\
  bJITSystemRegistersOff sample_jit_fp_exceptions = false /\
  (CRBD (fpscr_inst 1) = 1 \/ CRBD (fpscr_inst 1) = 2) /\
  emitted (JitArm64.mtfsb0x (fpscr_inst 1)) sample_jit_fp_exceptions = Some [] /\
  emitted (JitArm64.mtfsb1x (fpscr_inst 1)) sample_jit_fp_exceptions
    = Some [FallBackToInterpreter].
Proof.
  assert (HRc : Rc (fpscr_inst 1) = false) by reflexivity.
  assert (Hoff : bJITSystemRegistersOff sample_jit_fp_exceptions = false)
    by reflexivity.
  assert (Hc : CRBD (fpscr_inst 1) = 1 \/ CRBD (fpscr_inst 1) = 2)
    by (left; reflexivity).
  split; [exact HRc|]. split; [exact Hoff|]. split; [exact Hc|].
  exact (mtfsb_leaves_the_summary_bits_alone (fpscr_inst 1)
           sample_jit_fp_exceptions HRc Hoff Hc).
Defined.

(** X9. Both instructions hand the rounding mode to the host exactly when
    the bit they write is one of the last three of the word (NI and RN, bit
    indices 29 to 31): then [RoundingModeUpdated] is called once, otherwise
    no call is made.  [mtfsb0x] does so whether floating-point exceptions
    are enabled in the JIT or not; [mtfsb1x] does so with them disabled,
    and with them enabled makes no call, since all it does then is hand the
    instruction to the interpreter. *)
Theorem mtfsb_reports_rounding_mode_changes
    (inst : UGeckoInstruction) (j : Jit) (st : Host) :
  Rc inst = false ->
  bJITSystemRegistersOff j = false ->
  0 <= CRBD inst <= 31 ->
  let calls := if 29 <=? CRBD inst then [EvCall RoundingModeUpdated] else [] in
  exists st0 st1,
    state_after (JitArm64.mtfsb0x inst) j st = Some st0 /\
    state_after (JitArm64.mtfsb1x inst) j st = Some st1 /\
    events st0 = events st ++ calls /\
    events st1 = events st ++ (if jo_fp_exceptions j then [EvFallback] else calls).
Proof.
  intros HRc Hoff Hc calls.
  assert (S : negb ((CRBD inst =? 1) || (CRBD inst =? 2)) && (29 <=? CRBD inst)
              = (29 <=? CRBD inst)).
  { destruct (Z.leb_spec 29 (CRBD inst)); [|apply andb_false_r].
    rewrite andb_true_r. apply negb_true_iff, orb_false_iff.
    split; apply Z.eqb_neq; lia. }
  destruct (mtfsb0x_runs inst j st HRc Hoff) as (st0 & G0 & _ & _ & E0 & _).
  rewrite shiftr_mask, mask_is_summary, S in E0 by exact Hc.
  destruct (jo_fp_exceptions j) eqn:Hfp.
  - exists st0, (log st EvFallback). rewrite state_after_gen, G0.
    split; [reflexivity|]. split; [|split; [exact E0 | reflexivity]].
    unfold JitArm64.mtfsb1x. rewrite state_after_JITDISABLE by exact Hoff.
    rewrite HRc. unfold state_after, run, emitted, FALLBACK_IF, JITDISABLE,
      bind, get_jit. rewrite Hfp. reflexivity.
  - destruct (mtfsb1x_runs inst j st HRc Hoff Hfp) as (st1 & G1 & _ & _ & E1 & _).
    rewrite shiftr_mask, mask_is_summary, S in E1 by exact Hc.
    exists st0, st1. rewrite !state_after_gen, G0, G1.
    split; [reflexivity|]. split; [reflexivity|]. split; assumption.
Qed.

Lemma mtfsb_reports_rounding_mode_changes_witness :
  Rc (fpscr_inst 30) = false /\
  bJITSystemRegistersOff sample_jit_fp_exceptions = false /\
  0 <= CRBD (fpscr_inst 30) <= 31 /\
  exists st0 st1,
    state_after (JitArm64.mtfsb0x (fpscr_inst 30)) sample_jit_fp_exceptions
                (sample_host 0) = Some st0 /\
    state_after (JitArm64.mtfsb1x (fpscr_inst 30)) sample_jit_fp_exceptions
                (sample_host 0) = Some st1 /\
    events st0 = [EvCall RoundingModeUpdated] /\
    events st1 = [EvFallback].
Proof.
  assert (HRc : Rc (fpscr_inst 30) = false) by reflexivity.
  assert (Hoff : bJITSystemRegistersOff sample_jit_fp_exceptions = false)
    by reflexivity.
  assert (Hc : 0 <= CRBD (fpscr_inst 30) <= 31) by (cbn; lia).
  split; [exact HRc|]. split; [exact Hoff|]. split; [exact Hc|].
  exact (mtfsb_reports_rounding_mode_changes (fpscr_inst 30)
           sample_jit_fp_exceptions (sample_host 0) HRc Hoff Hc).
Defined.

(** ** FX outlives the exception that set it *)

Lemma summary_is_32_bit v : UpdateFPExceptionSummary_value v
                            = wrap 32 (UpdateFPExceptionSummary_value v).
Proof. symmetry. apply UpdateFPExceptionSummary_value_wrap. Qed.

(** X10. [mtfsb1x] followed by [mtfsb0x] on the same exception bit leaves
    the bit clear but FX as [mtfsb1x] left it: set if the exception was new,
    what it was before otherwise.  Apart from the recomputed VX and FEX no
    other bit changes. *)
Theorem FX_outlives_its_exception (inst : UGeckoInstruction) (j : Jit) (st : Host) :
  Rc inst = false ->
  bJITSystemRegistersOff j = false ->
  jo_fp_exceptions j = false ->
  0 <= CRBD inst <= 31 ->
  Z.land (Z.shiftr 0x80000000 (CRBD inst)) FPSCR_ANY_X <> 0 ->
  let k := 31 - CRBD inst in
  let w := load 32 st (PPCSTATE_OFF fpscr) in
  exists st',
    state_after (JitArm64.mtfsb1x inst ;; JitArm64.mtfsb0x inst) j st = Some st' /\
    Z.testbit (load 32 st' (PPCSTATE_OFF fpscr)) k = false /\
    Z.testbit (load 32 st' (PPCSTATE_OFF fpscr)) 31
      = (if Z.testbit w k then Z.testbit w 31 else true) /\
    (forall i, 0 <= i -> i <> k -> i <> 29 -> i <> 30 -> i <> 31 ->
               Z.testbit (load 32 st' (PPCSTATE_OFF fpscr)) i = Z.testbit w i).
Proof.
  intros HRc Hoff Hfp Hc HX k w.
  destruct (mtfsb1x_conditions _ Hc HX)
    as (S1 & X1 & R1 & _ & Hm & K29 & K30 & K31).
  fold k in Hm, K29, K30, K31.
  assert (C12 : CRBD inst <> 1 /\ CRBD inst <> 2) by (unfold k in *; lia).
  destruct C12 as [C1 C2].
  assert (Hk : 0 <= k <= 31) by (unfold k; lia).
  destruct (mtfsb1x_runs inst j st HRc Hoff Hfp) as (st1 & G1 & L1 & _).
  destruct (mtfsb0x_runs inst (with_scoped j (gpr_scoped j) (fpr_scoped j)) st1
              HRc Hoff) as (st2 & G2 & L2 & _).
  exists st2. rewrite state_after_gen. erewrite gen_run_bind by exact G1.
  rewrite G2. split; [reflexivity|].
  rewrite L2, L1. fold w. clear L1 L2 G1 G2.
  (* what mtfsb1x stores *)
  pose proof (mtfsb1x_value_bits (CRBD inst) (mem st (PPCSTATE_OFF fpscr)) Hc C1 C2) as V1.
  cbv zeta in V1. fold (load 32 st (PPCSTATE_OFF fpscr)) in V1. fold w k in V1.
  rewrite <- Hm in V1. rewrite X1, R1 in V1. rewrite ?Hm in V1.
  set (w1 := if Z.testbit w k then w else Z.setbit w 31) in V1.
  set (w2 := Z.setbit w1 k) in V1.
  assert (W1 : w1 = wrap 32 w1).
  { unfold w1, w, load. destruct (Z.testbit _ k); symmetry;
      [apply wrap_wrap | apply setbit_range; lia]. }
  assert (W2 : w2 = wrap 32 w2).
  { unfold w2. rewrite W1. symmetry. apply setbit_range. lia. }
  set (r1 := UpdateFPExceptionSummary_value w2) in V1.
  assert (B1 : forall i, 0 <= i -> i <> 29 -> i <> 30 ->
               Z.testbit r1 i = Z.testbit w2 i).
  { intros i Hi I29 I30. unfold r1. rewrite W2. now apply summary_other_bits. }
  rewrite V1. clear V1.
  (* what mtfsb0x makes of it *)
  assert (Wr : r1 = wrap 32 r1) by apply summary_is_32_bit.
  pose proof (mtfsb0x_value_bits (CRBD inst) r1 Hc C1 C2) as V0.
  cbv zeta in V0. rewrite <- Wr in V0. fold k in V0.
  rewrite <- Hm in V0. rewrite R1 in V0. rewrite ?Hm in V0.
  set (w0 := Z.clearbit r1 k) in V0.
  assert (W0 : w0 = wrap 32 w0).
  { unfold w0. rewrite Wr. symmetry. apply clearbit_range. lia. }
  assert (S0 : with_bit 30 (spec_FEX (with_bit 29 (spec_VX w0) w0))
                 (with_bit 29 (spec_VX w0) w0)
               = UpdateFPExceptionSummary_value w0).
  { rewrite W0. symmetry. apply summary_of. }
  rewrite S0 in V0. rewrite V0. clear V0 S0.
  assert (B0 : forall i, 0 <= i -> i <> 29 -> i <> 30 ->
               Z.testbit (UpdateFPExceptionSummary_value w0) i = Z.testbit w0 i).
  { intros i Hi I29 I30. rewrite W0. now apply summary_other_bits. }
  split; [|split].
  - rewrite B0 by lia. unfold w0. rewrite Z.clearbit_eqb, Z.eqb_refl by lia.
    apply andb_false_r.
  - rewrite B0 by lia. unfold w0. rewrite Z.clearbit_eqb by lia.
    assert (N : (k =? 31) = false) by (apply Z.eqb_neq; lia).
    rewrite N, andb_true_r, B1 by lia. unfold w2. rewrite Z.setbit_eqb, N by lia.
    cbn [orb]. unfold w1. destruct (Z.testbit w k); [reflexivity|].
    rewrite Z.setbit_eqb by lia. reflexivity.
  - intros i Hi Ik I29 I30 I31. rewrite B0 by lia. unfold w0.
    rewrite Z.clearbit_eqb by lia.
    assert (N : (k =? i) = false) by (apply Z.eqb_neq; congruence).
    rewrite N, andb_true_r, B1 by lia. unfold w2. rewrite Z.setbit_eqb, N by lia.
    cbn [orb]. unfold w1. destruct (Z.testbit w k); [reflexivity|].
    rewrite Z.setbit_eqb by lia.
    assert (N' : (31 =? i) = false) by (apply Z.eqb_neq; congruence).
    now rewrite N'.
Qed.

Lemma FX_outlives_its_exception_witness :
  Rc (fpscr_inst 7) = false /\
  bJITSystemRegistersOff sample_jit = false /\
  jo_fp_exceptions sample_jit = false /\
  0 <= CRBD (fpscr_inst 7) <= 31 /\
  Z.land (Z.shiftr 0x80000000 (CRBD (fpscr_inst 7))) FPSCR_ANY_X <> 0 /\
  exists st',
    state_after (JitArm64.mtfsb1x (fpscr_inst 7) ;; JitArm64.mtfsb0x (fpscr_inst 7))
      sample_jit (sample_host 0) = Some st' /\
    Z.testbit (load 32 st' (PPCSTATE_OFF fpscr)) 24 = false /\
    Z.testbit (load 32 st' (PPCSTATE_OFF fpscr)) 31 = true.
Proof.
  assert (Hc : 0 <= CRBD (fpscr_inst 7) <= 31) by (cbn; lia).
  assert (HX : Z.land (Z.shiftr 0x80000000 (CRBD (fpscr_inst 7))) FPSCR_ANY_X <> 0)
    by (vm_compute; discriminate).
  repeat (split; [reflexivity|]). split; [exact Hc|]. split; [exact HX|].
  destruct (FX_outlives_its_exception (fpscr_inst 7) sample_jit (sample_host 0)
              eq_refl eq_refl eq_refl Hc HX) as (st' & E & Bk & B31 & _).
  exists st'. repeat split; assumption.
Defined.

(** ** The summary is a fixed point *)

Lemma with_bit_same i (b : bool) x :
  0 <= i -> Z.testbit x i = b -> with_bit i b x = x.
Proof.
  intros Hi H. apply Z.bits_inj'. intros n Hn.
  rewrite testbit_with_bit by lia. destruct (Z.eqb_spec n i); congruence.
Qed.

Lemma spec_VX_ext a b :
  (forall i, 0 <= i -> i <> 29 -> i <> 30 -> Z.testbit a i = Z.testbit b i) ->
  spec_VX a = spec_VX b.
Proof.
  intros H. unfold spec_VX. f_equal. f_equal.
  apply Z.bits_inj'. intros i Hi. rewrite !Z.land_spec.
  destruct (Z.eqb_spec i 29) as [-> | N29];
    [change (Z.testbit FPSCR_VX_ANY 29) with false; now rewrite !andb_false_r|].
  destruct (Z.eqb_spec i 30) as [-> | N30];
    [change (Z.testbit FPSCR_VX_ANY 30) with false; now rewrite !andb_false_r|].
  now rewrite H.
Qed.

Lemma spec_FEX_ext a b :
  (forall i, 0 <= i -> i <> 30 -> Z.testbit a i = Z.testbit b i) ->
  spec_FEX a = spec_FEX b.
Proof.
  intros H. unfold spec_FEX. f_equal. f_equal.
  apply Z.bits_inj'. intros i Hi. rewrite !Z.land_spec, !Z.shiftr_spec by lia.
  destruct (Z.eqb_spec i 30) as [-> | N30];
    [change (Z.testbit FPSCR_ANY_E 30) with false; now rewrite !andb_false_r|].
  destruct (Z.eqb_spec i 8) as [-> | N8];
    [change (Z.testbit FPSCR_ANY_E 8) with false; now rewrite !andb_false_r|].
  rewrite (H i), (H (i + 22)) by lia. reflexivity.
Qed.

Lemma UpdateFPExceptionSummary_value_idempotent v :
  UpdateFPExceptionSummary_value (UpdateFPExceptionSummary_value (wrap 32 v))
  = UpdateFPExceptionSummary_value (wrap 32 v).
Proof.
  destruct (UpdateFPExceptionSummary_value_bits v) as (_ & R29 & R30 & Other).
  cbv zeta in R29, R30, Other.
  set (w := wrap 32 v) in *. set (r := UpdateFPExceptionSummary_value w) in *.
  assert (Wr : r = wrap 32 r) by apply summary_is_32_bit.
  rewrite Wr at 1. rewrite summary_of. rewrite <- Wr.
  assert (V : spec_VX r = spec_VX w).
  { apply spec_VX_ext. intros i Hi I29 I30. now apply Other. }
  rewrite V. rewrite (with_bit_same 29 (spec_VX w) r) by (lia || exact R29).
  assert (F : spec_FEX r = spec_FEX (with_bit 29 (spec_VX w) w)).
  { apply spec_FEX_ext. intros i Hi I30. rewrite testbit_with_bit by lia.
    destruct (Z.eqb_spec i 29) as [-> | N29]; [exact R29 | now apply Other]. }
  rewrite F. apply with_bit_same; [lia | exact R30].
Qed.

(** X11. Running [UpdateFPExceptionSummary] a second time changes nothing:
    the word it leaves is already its own summary. *)
Theorem UpdateFPExceptionSummary_is_idempotent (k : nat) (j : Jit) (st : Host) :
  (k < gpr_scoped j)%nat ->
  let fpscr := W (Scoped k) in
  exists st1 st2,
    state_after (JitArm64.UpdateFPExceptionSummary fpscr) j st = Some st1 /\
    state_after (JitArm64.UpdateFPExceptionSummary fpscr ;;
                 JitArm64.UpdateFPExceptionSummary fpscr) j st = Some st2 /\
    rd 32 st2 fpscr = rd 32 st1 fpscr.
Proof.
  intros Hk fpscr.
  destruct (UpdateFPExceptionSummary_runs k j st ltac:(lia)) as (st1 & G1 & V1 & _).
  destruct (UpdateFPExceptionSummary_runs k
              (with_scoped j (gpr_scoped j) (fpr_scoped j)) st1
              ltac:(cbn; lia)) as (st2 & G2 & V2 & _).
  exists st1, st2. rewrite !state_after_gen. fold fpscr in G1, G2.
  erewrite gen_run_bind by exact G1. rewrite G1, G2.
  split; [reflexivity|]. split; [reflexivity|].
  cbn [rd host_of fpscr] in *. rewrite V2, V1.
  rewrite !UpdateFPExceptionSummary_value_wrap.
  rewrite UpdateFPExceptionSummary_value_idempotent. reflexivity.
Qed.

Lemma UpdateFPExceptionSummary_is_idempotent_witness :
  (0 < gpr_scoped (with_scoped sample_jit 1 0))%nat /\
  exists st1 st2,
    state_after (JitArm64.UpdateFPExceptionSummary (W (Scoped 0)))
      (with_scoped sample_jit 1 0) (sample_host 0x01000080) = Some st1 /\
    state_after (JitArm64.UpdateFPExceptionSummary (W (Scoped 0)) ;;
                 JitArm64.UpdateFPExceptionSummary (W (Scoped 0)))
      (with_scoped sample_jit 1 0) (sample_host 0x01000080) = Some st2 /\
    rd 32 st2 (W (Scoped 0)) = rd 32 st1 (W (Scoped 0)).
Proof.
  assert (H : (0 < gpr_scoped (with_scoped sample_jit 1 0))%nat) by (cbn; lia).
  split; [exact H|].
  exact (UpdateFPExceptionSummary_is_idempotent 0 (with_scoped sample_jit 1 0)
           (sample_host 0x01000080) H).
Defined.
(* ===================================================================== *)
(** * Writing one flag of a condition field                               *)
(* ===================================================================== *)

(** ** What a write leaves of the other three flags, on values *)

Lemma spec_GT_fix_gt w :
  0 <= w < 2 ^ 64 -> spec_GT w = negb (Z.testbit (fix_gt w) 63).
Proof.
  intros R. rewrite spec_GT_bits by exact R. unfold fix_gt.
  destruct (Z.eqb_spec w 0) as [-> | N]; [reflexivity|].
  now rewrite andb_true_r.
Qed.

Lemma wrap_32_fix_gt w : wrap 32 (fix_gt w) = wrap 32 w.
Proof.
  unfold fix_gt. destruct (Z.eqb_spec w 0) as [-> | N]; reflexivity.
Qed.

Lemma wrap_32_bfi_high d s lsb :
  32 <= lsb -> wrap 32 (bfi d s lsb 1) = wrap 32 d.
Proof.
  intros H. apply Z.bits_inj'. intros i Hi.
  rewrite !testbit_wrap by lia. destruct (Z.ltb_spec i 32); [|reflexivity].
  cbn [andb]. rewrite testbit_bfi1 by lia.
  destruct (Z.eqb_spec i lsb); [lia | reflexivity].
Qed.

Lemma land_low_32 x : Z.land (wrap 32 x) 0xFFFFFFFF = wrap 32 x.
Proof. change 0xFFFFFFFF with (Z.ones 32). rewrite Z.land_ones by lia.
  unfold wrap. apply Zmod_mod. Qed.

(** The low half after the instructions that only touch the high half. *)
Ltac low_half :=
  unfold spec_EQ;
  repeat first [ rewrite wrap_32_64 | rewrite wrap_wrap
               | rewrite wrap_lor by lia | rewrite wrap_lxor by lia
               | rewrite wrap_land by lia
               | rewrite wrap_32_bfi_high by lia
               | rewrite wrap_32_fix_gt ];
  repeat match goal with
  | |- context [wrap ?a ?b] => closed_num (wrap a b)
  end;
  rewrite ?Z.land_0_r, ?Z.lor_0_l, ?Z.lor_0_r, ?Z.lxor_0_r, ?land_low_32.

Ltac bit_cases_of bit Hb :=
  destruct (bit_range_cases bit Hb) as [-> | [-> | [-> | ->]]].

Lemma SetCRFieldBit_literal_value_frame bit b w :
  0 <= w < 2 ^ 64 -> 0 <= bit <= 3 -> 0 <= b <= 3 -> b <> bit ->
  spec_flag b (SetCRFieldBit_literal_value bit w) = spec_flag b w.
Proof.
  intros R Hbit Hb N.
  bit_cases_of b Hb; unfold spec_flag; unfold_bits; cbn [Z.eqb Pos.eqb].
  - (* SO *)
    unfold spec_SO, SetCRFieldBit_literal_value.
    bit_cases_of bit Hbit; try (now elim N); unfold_bits; cbn [Z.eqb Pos.eqb];
      bits; rewrite ?fix_gt_other_bits by lia; bool_cases.
  - (* EQ *)
    unfold SetCRFieldBit_literal_value.
    bit_cases_of bit Hbit; try (now elim N); unfold_bits; cbn [Z.eqb Pos.eqb];
      low_half; reflexivity.
  - (* GT *)
    pose proof (SetCRFieldBit_literal_value_bit32 bit w) as M.
    unfold SetCRFieldBit_literal_value in *.
    rewrite (GT_of_marked _ M), (spec_GT_fix_gt w R). clear M. f_equal.
    bit_cases_of bit Hbit; try (now elim N); unfold_bits; cbn [Z.eqb Pos.eqb];
      bits; bool_cases.
  - (* LT *)
    unfold spec_LT, SetCRFieldBit_literal_value.
    bit_cases_of bit Hbit; try (now elim N); unfold_bits; cbn [Z.eqb Pos.eqb];
      bits; rewrite ?fix_gt_other_bits by lia; bool_cases.
Qed.

Lemma SetCRFieldBit_value_frame bit b negate hint w v :
  0 <= w < 2 ^ 64 -> 0 <= bit <= 3 -> 0 <= b <= 3 -> b <> bit ->
  spec_flag b (SetCRFieldBit_value bit negate hint w (input_for hint v))
  = spec_flag b w.
Proof.
  intros R Hbit Hb N.
  bit_cases_of b Hb; unfold spec_flag; unfold_bits; cbn [Z.eqb Pos.eqb].
  - (* SO *)
    unfold spec_SO, SetCRFieldBit_value, input_for.
    bit_cases_of bit Hbit; try (now elim N); unfold_bits; cbn [Z.eqb Pos.eqb];
      destruct negate, hint, v; cbn [negb Z.b2z];
      bits; rewrite ?fix_gt_other_bits by lia; bool_cases.
  - (* EQ *)
    unfold SetCRFieldBit_value, input_for.
    bit_cases_of bit Hbit; try (now elim N); unfold_bits; cbn [Z.eqb Pos.eqb];
      destruct negate, hint, v; cbn [negb Z.b2z]; low_half; reflexivity.
  - (* GT *)
    pose proof (SetCRFieldBit_value_bit32 bit negate hint w (input_for hint v)) as M.
    unfold SetCRFieldBit_value in *.
    rewrite (GT_of_marked _ M), (spec_GT_fix_gt w R). clear M. f_equal.
    unfold input_for.
    bit_cases_of bit Hbit; try (now elim N); unfold_bits; cbn [Z.eqb Pos.eqb];
      destruct negate, hint, v; cbn [negb Z.b2z]; bits; bool_cases.
  - (* LT *)
    unfold spec_LT, SetCRFieldBit_value, input_for.
    bit_cases_of bit Hbit; try (now elim N); unfold_bits; cbn [Z.eqb Pos.eqb];
      destruct negate, hint, v; cbn [negb Z.b2z];
      bits; rewrite ?fix_gt_other_bits by lia; bool_cases.
Qed.

(** Clearing bit [k] gives zero exactly for the words 0 and [2 ^ k]. *)
Lemma clearbit_zero w k :
  0 <= k -> (Z.clearbit w k =? 0) = (w =? 0) || (w =? 2 ^ k).
Proof.
  intros Hk. destruct (Z.testbit w k) eqn:B.
  - assert (S : Z.setbit (Z.clearbit w k) k = w).
    { apply Z.bits_inj'. intros i Hi. rewrite Z.setbit_eqb, Z.clearbit_eqb by lia.
      destruct (Z.eqb_spec k i) as [<- | N]; [now rewrite B | now rewrite andb_true_r]. }
    assert (N0 : (w =? 0) = false).
    { apply Z.eqb_neq. intros ->. now rewrite Z.testbit_0_l in B. }
    rewrite N0. cbn [orb].
    destruct (Z.eqb_spec (Z.clearbit w k) 0) as [E | E];
      destruct (Z.eqb_spec w (2 ^ k)) as [W | W]; try reflexivity; exfalso.
    + apply W. rewrite <- S, E. apply Z.setbit_spec'.
    + apply E. rewrite W. apply Z.bits_inj'. intros i Hi.
      rewrite Z.clearbit_eqb, Z.pow2_bits_eqb, Z.testbit_0_l by lia.
      destruct (k =? i); reflexivity.
  - assert (S : Z.clearbit w k = w).
    { apply Z.bits_inj'. intros i Hi. rewrite Z.clearbit_eqb by lia.
      destruct (Z.eqb_spec k i) as [<- | N]; [now rewrite B | now rewrite andb_true_r]. }
    rewrite S.
    assert (N : (w =? 2 ^ k) = false).
    { apply Z.eqb_neq. intros ->. rewrite Z.pow2_bits_eqb, Z.eqb_refl in B by lia.
      discriminate. }
    now rewrite N, orb_false_r.
Qed.

Lemma clear_bit_64 w k :
  0 <= w < 2 ^ 64 -> 0 <= k <= 63 ->
  wrap 64 (Z.land w (wrap 64 (wrap 64 (Z.lnot (2 ^ k))))) = Z.clearbit w k.
Proof.
  intros R Hk. rewrite <- (wrap_small 64 w R) at 2.
  apply Z.bits_inj'. intros i Hi.
  rewrite testbit_wrap, Z.land_spec, !testbit_wrap, Z.lnot_spec, Z.pow2_bits_eqb,
    Z.clearbit_eqb, testbit_wrap by lia.
  destruct (Z.ltb_spec i 64); cbn [andb]; [|reflexivity].
  destruct (Z.testbit w i), (Z.eqb_spec k i); reflexivity.
Qed.

(** The one word for which clearing SO or LT is felt by GT: the word that
    holds that bit and nothing else. *)
Lemma GT_after_clearing k w :
  0 <= w < 2 ^ 64 -> 0 <= k < 63 ->
  spec_GT (Z.clearbit w k) = spec_GT w && negb (w =? 2 ^ k).
Proof.
  intros R Hk.
  assert (R' : 0 <= Z.clearbit w k < 2 ^ 64).
  { rewrite <- clear_bit_64 by lia. apply wrap_range. lia. }
  rewrite !spec_GT_bits by assumption.
  rewrite Z.clearbit_eqb, clearbit_zero by lia.
  assert (N : (k =? 63) = false) by (apply Z.eqb_neq; lia).
  rewrite N, andb_true_r, negb_orb. apply andb_assoc.
Qed.

Lemma ClearCRFieldBit_value_frame bit b w :
  0 <= w < 2 ^ 64 -> 0 <= bit <= 3 -> 0 <= b <= 3 -> b <> bit ->
  spec_flag b (ClearCRFieldBit_value bit w)
  = spec_flag b w
    && negb ((b =? PowerPC.CR_GT_BIT)
             && (((bit =? PowerPC.CR_SO_BIT) && (w =? 2 ^ PowerPC.CR_EMU_SO_BIT))
                 || ((bit =? PowerPC.CR_LT_BIT) && (w =? 2 ^ PowerPC.CR_EMU_LT_BIT)))).
Proof.
  intros R Hbit Hb N.
  bit_cases_of b Hb; unfold spec_flag; unfold_bits; cbn [Z.eqb Pos.eqb andb negb];
    rewrite ?andb_true_r.
  - (* SO *)
    unfold spec_SO, ClearCRFieldBit_value.
    bit_cases_of bit Hbit; try (now elim N); unfold_bits; cbn [Z.eqb Pos.eqb];
      bits; rewrite ?fix_gt_other_bits by lia; bool_cases.
  - (* EQ *)
    unfold ClearCRFieldBit_value.
    bit_cases_of bit Hbit; try (now elim N); unfold_bits; cbn [Z.eqb Pos.eqb];
      low_half; reflexivity.
  - (* GT *)
    unfold ClearCRFieldBit_value.
    bit_cases_of bit Hbit; try (now elim N); unfold_bits; cbn [Z.eqb Pos.eqb andb orb].
    + change (Z.shiftl 1 59) with (2 ^ 59). rewrite clear_bit_64 by lia.
      rewrite orb_false_r. apply GT_after_clearing; lia.
    + rewrite andb_true_r.
      assert (M : Z.testbit (wrap 64 (Z.lor (fix_gt w) (wrap 64 1))) 0 = true)
        by (bits; bool_cases).
      rewrite spec_GT_bits by (apply wrap_range; lia).
      rewrite (testbit_true_nonzero _ _ M), andb_true_r, (spec_GT_fix_gt w R).
      f_equal. bits. bool_cases.
    + change (Z.shiftl 1 62) with (2 ^ 62). rewrite clear_bit_64 by lia.
      apply GT_after_clearing; lia.
  - (* LT *)
    unfold spec_LT, ClearCRFieldBit_value.
    bit_cases_of bit Hbit; try (now elim N); unfold_bits; cbn [Z.eqb Pos.eqb];
      bits; rewrite ?fix_gt_other_bits by lia; bool_cases.
Qed.

(** ** The three writes, flag by flag *)

(** X2. The literal [SetCRFieldBit] makes the named flag read true and
    leaves the other three flags of the field, and every other field, as
    they were. *)
Theorem SetCRFieldBit_literal_sets_one_flag (field bit : Z) (j : Jit) (st : Host) :
  0 <= bit <= 3 ->
  let CR := gpr_CR field in
  exists st',
    state_after (JitArm64.SetCRFieldBit_literal field bit) j st = Some st' /\
    spec_flag bit (rd 64 st' CR) = true /\
    (forall b, 0 <= b <= 3 -> b <> bit ->
               spec_flag b (rd 64 st' CR) = spec_flag b (rd 64 st CR)) /\
    (forall g, g <> field -> regs st' (CRh g) = regs st (CRh g)).
Proof.
  intros Hbit CR.
  destruct (SetCRFieldBit_literal_runs field bit j st) as (st' & E & V & F).
  exists st'. fold CR in V. rewrite V. split; [exact E|].
  split; [now apply SetCRFieldBit_literal_value_flag|]. split; [|exact F].
  intros b Hb N. apply SetCRFieldBit_literal_value_frame; try assumption.
  apply rd_range.
Qed.

Lemma SetCRFieldBit_literal_sets_one_flag_witness :
  0 <= PowerPC.CR_SO_BIT <= 3 /\
  exists st',
    state_after (JitArm64.SetCRFieldBit_literal 0 PowerPC.CR_SO_BIT)
      sample_jit (sample_host 5) = Some st' /\
    spec_flag PowerPC.CR_SO_BIT (rd 64 st' (gpr_CR 0)) = true /\
    spec_flag PowerPC.CR_GT_BIT (rd 64 st' (gpr_CR 0)) = true.
Proof.
  assert (H : 0 <= PowerPC.CR_SO_BIT <= 3) by (cbv; split; discriminate).
  split; [exact H|].
  destruct (SetCRFieldBit_literal_sets_one_flag 0 PowerPC.CR_SO_BIT sample_jit
              (sample_host 5) H) as (st' & E & S & Fr & _).
  exists st'. split; [exact E|]. split; [exact S|].
  rewrite (Fr PowerPC.CR_GT_BIT) by (cbv; (split; discriminate) || discriminate).
  reflexivity.
Defined.

(** X3. [SetCRFieldBit] with an input register holding the boolean [v]
    (with bits 1 to 31 set as well when the caller says so) makes the named
    flag read [v], or its negation when [negate] is given, and leaves the
    other three flags of the field, and every other field, as they were. *)
Theorem SetCRFieldBit_writes_one_flag
    (field bit : Z) (k : nat) (negate hint v : bool) (j : Jit) (st : Host) :
  0 <= bit <= 3 ->
  k <> gpr_scoped j ->
  regs st (Scoped k) = input_for hint v ->
  let CR := gpr_CR field in
  exists st',
    state_after (JitArm64.SetCRFieldBit field bit (X (Scoped k)) negate hint) j st
      = Some st' /\
    spec_flag bit (rd 64 st' CR) = xorb v negate /\
    (forall b, 0 <= b <= 3 -> b <> bit ->
               spec_flag b (rd 64 st' CR) = spec_flag b (rd 64 st CR)) /\
    (forall g, g <> field -> regs st' (CRh g) = regs st (CRh g)).
Proof.
  intros Hbit Hk Hin CR.
  destruct (SetCRFieldBit_runs field bit (X (Scoped k)) negate hint j st)
    as (x & st' & E & V & _ & Hx & F).
  exists st'. fold CR in V. rewrite V. split; [exact E|].
  assert (X0 : x = input_for hint v).
  { rewrite (Hx k eq_refl Hk). unfold rd. cbn [host_of]. rewrite Hin.
    apply wrap_small, input_for_range. }
  rewrite X0.
  split; [now apply SetCRFieldBit_value_flag|]. split; [|exact F].
  intros b Hb N. apply SetCRFieldBit_value_frame; try assumption.
  apply rd_range.
Qed.

Lemma SetCRFieldBit_writes_one_flag_witness :
  0 <= PowerPC.CR_EQ_BIT <= 3 /\
  7%nat <> gpr_scoped sample_jit /\
  regs (sample_host 1) (Scoped 7) = input_for false true /\
  exists st',
    state_after (JitArm64.SetCRFieldBit 0 PowerPC.CR_EQ_BIT (X (Scoped 7)) false false)
      sample_jit (sample_host 1) = Some st' /\
    spec_flag PowerPC.CR_EQ_BIT (rd 64 st' (gpr_CR 0)) = true.
Proof.
  assert (H : 0 <= PowerPC.CR_EQ_BIT <= 3) by (cbv; split; discriminate).
  assert (Hk : 7%nat <> gpr_scoped sample_jit) by discriminate.
  assert (Hin : regs (sample_host 1) (Scoped 7) = input_for false true) by reflexivity.
  repeat (split; [assumption|]).
  destruct (SetCRFieldBit_writes_one_flag 0 PowerPC.CR_EQ_BIT 7 false false true
              sample_jit (sample_host 1) H Hk Hin) as (st' & E & S & _).
  exists st'. split; [exact E | exact S].
Defined.

(** X4. [ClearCRFieldBit] makes the named flag read false.  The other
    three flags of the field keep their value, with one exception: when SO
    (or LT) is cleared in a word that holds nothing but that bit, the word
    becomes zero and GT, which read true, reads false.  Other fields are not
    touched. *)
Theorem ClearCRFieldBit_clears_one_flag (field bit : Z) (j : Jit) (st : Host) :
  0 <= bit <= 3 ->
  let CR := gpr_CR field in
  let w := rd 64 st CR in
  let lone := ((bit =? PowerPC.CR_SO_BIT) && (w =? 2 ^ PowerPC.CR_EMU_SO_BIT))
              || ((bit =? PowerPC.CR_LT_BIT) && (w =? 2 ^ PowerPC.CR_EMU_LT_BIT)) in
  exists st',
    state_after (JitArm64.ClearCRFieldBit field bit) j st = Some st' /\
    spec_flag bit (rd 64 st' CR) = false /\
    (forall b, 0 <= b <= 3 -> b <> bit ->
               spec_flag b (rd 64 st' CR)
               = spec_flag b w && negb ((b =? PowerPC.CR_GT_BIT) && lone)) /\
    (lone = true -> spec_GT w = true /\ rd 64 st' CR = 0) /\
    (forall g, g <> field -> regs st' (CRh g) = regs st (CRh g)).
Proof.
  intros Hbit CR w lone.
  destruct (ClearCRFieldBit_runs field bit j st) as (st' & E & V & F).
  exists st'. fold CR in V. fold w in V. rewrite V. split; [exact E|].
  split; [now apply ClearCRFieldBit_value_flag|].
  split; [|split; [|exact F]].
  - intros b Hb N. apply ClearCRFieldBit_value_frame; try assumption.
    apply rd_range.
  - unfold lone. intros L. apply orb_true_iff in L.
    destruct L as [L | L]; apply andb_true_iff in L; destruct L as [B W];
      apply Z.eqb_eq in B, W; rewrite B, W; split; reflexivity.
Qed.

Lemma ClearCRFieldBit_clears_one_flag_witness :
  0 <= PowerPC.CR_SO_BIT <= 3 /\
  exists st',
    state_after (JitArm64.ClearCRFieldBit 0 PowerPC.CR_SO_BIT)
      sample_jit (sample_host (2 ^ 59)) = Some st' /\
    spec_flag PowerPC.CR_SO_BIT (rd 64 st' (gpr_CR 0)) = false /\
    spec_GT (rd 64 (sample_host (2 ^ 59)) (gpr_CR 0)) = true /\
    rd 64 st' (gpr_CR 0) = 0.
Proof.
  assert (H : 0 <= PowerPC.CR_SO_BIT <= 3) by (cbv; split; discriminate).
  split; [exact H|].
  destruct (ClearCRFieldBit_clears_one_flag 0 PowerPC.CR_SO_BIT sample_jit
              (sample_host (2 ^ 59)) H) as (st' & E & S & _ & L & _).
  exists st'. split; [exact E|]. split; [exact S|]. exact (L eq_refl).
Defined.

(** ** crXXX and the flags it does not name *)

Lemma CRh_frame st st' k g :
  (forall h, HostReg_eqb (Scoped k) h = false -> regs st' h = regs st h) ->
  regs st' (CRh g) = regs st (CRh g).
Proof. intros F. now apply F. Qed.

(** The word [crXXX_with] leaves in the destination field. *)
Lemma crXXX_with_word op inst negate j st :
  SUBOP10 inst = SUBOP10_of op ->
  let fd := Z.shiftr (CRBD inst) 2 in
  let bd := 3 - Z.land (CRBD inst) 3 in
  exists st',
    state_after (JitArm64.crXXX_with inst negate) j st = Some st' /\
    rd 64 st' (gpr_CR fd)
      = SetCRFieldBit_value bd negate (combine_hint op negate) (rd 64 st (gpr_CR fd))
          (input_for (combine_hint op negate)
             (combined op negate (CR_bit st (CRBA inst)) (CR_bit st (CRBB inst)))) /\
    (forall g, g <> fd -> regs st' (CRh g) = regs st (CRh g)).
Proof.
  intros Hop fd bd. unfold JitArm64.crXXX_with. rewrite Hop.
  set (d := gpr_scoped j).
  rewrite (state_after_bind _ _ _ _ _ _ _ (gen_run_GetScopedReg j st)).
  fold d. cbn [EncodeRegTo64].
  set (j1 := with_scoped j (Datatypes.S d) (fpr_scoped j)).
  destruct (GetCRFieldBit_gen (Z.shiftr (CRBA inst) 2) (3 - Z.land (CRBA inst) 3)
              d (with_scoped j1 (Datatypes.S (Datatypes.S d)) (fpr_scoped j1)) st
              (land3_range _)) as (st1 & G1 & VA & F1).
  destruct (GetCRFieldBit_gen (Z.shiftr (CRBB inst) 2) (3 - Z.land (CRBB inst) 3)
              (Datatypes.S d)
              (with_scoped j1 (Datatypes.S (Datatypes.S d)) (fpr_scoped j1)) st1
              (land3_range _)) as (st2 & G2 & VB & F2).
  assert (VA2 : regs st2 (Scoped d) = Z.b2z (CR_bit st (CRBA inst))).
  { rewrite F2 by (cbn [HostReg_eqb]; apply Nat.eqb_neq; lia). exact VA. }
  assert (VB2 : regs st2 (Scoped (Datatypes.S d)) = Z.b2z (CR_bit st (CRBB inst))).
  { rewrite VB. unfold CR_bit, gpr_CR, rd. cbn [host_of].
    now rewrite F1 by reflexivity. }
  destruct (crXXX_combine_gen op negate d (Datatypes.S d) _ _
              (with_scoped j1 (Datatypes.S (Datatypes.S d)) (fpr_scoped j1)) st2
              ltac:(lia) VA2 VB2) as (st3 & G3 & VC & F3).
  assert (Gblock :
    gen_run (scope (
      WB <- gpr_GetScopedReg ;;
      let XB := EncodeRegTo64 WB in
      JitArm64.GetCRFieldBit (Z.shiftr (CRBA inst) 2) (3 - Z.land (CRBA inst) 3)
        (X (Scoped d)) ;;
      JitArm64.GetCRFieldBit (Z.shiftr (CRBB inst) 2) (3 - Z.land (CRBB inst) 3) XB ;;
      JitArm64.crXXX_combine (SUBOP10_of op) negate (W (Scoped d)) WB)) j1 st
    = Some (combine_hint op negate,
            with_scoped (with_scoped j1 (Datatypes.S (Datatypes.S d)) (fpr_scoped j1))
                        (gpr_scoped j1) (fpr_scoped j1), st3)).
  { apply gen_run_scope.
    rewrite (gen_run_bind _ _ _ _ _ _ _ (gen_run_GetScopedReg j1 st)).
    cbn [EncodeRegTo64]. change (gpr_scoped j1) with (Datatypes.S d).
    rewrite (gen_run_bind _ _ _ _ _ _ _ G1).
    rewrite (gen_run_bind _ _ _ _ _ _ _ G2).
    exact G3. }
  rewrite (state_after_bind _ _ _ _ _ _ _ Gblock).
  set (j3 := with_scoped _ (gpr_scoped j1) (fpr_scoped j1)).
  assert (C3 : forall g, regs st3 (CRh g) = regs st (CRh g)).
  { intros g. rewrite (CRh_frame _ _ _ g F3), (CRh_frame _ _ _ g F2).
    apply (CRh_frame _ _ _ g F1). }
  destruct (SetCRFieldBit_runs fd bd (X (Scoped d)) negate (combine_hint op negate) j3 st3)
    as (x & st' & E & V & _ & Hx & F).
  exists st'. split; [exact E|]. split.
  - rewrite V. rewrite (Hx d eq_refl) by (subst j3 j1; cbn [gpr_scoped with_scoped]; lia).
    assert (X3 : rd 64 st3 (X (Scoped d))
                 = input_for (combine_hint op negate)
                     (combined op negate (CR_bit st (CRBA inst)) (CR_bit st (CRBB inst)))).
    { unfold rd. cbn [host_of]. rewrite VC. apply wrap_small, input_for_range. }
    rewrite X3. unfold rd, gpr_CR. cbn [host_of]. now rewrite C3.
  - intros g N. rewrite (F g N). apply C3.
Qed.

(** The same for the one-operand path of crand, cror, crnor and crnand. *)
Lemma crXXX_same_index_word inst negate j st :
  let fd := Z.shiftr (CRBD inst) 2 in
  let bd := 3 - Z.land (CRBD inst) 3 in
  exists st',
    state_after
      (WA <- gpr_GetScopedReg ;;
       let XA := EncodeRegTo64 WA in
       JitArm64.GetCRFieldBit (Z.shiftr (CRBA inst) 2) (3 - Z.land (CRBA inst) 3) XA ;;
       JitArm64.SetCRFieldBit (Z.shiftr (CRBD inst) 2) (3 - Z.land (CRBD inst) 3) XA
         negate false) j st = Some st' /\
    rd 64 st' (gpr_CR fd)
      = SetCRFieldBit_value bd negate false (rd 64 st (gpr_CR fd))
          (input_for false (CR_bit st (CRBA inst))) /\
    (forall g, g <> fd -> regs st' (CRh g) = regs st (CRh g)).
Proof.
  intros fd bd. set (d := gpr_scoped j).
  rewrite (state_after_bind _ _ _ _ _ _ _ (gen_run_GetScopedReg j st)).
  fold d. cbn [EncodeRegTo64].
  set (j1 := with_scoped j (Datatypes.S d) (fpr_scoped j)).
  destruct (GetCRFieldBit_gen (Z.shiftr (CRBA inst) 2) (3 - Z.land (CRBA inst) 3)
              d j1 st (land3_range _)) as (st1 & G1 & VA & F1).
  rewrite (state_after_bind _ _ _ _ _ _ _ G1).
  destruct (SetCRFieldBit_runs fd bd (X (Scoped d)) negate false j1 st1)
    as (x & st' & E & V & _ & Hx & F).
  exists st'. split; [exact E|]. split.
  - rewrite V. rewrite (Hx d eq_refl) by (subst j1; cbn [gpr_scoped with_scoped]; lia).
    assert (X1 : rd 64 st1 (X (Scoped d)) = input_for false (CR_bit st (CRBA inst))).
    { unfold rd. cbn [host_of]. rewrite VA. apply wrap_b2z. lia. }
    rewrite X1. unfold rd, gpr_CR. cbn [host_of].
    now rewrite (CRh_frame _ _ _ fd F1).
  - intros g N. rewrite (F g N). apply (CRh_frame _ _ _ g F1).
Qed.

Lemma index_of_parts a b :
  Z.shiftr a 2 = Z.shiftr b 2 -> Z.land a 3 = Z.land b 3 -> a = b.
Proof.
  rewrite !Z.shiftr_div_pow2 by lia. change 3 with (Z.ones 2).
  rewrite !Z.land_ones by lia. change (2 ^ 2) with 4. intros D M.
  rewrite (Z.div_mod a 4), (Z.div_mod b 4) by lia. congruence.
Qed.

Lemma CR_bit_frame (st st' : Host) (crbd : Z) (e : bool) :
  let fd := Z.shiftr crbd 2 in
  let bd := 3 - Z.land crbd 3 in
  (forall g, g <> fd -> regs st' (CRh g) = regs st (CRh g)) ->
  (forall b, 0 <= b <= 3 -> b <> bd ->
             spec_flag b (rd 64 st' (gpr_CR fd))
             = spec_flag b (rd 64 st (gpr_CR fd))
               && negb ((b =? PowerPC.CR_GT_BIT) && e)) ->
  forall idx, idx <> crbd ->
    CR_bit st' idx
    = CR_bit st idx
      && negb (e && (Z.shiftr idx 2 =? fd) && (3 - Z.land idx 3 =? PowerPC.CR_GT_BIT)).
Proof.
  intros fd bd F V idx N. unfold CR_bit.
  destruct (Z.eqb_spec (Z.shiftr idx 2) fd) as [Ef | Nf].
  - rewrite Ef, V.
    + f_equal. f_equal. rewrite andb_true_r. apply andb_comm.
    + apply land3_range.
    + unfold bd. intros Eb. apply N. apply index_of_parts; [exact Ef | lia].
  - unfold rd, gpr_CR. cbn [host_of]. rewrite (F _ Nf).
    now rewrite andb_false_r, andb_true_r.
Qed.

(** X5. [crXXX] changes no flag but the one it names.  Every other flag of
    the condition register reads after the instruction as it read before,
    with the one exception [ClearCRFieldBit] has: a crclr form (crxor or
    crandc of a bit with itself) that clears SO or LT in a field whose word
    holds nothing but that bit turns GT of that field from true to false. *)
Theorem crXXX_keeps_the_other_flags
    (op : CROp) (inst : UGeckoInstruction) (j : Jit) (st : Host) :
  SUBOP10 inst = SUBOP10_of op ->
  bJITSystemRegistersOff j = false ->
  let fd := Z.shiftr (CRBD inst) 2 in
  let bd := 3 - Z.land (CRBD inst) 3 in
  let w := rd 64 st (gpr_CR fd) in
  let crclr := (CRBA inst =? CRBB inst)
               && match op with crandc | crxor => true | _ => false end in
  let lone := ((bd =? PowerPC.CR_SO_BIT) && (w =? 2 ^ PowerPC.CR_EMU_SO_BIT))
              || ((bd =? PowerPC.CR_LT_BIT) && (w =? 2 ^ PowerPC.CR_EMU_LT_BIT)) in
  exists st',
    state_after (JitArm64.crXXX inst) j st = Some st' /\
    forall idx, idx <> CRBD inst ->
      CR_bit st' idx
      = CR_bit st idx
        && negb (crclr && lone && (Z.shiftr idx 2 =? fd)
                 && (3 - Z.land idx 3 =? PowerPC.CR_GT_BIT)).
Proof.
  intros Hop Hoff fd bd w crclr lone.
  assert (Hbd : 0 <= bd <= 3) by apply land3_range.
  assert (Rw : 0 <= w < 2 ^ 64) by apply rd_range.
  (* the paths that set the flag *)
  assert (SetPath : forall st' x negate hint,
    crclr = false ->
    rd 64 st' (gpr_CR fd) = SetCRFieldBit_value bd negate hint w (input_for hint x) ->
    (forall g, g <> fd -> regs st' (CRh g) = regs st (CRh g)) ->
    forall idx, idx <> CRBD inst ->
      CR_bit st' idx
      = CR_bit st idx
        && negb (crclr && lone && (Z.shiftr idx 2 =? fd)
                 && (3 - Z.land idx 3 =? PowerPC.CR_GT_BIT))).
  { intros st' x negate hint C V F idx N. rewrite C. cbn [andb negb].
    rewrite (CR_bit_frame st st' (CRBD inst) false F); [reflexivity | | exact N].
    intros b Hb Nb. fold fd bd. rewrite V, andb_false_r. cbn [negb].
    rewrite andb_true_r. fold w. now apply SetCRFieldBit_value_frame. }
  unfold JitArm64.crXXX.
  rewrite state_after_JITDISABLE by exact Hoff.
  rewrite state_after_scope. rewrite Hop.
  destruct (Z.eqb_spec (CRBA inst) (CRBB inst)) as [Same|Diff].
  - assert (Literal : forall st',
      crclr = false ->
      rd 64 st' (gpr_CR fd) = SetCRFieldBit_literal_value bd w ->
      (forall g, g <> fd -> regs st' (CRh g) = regs st (CRh g)) ->
      forall idx, idx <> CRBD inst ->
        CR_bit st' idx
        = CR_bit st idx
          && negb (crclr && lone && (Z.shiftr idx 2 =? fd)
                   && (3 - Z.land idx 3 =? PowerPC.CR_GT_BIT))).
    { intros st' C V F idx N. rewrite C. cbn [andb negb].
      rewrite (CR_bit_frame st st' (CRBD inst) false F); [reflexivity | | exact N].
      intros b Hb Nb. fold fd bd. rewrite V, andb_false_r. cbn [negb].
      rewrite andb_true_r. fold w. now apply SetCRFieldBit_literal_value_frame. }
    assert (Clear : forall st',
      crclr = true ->
      rd 64 st' (gpr_CR fd) = ClearCRFieldBit_value bd w ->
      (forall g, g <> fd -> regs st' (CRh g) = regs st (CRh g)) ->
      forall idx, idx <> CRBD inst ->
        CR_bit st' idx
        = CR_bit st idx
          && negb (crclr && lone && (Z.shiftr idx 2 =? fd)
                   && (3 - Z.land idx 3 =? PowerPC.CR_GT_BIT))).
    { intros st' C V F idx N. rewrite C. cbn [andb].
      apply (CR_bit_frame st st' (CRBD inst) lone F); [|exact N].
      intros b Hb Nb. fold fd bd. rewrite V. fold w.
      now apply ClearCRFieldBit_value_frame. }
    assert (CS : crclr = match op with crandc | crxor => true | _ => false end).
    { unfold crclr. rewrite ?Same, ?Z.eqb_refl. reflexivity. }
    destruct op; cbn [SUBOP10_of Z.eqb Pos.eqb orb andb]; cbn iota in CS.
    + destruct (crXXX_same_index_word inst false j st) as (st' & E & V & F).
      exists st'. split; [exact E|]. eapply SetPath; eassumption.
    + destruct (crXXX_same_index_word inst false j st) as (st' & E & V & F).
      exists st'. split; [exact E|]. eapply SetPath; eassumption.
    + destruct (ClearCRFieldBit_runs fd bd j st) as (st' & E & V & F).
      exists st'. split; [exact E|]. now apply Clear.
    + destruct (crXXX_same_index_word inst true j st) as (st' & E & V & F).
      exists st'. split; [exact E|]. eapply SetPath; eassumption.
    + destruct (crXXX_same_index_word inst true j st) as (st' & E & V & F).
      exists st'. split; [exact E|]. eapply SetPath; eassumption.
    + destruct (ClearCRFieldBit_runs fd bd j st) as (st' & E & V & F).
      exists st'. split; [exact E|]. now apply Clear.
    + destruct (SetCRFieldBit_literal_runs fd bd j st) as (st' & E & V & F).
      exists st'. split; [exact E|]. now apply Literal.
    + destruct (SetCRFieldBit_literal_runs fd bd j st) as (st' & E & V & F).
      exists st'. split; [exact E|]. now apply Literal.
  - cbn [andb]. unfold JitArm64.crXXX_general.
    assert (CS : crclr = false).
    { unfold crclr. apply Z.eqb_neq in Diff. rewrite ?Diff. reflexivity. }
    match goal with
    | |- context [JitArm64.crXXX_with inst ?n] =>
        destruct (crXXX_with_word op inst n j st Hop) as (st' & E & V & F)
    end.
    exists st'. split; [exact E|]. eapply SetPath; eassumption.
Qed.

Lemma crXXX_keeps_the_other_flags_witness :
  SUBOP10 (cr_inst 193 3 3 3) = SUBOP10_of crxor /\
  bJITSystemRegistersOff sample_jit = false /\
  exists st',
    state_after (JitArm64.crXXX (cr_inst 193 3 3 3)) sample_jit (sample_host (2 ^ 59))
      = Some st' /\
    CR_bit (sample_host (2 ^ 59)) 1 = true /\
    CR_bit st' 1 = false /\
    CR_bit st' 2 = CR_bit (sample_host (2 ^ 59)) 2.
Proof.
  assert (Hop : SUBOP10 (cr_inst 193 3 3 3) = SUBOP10_of crxor) by reflexivity.
  assert (Hoff : bJITSystemRegistersOff sample_jit = false) by reflexivity.
  split; [exact Hop|]. split; [exact Hoff|].
  destruct (crXXX_keeps_the_other_flags crxor (cr_inst 193 3 3 3) sample_jit
              (sample_host (2 ^ 59)) Hop Hoff) as (st' & E & Fr).
  exists st'. split; [exact E|]. split; [reflexivity|].
  split; [exact (Fr 1 ltac:(discriminate)) | exact (Fr 2 ltac:(discriminate))].
Defined.
(* ===================================================================== *)
(** * Reading the whole condition register                                *)
(* ===================================================================== *)

Lemma wrap_64_so_lt x :
  wrap 64 (Z.land (Z.lor PowerPC.CR_SO PowerPC.CR_LT) x)
  = Z.land (Z.lor PowerPC.CR_SO PowerPC.CR_LT) x.
Proof.
  change (Z.lor PowerPC.CR_SO PowerPC.CR_LT) with 9.
  unfold wrap. apply Z.bits_inj'. intros n Hn.
  destruct (Z.ltb_spec n 64).
  - now rewrite Z.mod_pow2_bits_low by lia.
  - rewrite Z.mod_pow2_bits_high by lia.
    rewrite Z.land_spec, (Z.bits_above_log2 9 n); [reflexivity | lia |].
    change (Z.log2 9) with 3. lia.
Qed.

Lemma mfcr_field_runs dis use d b c i j st :
  b <> c ->
  (i <> 0 -> regs st (Scoped b) = 9) ->
  exists st',
    gen_run (JitArm64.mfcr_field dis use (W (GPRh d)) (W (Scoped b)) (W (Scoped c)) i)
            j st = Some (tt, j, st') /\
    regs st' (GPRh d)
      = mfcr_field_value (if i =? 0 then 0 else regs st (GPRh d))
                         (rd 64 st (gpr_CR i)) /\
    regs st' (Scoped b) = 9 /\
    (forall g, regs st' (CRh g) = regs st (CRh g)).
Proof.
  intros Hbc Hb. unfold gen_run, JitArm64.mfcr_field,
    JitArm64.gpr_DiscardCRRegisters, JitArm64.gpr_StoreCRRegisters.
  destruct (Z.eqb_spec i 0) as [-> | Ni].
  - destruct (dis 0), (use 0); jit_cbn; exec_all.
    all: eexists; split; [reflexivity|].
    all: cbn [regs]; simp_regs.
    all: split; [|split; [subst v; reflexivity | intros g; reflexivity]].
    all: subst; unfold mfcr_field_value; rewrite cmp0_EQ_32, cmp0_GT.
    all: cbv zeta; unfold spec_GT; rewrite ?wrap_wrap, ?wrap_32_64.
    all: change (wrap 64 (Z.lor PowerPC.CR_SO PowerPC.CR_LT))
           with (Z.lor PowerPC.CR_SO PowerPC.CR_LT).
    all: change (wrap 64 (Z.shiftl (wrap 64 0) 4)) with 0.
    all: rewrite Z.lor_0_r, ?wrap_64_so_lt.
    all: change (wrap 32 (Z.shiftl 1 PowerPC.CR_EQ_BIT)) with (Z.shiftl 1 PowerPC.CR_EQ_BIT).
    all: change (wrap 32 (Z.shiftl 1 PowerPC.CR_GT_BIT)) with (Z.shiftl 1 PowerPC.CR_GT_BIT).
    all: destruct (wrap 32 (regs st (CRh 0)) =? 0), (0 <? signed 64 (wrap 64 (regs st (CRh 0))));
         rewrite ?wrap_wrap; reflexivity.
  - specialize (Hb Ni).
    destruct (dis i), (use i); jit_cbn; exec_all.
    all: eexists; split; [reflexivity|].
    all: cbn [regs]; simp_regs.
    all: split; [|split; [exact Hb | intros g; reflexivity]].
    all: subst; unfold mfcr_field_value; rewrite cmp0_EQ_32, cmp0_GT.
    all: cbv zeta; unfold spec_GT; rewrite ?wrap_wrap, ?wrap_32_64.
    all: rewrite Hb.
    all: change (wrap 64 9) with (Z.lor PowerPC.CR_SO PowerPC.CR_LT).
    all: rewrite ?wrap_64_so_lt.
    all: change (wrap 32 (Z.shiftl 1 PowerPC.CR_EQ_BIT)) with (Z.shiftl 1 PowerPC.CR_EQ_BIT).
    all: change (wrap 32 (Z.shiftl 1 PowerPC.CR_GT_BIT)) with (Z.shiftl 1 PowerPC.CR_GT_BIT).
    all: destruct (wrap 32 (regs st (CRh i)) =? 0), (0 <? signed 64 (wrap 64 (regs st (CRh i))));
         rewrite ?wrap_wrap; reflexivity.
Qed.

Lemma mfcr_field_value_range acc cr : 0 <= mfcr_field_value acc cr < 2 ^ 32.
Proof.
  unfold mfcr_field_value. cbv zeta.
  destruct (0 <? signed 64 cr), (wrap 32 cr =? 0); apply wrap_range; lia.
Qed.

Lemma mfcr_field_value_bits acc cr k :
  0 <= cr < 2 ^ 64 -> 0 <= k < 32 ->
  Z.testbit (mfcr_field_value acc cr) k
  = if k <? 4 then spec_flag k cr else Z.testbit acc (k - 4).
Proof.
  intros R Hk. unfold mfcr_field_value. cbv zeta.
  change (Z.lor PowerPC.CR_SO PowerPC.CR_LT) with 9.
  change (Z.shiftl 1 PowerPC.CR_EQ_BIT) with 2.
  change (Z.shiftl 1 PowerPC.CR_GT_BIT) with 4.
  unfold PowerPC.CR_EMU_SO_BIT.
  set (a := wrap 64 (Z.lor (Z.land 9 (Z.shiftr cr 59))
                           (wrap 64 (Z.shiftl (wrap 64 acc) 4)))).
  assert (A : Z.testbit a k
              = (Z.testbit 9 k && Z.testbit cr (k + 59))
                || ((4 <=? k) && Z.testbit acc (k - 4))).
  { unfold a. rewrite !testbit_wrap, Z.lor_spec, Z.land_spec, testbit_wrap by lia.
    rewrite Z.shiftr_spec, Z.shiftl_spec by lia.
    replace (k <? 64) with true by (symmetry; apply Z.ltb_lt; lia).
    cbn [andb]. f_equal.
    destruct (Z.leb_spec 4 k).
    - rewrite testbit_wrap by lia.
      replace (k - 4 <? 64) with true by (symmetry; apply Z.ltb_lt; lia).
      reflexivity.
    - apply Z.testbit_neg_r. lia. }
  assert (E : Z.testbit
                (if wrap 32 cr =? 0 then wrap 32 (Z.lor (wrap 32 a) 2) else wrap 32 a) k
              = ((k =? 1) && spec_EQ cr) || Z.testbit a k).
  { unfold spec_EQ. destruct (wrap 32 cr =? 0).
    - rewrite !testbit_wrap, Z.lor_spec, testbit_wrap by lia.
      replace (k <? 32) with true by (symmetry; apply Z.ltb_lt; lia).
      cbn [andb]. rewrite andb_true_r.
      change 2 with (2 ^ 1). rewrite Z.pow2_bits_eqb by lia.
      rewrite (Z.eqb_sym 1 k). apply orb_comm.
    - rewrite andb_false_r, testbit_wrap by lia.
      replace (k <? 32) with true by (symmetry; apply Z.ltb_lt; lia).
      reflexivity. }
  assert (G : Z.testbit
                (if 0 <? signed 64 cr
                 then wrap 32 (Z.lor (if wrap 32 cr =? 0
                                      then wrap 32 (Z.lor (wrap 32 a) 2)
                                      else wrap 32 a) 4)
                 else if wrap 32 cr =? 0
                      then wrap 32 (Z.lor (wrap 32 a) 2) else wrap 32 a) k
              = ((k =? 2) && spec_GT cr) || (((k =? 1) && spec_EQ cr) || Z.testbit a k)).
  { unfold spec_GT. destruct (0 <? signed 64 cr).
    - rewrite testbit_wrap, Z.lor_spec, E by lia.
      replace (k <? 32) with true by (symmetry; apply Z.ltb_lt; lia).
      cbn [andb]. rewrite andb_true_r.
      change 4 with (2 ^ 2). rewrite Z.pow2_bits_eqb by lia.
      rewrite (Z.eqb_sym 2 k). apply orb_comm.
    - rewrite andb_false_r. exact E. }
  rewrite G, A. clear G E A a.
  unfold spec_flag, spec_SO, spec_LT.
  unfold PowerPC.CR_SO_BIT, PowerPC.CR_EQ_BIT, PowerPC.CR_GT_BIT.
  destruct (Z.ltb_spec k 4) as [L | L].
  - assert (C : k = 0 \/ k = 1 \/ k = 2 \/ k = 3) by lia.
    replace (4 <=? k) with false by (symmetry; apply Z.leb_gt; lia).
    destruct C as [-> | [-> | [-> | ->]]]; cbn [Z.eqb Pos.eqb andb orb Z.add];
      change (Z.testbit 9 0) with true; change (Z.testbit 9 1) with false;
      change (Z.testbit 9 2) with false; change (Z.testbit 9 3) with true;
      cbn [andb orb]; rewrite ?orb_false_r; reflexivity.
  - replace (4 <=? k) with true by (symmetry; apply Z.leb_le; lia).
    replace (k =? 1) with false by (symmetry; apply Z.eqb_neq; lia).
    replace (k =? 2) with false by (symmetry; apply Z.eqb_neq; lia).
    rewrite (Z.bits_above_log2 9 k) by (change (Z.log2 9) with 3; lia).
    reflexivity.
Qed.

Lemma mfcr_value_range crs n first acc :
  0 <= acc < 2 ^ 32 -> 0 <= mfcr_value crs n first acc < 2 ^ 32.
Proof.
  revert first acc. induction n as [|n IH]; intros first acc R; cbn [mfcr_value].
  - exact R.
  - apply IH, mfcr_field_value_range.
Qed.

Lemma mfcr_value_bits crs n first acc k :
  (forall i, 0 <= crs i < 2 ^ 64) -> 0 <= k < 32 ->
  Z.testbit (mfcr_value crs n first acc) k
  = if k / 4 <? Z.of_nat n
    then spec_flag (k mod 4) (crs (first + Z.of_nat n - 1 - k / 4))
    else Z.testbit acc (k - 4 * Z.of_nat n).
Proof.
  intros R Hk. revert first acc. induction n as [|n IH]; intros first acc.
  - cbn [mfcr_value]. replace (k / 4 <? Z.of_nat 0) with false
      by (symmetry; apply Z.ltb_ge; change (Z.of_nat 0) with 0;
          apply Z.div_pos; lia).
    f_equal. change (Z.of_nat 0) with 0. lia.
  - cbn [mfcr_value]. rewrite IH.
    destruct (Z.ltb_spec (k / 4) (Z.of_nat n)) as [L | L].
    + replace (k / 4 <? Z.of_nat (Datatypes.S n)) with true
        by (symmetry; apply Z.ltb_lt; lia).
      f_equal. f_equal. lia.
    + assert (0 <= k - 4 * Z.of_nat n) by (pose proof (Z.div_mod k 4); 
        pose proof (Z.mod_pos_bound k 4); lia).
      rewrite mfcr_field_value_bits by (try apply R; lia).
      destruct (Z.ltb_spec (k - 4 * Z.of_nat n) 4) as [M | M].
      * assert (Q : k / 4 = Z.of_nat n).
        { pose proof (Z.div_mod k 4). pose proof (Z.mod_pos_bound k 4). lia. }
        replace (k / 4 <? Z.of_nat (Datatypes.S n)) with true
          by (symmetry; apply Z.ltb_lt; lia).
        assert (Md : k mod 4 = k - 4 * Z.of_nat n).
        { pose proof (Z.div_mod k 4). lia. }
        rewrite Md, Q. f_equal. f_equal. lia.
      * replace (k / 4 <? Z.of_nat (Datatypes.S n)) with false
          by (symmetry; apply Z.ltb_ge;
              pose proof (Z.div_mod k 4); pose proof (Z.mod_pos_bound k 4); lia).
        f_equal. lia.
Qed.

Lemma mfcr_value_ext crs crs' n first acc :
  (forall i, crs i = crs' i) ->
  mfcr_value crs n first acc = mfcr_value crs' n first acc.
Proof.
  intros E. revert first acc. induction n as [|n IH]; intros first acc;
    cbn [mfcr_value]; [reflexivity|]. now rewrite E, IH.
Qed.

Lemma mfcr_rounds dis use d b c j n :
  b <> c ->
  forall first st,
    0 < first -> regs st (Scoped b) = 9 ->
    exists st',
      gen_run (JitArm64.for_each_field n first
                 (JitArm64.mfcr_field dis use (W (GPRh d)) (W (Scoped b))
                    (W (Scoped c)))) j st
        = Some (tt, j, st') /\
      regs st' (GPRh d)
        = mfcr_value (fun i => rd 64 st (gpr_CR i)) n first (regs st (GPRh d)) /\
      (forall g, regs st' (CRh g) = regs st (CRh g)).
Proof.
  intros Hbc. induction n as [|n IH]; intros first st Hf Hb.
  - exists st. cbn [JitArm64.for_each_field mfcr_value]. now rewrite gen_run_ret.
  - cbn [JitArm64.for_each_field mfcr_value].
    destruct (mfcr_field_runs dis use d b c first j st Hbc (fun _ => Hb))
      as (st1 & G1 & V1 & B1 & F1).
    rewrite (gen_run_bind _ _ _ _ _ _ _ G1).
    destruct (IH (first + 1) st1 ltac:(lia) B1) as (st2 & G2 & V2 & F2).
    exists st2. split; [exact G2|]. split.
    + rewrite V2, V1.
      replace (first =? 0) with false by (symmetry; apply Z.eqb_neq; lia).
      apply mfcr_value_ext. intros i. unfold rd, gpr_CR. cbn [host_of].
      now rewrite F1.
    + intros g. now rewrite F2, F1.
Qed.

Lemma mfcr_runs dis use inst j st :
  bJITSystemRegistersOff j = false ->
  exists st',
    state_after (JitArm64.mfcr dis use inst) j st = Some st' /\
    rd 32 st' (gpr_R (RD inst))
      = mfcr_value (fun i => rd 64 st (gpr_CR i)) 8 0 0 /\
    (forall g, regs st' (CRh g) = regs st (CRh g)).
Proof.
  intros Hoff. unfold JitArm64.mfcr.
  rewrite state_after_JITDISABLE by exact Hoff.
  rewrite state_after_scope.
  rewrite (state_after_bind _ _ _ _ _ _ _ (gen_run_ret tt j st)).
  cbv zeta.
  rewrite (state_after_bind _ _ _ _ _ _ _ (gen_run_GetScopedReg j st)).
  rewrite (state_after_bind _ _ _ _ _ _ _ (gen_run_GetScopedReg _ st)).
  cbn [gpr_scoped with_scoped]. unfold gpr_R.
  set (b := gpr_scoped j). set (J := with_scoped _ _ _).
  assert (Hbc : b <> Datatypes.S b) by lia.
  rewrite state_after_gen.
  change (JitArm64.for_each_field 8 0 ?body)
    with (body 0 ;; JitArm64.for_each_field 7 (0 + 1) body).
  destruct (mfcr_field_runs dis use (RD inst) b (Datatypes.S b) 0 J st Hbc
              ltac:(intros N; now elim N)) as (st1 & G1 & V1 & B1 & F1).
  rewrite (gen_run_bind _ _ _ _ _ _ _ G1).
  destruct (mfcr_rounds dis use (RD inst) b (Datatypes.S b) J 7 Hbc (0 + 1) st1
              ltac:(lia) B1) as (st2 & G2 & V2 & F2).
  rewrite G2. exists st2. split; [reflexivity|]. split.
  - cbn [rd host_of]. rewrite V2, V1. cbn [Z.eqb].
    rewrite wrap_small by (apply mfcr_value_range, mfcr_field_value_range).
    change (mfcr_value ?crs 8 0 0)
      with (mfcr_value crs 7 (0 + 1) (mfcr_field_value 0 (crs 0))).
    apply mfcr_value_ext. intros i. unfold rd, gpr_CR. cbn [host_of].
    now rewrite F1.
  - intros g. now rewrite F2, F1.
Qed.

(** X1. [mfcr] packs the condition register into its destination: with the
    JIT enabled for system registers the emitted code runs to its end, and
    bit [31 - idx] of the destination then holds flag [idx] of the
    condition register, for each of the 32 flags, whatever the block
    analysis says about the fields' later use. *)
Theorem mfcr_packs_the_condition_register
    (crDiscardable crInUse : Z -> bool) (inst : UGeckoInstruction)
    (j : Jit) (st : Host) :
  bJITSystemRegistersOff j = false ->
  exists st',
    state_after (JitArm64.mfcr crDiscardable crInUse inst) j st = Some st' /\
    forall idx, 0 <= idx <= 31 ->
      Z.testbit (rd 32 st' (gpr_R (RD inst))) (31 - idx) = CR_bit st idx.
Proof.
  intros Hoff.
  destruct (mfcr_runs crDiscardable crInUse inst j st Hoff) as (st' & E & V & _).
  exists st'. split; [exact E|]. intros idx Hidx.
  rewrite V, mfcr_value_bits by (try (intros i; apply rd_range); lia).
  change (Z.of_nat 8) with 8.
  assert (Q : (31 - idx) / 4 = 7 - idx / 4).
  { pose proof (Z.div_mod idx 4). pose proof (Z.mod_pos_bound idx 4).
    pose proof (Z.div_mod (31 - idx) 4). pose proof (Z.mod_pos_bound (31 - idx) 4).
    lia. }
  assert (M : (31 - idx) mod 4 = 3 - idx mod 4).
  { pose proof (Z.div_mod idx 4). pose proof (Z.mod_pos_bound idx 4).
    pose proof (Z.div_mod (31 - idx) 4). pose proof (Z.mod_pos_bound (31 - idx) 4).
    lia. }
  rewrite Q, M.
  replace (7 - idx / 4 <? 8) with true
    by (symmetry; apply Z.ltb_lt; pose proof (Z.div_pos idx 4); lia).
  unfold CR_bit.
  replace (Z.land idx 3) with (idx mod 4)
    by (symmetry; apply (Z.land_ones idx 2); lia).
  rewrite Z.shiftr_div_pow2 by lia. change (2 ^ 2) with 4.
  f_equal. f_equal. f_equal. lia.
Qed.

Lemma mfcr_packs_the_condition_register_witness :
  bJITSystemRegistersOff sample_jit = false /\
  exists st',
    state_after (JitArm64.mfcr (fun _ => false) (fun i => i =? 0) sample_inst)
                sample_jit (sample_host (2 ^ 59)) = Some st' /\
    Z.testbit (rd 32 st' (gpr_R (RD sample_inst))) (31 - 3)
      = CR_bit (sample_host (2 ^ 59)) 3.
Proof.
  assert (Hoff : bJITSystemRegistersOff sample_jit = false) by reflexivity.
  split; [exact Hoff|].
  destruct (mfcr_packs_the_condition_register (fun _ => false) (fun i => i =? 0)
              sample_inst sample_jit (sample_host (2 ^ 59)) Hoff) as (st' & E & B).
  exists st'. split; [exact E|]. apply B. lia.
Defined.
(* ===================================================================== *)
(** * Reading special registers                                           *)
(* ===================================================================== *)

(** ** Special registers read from the register file *)

Lemma wrap_wrap_le a b x : 0 <= a <= b -> wrap b (wrap a x) = wrap a x.
Proof.
  intros H. apply wrap_small.
  pose proof (wrap_range a x ltac:(lia)).
  assert (2 ^ a <= 2 ^ b) by (apply Z.pow_le_mono_r; lia). lia.
Qed.

Lemma mfspr_XER_runs inst j st :
  bJITSystemRegistersOff j = false ->
  SPR_index inst = SPR_XER ->
  exists st',
    state_after (JitArm64.mfspr inst) j st = Some st' /\
    regs st' (GPRh (RD inst))
      = wrap 32 (Z.lor
          (wrap 32 (Z.lor (load 16 st (PPCSTATE_OFF xer_stringctrl))
                          (wrap 32 (Z.shiftl (load 8 st (PPCSTATE_OFF xer_ca))
                                             XER_CA_SHIFT))))
          (wrap 32 (Z.shiftl (load 8 st (PPCSTATE_OFF xer_so_ov)) XER_OV_SHIFT))) /\
    mem st' = mem st /\ events st' = events st /\
    (forall g, g <> RD inst -> regs st' (GPRh g) = regs st (GPRh g)) /\
    (forall f, regs st' (CRh f) = regs st (CRh f)).
Proof.
  intros Off HI. unfold JitArm64.mfspr.
  rewrite state_after_JITDISABLE by exact Off. rewrite state_after_scope.
  cbv zeta.
  change (Z.lor (Z.shiftl (SPRU inst) 5) (Z.land (SPRL inst) 31)) with (SPR_index inst).
  rewrite HI. cbn [Z.eqb Pos.eqb orb SPR_XER SPR_TL SPR_TU].
  observe. jit_cbn. exec_all.
  eexists. split; [reflexivity|]. cbn [regs mem events].
  split; [|split; [reflexivity|split; [reflexivity|split]]].
  - simp_regs. subst. unfold load. cbn [mem].
    rewrite !wrap_wrap, !(wrap_wrap_le 16 32), !(wrap_wrap_le 8 32) by lia.
    reflexivity.
  - intros g Hg. simp_regs. reflexivity.
  - intros f. simp_regs. reflexivity.
Qed.

Lemma testbit_small w x k :
  0 <= w <= k -> Z.testbit (wrap w x) k = false.
Proof.
  intros H. rewrite testbit_wrap by lia.
  replace (k <? w) with false by (symmetry; apply Z.ltb_ge; lia). reflexivity.
Qed.

(** X12. [mfspr] of XER puts the register together from the three places
    the register file keeps it in: the low 16 bits come from
    [xer_stringctrl], the carry byte lands at bit 29 and the SO/OV byte at
    bit 30, so that with a carry byte of 0 or 1 and an SO/OV byte below 4
    bit 29 is CA, bit 30 is OV, bit 31 is SO and bits 16 to 28 are zero.
    Nothing in memory and no other guest register changes. *)
Theorem mfspr_reassembles_XER (inst : UGeckoInstruction) (j : Jit) (st : Host) :
  bJITSystemRegistersOff j = false ->
  SPR_index inst = SPR_XER ->
  load 8 st (PPCSTATE_OFF xer_ca) <= 1 ->
  load 8 st (PPCSTATE_OFF xer_so_ov) <= 3 ->
  exists st',
    state_after (JitArm64.mfspr inst) j st = Some st' /\
    let x := rd 32 st' (gpr_R (RD inst)) in
    (forall k, 0 <= k < 16 ->
       Z.testbit x k = Z.testbit (load 16 st (PPCSTATE_OFF xer_stringctrl)) k) /\
    (forall k, 16 <= k < 29 -> Z.testbit x k = false) /\
    Z.testbit x 29 = Z.testbit (load 8 st (PPCSTATE_OFF xer_ca)) 0 /\
    Z.testbit x 30 = Z.testbit (load 8 st (PPCSTATE_OFF xer_so_ov)) 0 /\
    Z.testbit x 31 = Z.testbit (load 8 st (PPCSTATE_OFF xer_so_ov)) 1 /\
    mem st' = mem st /\
    (forall g, g <> RD inst -> regs st' (GPRh g) = regs st (GPRh g)).
Proof.
  intros Off HI Hca Hov.
  destruct (mfspr_XER_runs inst j st Off HI) as (st' & E & V & M & _ & F & _).
  exists st'. split; [exact E|]. cbv zeta.
  set (sc := load 16 st (PPCSTATE_OFF xer_stringctrl)) in *.
  set (ca := load 8 st (PPCSTATE_OFF xer_ca)) in *.
  set (so := load 8 st (PPCSTATE_OFF xer_so_ov)) in *.
  assert (Rca : 0 <= ca) by (apply wrap_range; lia).
  assert (Rso : 0 <= so) by (apply wrap_range; lia).
  assert (B : forall k, 0 <= k < 32 ->
            Z.testbit (rd 32 st' (gpr_R (RD inst))) k
            = Z.testbit sc k || Z.testbit ca (k - 29) || Z.testbit so (k - 30)).
  { intros k Hk. unfold gpr_R. cbn [rd host_of]. rewrite V.
    unfold XER_CA_SHIFT, XER_OV_SHIFT.
    repeat (rewrite ?testbit_wrap, ?Z.lor_spec, ?Z.shiftl_spec by lia).
    replace (k <? 32) with true by (symmetry; apply Z.ltb_lt; lia).
    reflexivity. }
  assert (Hi_ca : forall k, 1 <= k -> Z.testbit ca k = false).
  { intros k Hk. destruct (Z.eq_dec ca 0) as [-> | N]; [apply Z.testbit_0_l|].
    replace ca with 1 by lia. apply (Z.bits_above_log2 1 k); cbn; lia. }
  assert (Hi_so : forall k, 2 <= k -> Z.testbit so k = false).
  { intros k Hk. destruct (Z.eq_dec so 0) as [-> | N]; [apply Z.testbit_0_l|].
    apply Z.bits_above_log2; [lia|].
    apply Z.log2_lt_pow2; [lia|].
    assert (2 ^ 2 <= 2 ^ k) by (apply Z.pow_le_mono_r; lia).
    change (2 ^ 2) with 4 in *. lia. }
  repeat split.
  - intros k Hk. rewrite B by lia.
    rewrite (Z.testbit_neg_r ca), (Z.testbit_neg_r so) by lia.
    now rewrite !orb_false_r.
  - intros k Hk. rewrite B by lia.
    rewrite (Z.testbit_neg_r ca), (Z.testbit_neg_r so) by lia.
    unfold sc, load. rewrite testbit_small by lia. reflexivity.
  - rewrite B by lia. unfold sc, load at 1. rewrite testbit_small by lia.
    change (29 - 29) with 0. rewrite (Z.testbit_neg_r so) by lia.
    now rewrite orb_false_r.
  - rewrite B by lia. unfold sc, load at 1. rewrite testbit_small by lia.
    change (30 - 29) with 1. change (30 - 30) with 0. now rewrite Hi_ca by lia.
  - rewrite B by lia. unfold sc, load at 1. rewrite testbit_small by lia.
    change (31 - 29) with 2. change (31 - 30) with 1. now rewrite Hi_ca by lia.
  - exact M.
  - exact F.
Qed.

Lemma mfspr_reassembles_XER_witness :
  bJITSystemRegistersOff sample_jit = false /\
  SPR_index (mfspr_inst 5 SPR_XER) = SPR_XER /\
  exists st',
    state_after (JitArm64.mfspr (mfspr_inst 5 SPR_XER)) sample_jit (sample_host 1)
      = Some st' /\
    Z.testbit (rd 32 st' (gpr_R 5)) 29 = true /\
    Z.testbit (rd 32 st' (gpr_R 5)) 30 = true /\
    Z.testbit (rd 32 st' (gpr_R 5)) 31 = false.
Proof.
  assert (Off : bJITSystemRegistersOff sample_jit = false) by reflexivity.
  assert (HI : SPR_index (mfspr_inst 5 SPR_XER) = SPR_XER) by reflexivity.
  assert (Hca : load 8 (sample_host 1) (PPCSTATE_OFF xer_ca) <= 1)
    by (vm_compute; discriminate).
  assert (Hov : load 8 (sample_host 1) (PPCSTATE_OFF xer_so_ov) <= 3)
    by (vm_compute; discriminate).
  split; [exact Off|]. split; [exact HI|].
  destruct (mfspr_reassembles_XER (mfspr_inst 5 SPR_XER) sample_jit (sample_host 1)
              Off HI Hca Hov) as (st' & E & _ & _ & B29 & B30 & B31 & _).
  exists st'. split; [exact E|]. split; [exact B29|]. split; [exact B30 | exact B31].
Defined.

Lemma scope_fallback j :
  scope (FALLBACK_IF true (ret tt)) j = Some (tt, [FallBackToInterpreter], j).
Proof. destruct j. reflexivity. Qed.

(** X13. [mfspr] of a special register that has no case of its own - not
    the timebase and not XER - either hands the instruction to the
    interpreter, for the eleven registers whose reads have side effects or
    are computed (WPAR, DEC, the performance counters, IABR), or loads the
    32-bit value the register file holds for that index into the
    destination and changes nothing else. *)
Theorem mfspr_loads_the_stored_register
    (inst : UGeckoInstruction) (j : Jit) (st : Host) :
  bJITSystemRegistersOff j = false ->
  SPR_index inst <> SPR_TL -> SPR_index inst <> SPR_TU ->
  SPR_index inst <> SPR_XER ->
  if existsb (Z.eqb (SPR_index inst))
       [SPR_WPAR; SPR_DEC; SPR_PMC1; SPR_PMC2; SPR_PMC3; SPR_PMC4;
        SPR_UPMC1; SPR_UPMC2; SPR_UPMC3; SPR_UPMC4; SPR_IABR]
  then JitArm64.mfspr inst j = Some (tt, [FallBackToInterpreter], j)
  else
    exists st',
      state_after (JitArm64.mfspr inst) j st = Some st' /\
      rd 64 st' (EncodeRegTo64 (gpr_R (RD inst)))
        = load 32 st (PPCSTATE_OFF_SPR (SPR_index inst)) /\
      mem st' = mem st /\ events st' = events st /\
      (forall h, h <> GPRh (RD inst) -> regs st' h = regs st h).
Proof.
  intros Off NL NU NX.
  apply Z.eqb_neq in NL, NU, NX.
  destruct (existsb _ _) eqn:L.
  - unfold JitArm64.mfspr, JITDISABLE, bind, get_jit. rewrite Off.
    cbv zeta. cbn [FALLBACK_IF].
    change (Z.lor (Z.shiftl (SPRU inst) 5) (Z.land (SPRL inst) 31))
      with (SPR_index inst).
    rewrite NL, NU, NX, L. cbn [orb]. rewrite scope_fallback. reflexivity.
  - unfold JitArm64.mfspr.
    rewrite state_after_JITDISABLE by exact Off. rewrite state_after_scope.
    cbv zeta.
    change (Z.lor (Z.shiftl (SPRU inst) 5) (Z.land (SPRL inst) 31))
      with (SPR_index inst).
    rewrite NL, NU, NX, L. cbn [orb].
    observe. jit_cbn. exec_all.
    eexists. split; [reflexivity|]. cbn [regs mem events rd host_of].
    split; [|split; [reflexivity|split; [reflexivity|]]].
    + simp_regs. subst. unfold load. rewrite !wrap_wrap.
      apply wrap_wrap_le. lia.
    + intros h Hh. rewrite upd_other; [reflexivity|].
      destruct h; cbn [HostReg_eqb]; try reflexivity.
      apply Z.eqb_neq. congruence.
Qed.

Lemma mfspr_loads_the_stored_register_witness :
  bJITSystemRegistersOff sample_jit = false /\
  JitArm64.mfspr (mfspr_inst 5 SPR_DEC) sample_jit
    = Some (tt, [FallBackToInterpreter], sample_jit) /\
  exists st',
    state_after (JitArm64.mfspr (mfspr_inst 5 SPR_SRR1)) sample_jit
                (sample_host 0x1234567890) = Some st' /\
    rd 64 st' (EncodeRegTo64 (gpr_R 5)) = 0x34567890.
Proof.
  assert (Off : bJITSystemRegistersOff sample_jit = false) by reflexivity.
  split; [exact Off|]. split.
  - exact (mfspr_loads_the_stored_register (mfspr_inst 5 SPR_DEC) sample_jit
             (sample_host 0) Off ltac:(discriminate) ltac:(discriminate)
             ltac:(discriminate)).
  - destruct (mfspr_loads_the_stored_register (mfspr_inst 5 SPR_SRR1) sample_jit
                (sample_host 0x1234567890) Off ltac:(discriminate)
                ltac:(discriminate) ltac:(discriminate)) as (st' & E & V & _).
    exists st'. split; [exact E | exact V].
Defined.

(** X14. [mftb] is translated exactly as [mfspr]: the same instructions
    and the same state of the JIT afterwards, whether the handlers are
    switched off (one hand-over to the interpreter, not two) or on (with
    everything [mfspr] does for the timebase, the fusion included). *)
Theorem mftb_is_mfspr (inst : UGeckoInstruction) (j : Jit) :
  JitArm64.mftb inst j = JitArm64.mfspr inst j.
Proof.
  unfold JitArm64.mftb. unfold JITDISABLE at 1. unfold bind, get_jit.
  destruct (bJITSystemRegistersOff j) eqn:Off; cbn [FALLBACK_IF].
  - unfold JitArm64.mfspr, JITDISABLE, bind, get_jit. rewrite Off. reflexivity.
  - destruct (JitArm64.mfspr inst j) as [[[a c] j']|]; [|reflexivity].
    destruct a. now rewrite app_nil_l.
Qed.

(** X15. The timebase fast path of [mfspr] also refreshes the copy of the
    counter in the register file: afterwards the registers TL and TU there
    hold the low and the high half of the counter just computed, and the
    destination holds what a plain load of the register it names would now
    give. *)
Theorem timebase_read_refreshes_the_stored_counter
    (inst : UGeckoInstruction) (j : Jit) (st : Host) :
  bJITSystemRegistersOff j = false ->
  SPR_index inst = SPR_TL \/ SPR_index inst = SPR_TU ->
  exists st',
    state_after (JitArm64.mfspr inst) j st = Some st' /\
    load 32 st' (PPCSTATE_OFF_SPR SPR_TL) = wrap 32 (spec_timebase st) /\
    load 32 st' (PPCSTATE_OFF_SPR SPR_TU) = Z.shiftr (spec_timebase st) 32 /\
    regs st' (GPRh (RD inst)) = load 32 st' (PPCSTATE_OFF_SPR (SPR_index inst)).
Proof.
  intros Off HI.
  destruct (mfspr_timebase_runs inst j st Off HI)
    as (j' & st' & G & _ & _ & D & _ & _ & L & U).
  exists st'. split; [rewrite state_after_gen, G; reflexivity|].
  split; [exact L|]. split; [exact U|].
  rewrite D. unfold timebase_half.
  destruct HI as [-> | ->]; cbn [Z.eqb Pos.eqb SPR_TL SPR_TU]; symmetry; assumption.
Qed.

Lemma timebase_read_refreshes_the_stored_counter_witness :
  bJITSystemRegistersOff sample_jit = false /\
  (SPR_index (mftb_inst 3 SPR_TU) = SPR_TL \/ SPR_index (mftb_inst 3 SPR_TU) = SPR_TU) /\
  exists st',
    state_after (JitArm64.mfspr (mftb_inst 3 SPR_TU)) sample_jit (sample_host 24)
      = Some st' /\
    regs st' (GPRh 3) = load 32 st' (PPCSTATE_OFF_SPR SPR_TU).
Proof.
  assert (Off : bJITSystemRegistersOff sample_jit = false) by reflexivity.
  assert (HI : SPR_index (mftb_inst 3 SPR_TU) = SPR_TL \/
               SPR_index (mftb_inst 3 SPR_TU) = SPR_TU) by (right; reflexivity).
  split; [exact Off|]. split; [exact HI|].
  destruct (timebase_read_refreshes_the_stored_counter (mftb_inst 3 SPR_TU)
              sample_jit (sample_host 24) Off HI) as (st' & E & _ & _ & R).
  exists st'. split; [exact E | exact R].
Defined.

(** ** The trap instructions, for every mask *)

Lemma mask_bit_clear to m k :
  Z.land to m = 0 -> Z.testbit m k = true -> Z.testbit to k = false.
Proof.
  intros H M. assert (E : Z.testbit (Z.land to m) k = false)
    by (rewrite H; apply Z.testbit_0_l).
  rewrite Z.land_spec, M, andb_true_r in E. exact E.
Qed.

Lemma mask_bit_set to m k :
  Z.land to m = m -> Z.testbit m k = true -> Z.testbit to k = true.
Proof.
  intros H M. assert (E : Z.testbit (Z.land to m) k = true) by now rewrite H.
  rewrite Z.land_spec, M, andb_true_r in E. exact E.
Qed.

Lemma twx_flags_operands inst st :
  let a := rd 32 st (gpr_R (s32 (RA inst))) in
  let b := if OPCD inst =? 3 then wrap 32 (s32 (s16 (SIMM_16 inst)))
           else rd 32 st (gpr_R (RB inst)) in
  twx_flags inst st = SUBS_flags 32 a b /\ 0 <= a < 2 ^ 32 /\ 0 <= b < 2 ^ 32.
Proof.
  cbv zeta. unfold twx_flags. split; [destruct (OPCD inst =? 3); reflexivity|].
  split; [unfold gpr_R; cbn [rd host_of]; apply wrap_range; lia|].
  destruct (OPCD inst =? 3); [|unfold gpr_R; cbn [rd host_of]]; apply wrap_range; lia.
Qed.

Lemma twx_condition_bits to a b :
  0 <= a < 2 ^ 32 -> 0 <= b < 2 ^ 32 ->
  twx_condition to 0 JitArm64.conditions (SUBS_flags 32 a b)
  = (Z.testbit to 0 && (signed 32 a <? signed 32 b))
    || (Z.testbit to 1 && (signed 32 b <? signed 32 a))
    || (Z.testbit to 2 && (a =? b))
    || (Z.testbit to 3 && negb (flagV (SUBS_flags 32 a b)))
    || (Z.testbit to 4 && flagV (SUBS_flags 32 a b)).
Proof.
  intros Ha Hb. rewrite (twx_condition_meaning to a b Ha Hb). cbv zeta.
  change (Z.shiftl 1 0) with (2 ^ 0). change (Z.shiftl 1 1) with (2 ^ 1).
  change (Z.shiftl 1 2) with (2 ^ 2). change (Z.shiftl 1 3) with (2 ^ 3).
  change (Z.shiftl 1 4) with (2 ^ 4).
  rewrite !land_pow2_testbit, !negb_involutive by lia.
  cbn [relation_holds]. rewrite orb_false_r, !orb_assoc. reflexivity.
Qed.

(** X16. For a mask that uses only its three low bits, [tw] and [twi] trap
    exactly when a selected relation holds between the operands as signed
    32-bit numbers: bit 0 selects less-than, bit 1 greater-than, bit 2
    equality.  The first operand is the register [RA] names; the second is
    the register [RB] names, or for [twi] the sign-extended immediate. *)
Theorem twx_signed_masks_are_exact (inst : UGeckoInstruction) (j : Jit) (st : Host) :
  bJITSystemRegistersOff j = false ->
  Z.land (TO inst) 24 = 0 ->
  let a := rd 32 st (gpr_R (s32 (RA inst))) in
  let b := if OPCD inst =? 3 then wrap 32 (s32 (s16 (SIMM_16 inst)))
           else rd 32 st (gpr_R (RB inst)) in
  twx_traps inst j st
  = Some ((Z.testbit (TO inst) 0 && (signed 32 a <? signed 32 b))
          || (Z.testbit (TO inst) 1 && (signed 32 b <? signed 32 a))
          || (Z.testbit (TO inst) 2 && (a =? b))).
Proof.
  intros Off M a b. rewrite (twx_trap_condition inst j st Off).
  destruct (twx_flags_operands inst st) as (F & Ha & Hb). fold a b in F, Ha, Hb.
  rewrite F, (twx_condition_bits _ a b Ha Hb).
  rewrite (mask_bit_clear _ 24 3 M), (mask_bit_clear _ 24 4 M) by reflexivity.
  cbn [andb]. now rewrite !orb_false_r.
Qed.

Lemma twx_signed_masks_are_exact_witness :
  bJITSystemRegistersOff sample_jit = false /\
  Z.land (TO (twi_inst 1 0xFFFF)) 24 = 0 /\
  twx_traps (twi_inst 1 0xFFFF) sample_jit (host_with_operands 0xFFFFFFFE 0)
    = Some true /\
  twx_traps (twi_inst 1 0xFFFF) sample_jit (host_with_operands 0 0)
    = Some false.
Proof.
  assert (Off : bJITSystemRegistersOff sample_jit = false) by reflexivity.
  assert (M : Z.land (TO (twi_inst 1 0xFFFF)) 24 = 0) by reflexivity.
  split; [exact Off|]. split; [exact M|]. split.
  - exact (twx_signed_masks_are_exact (twi_inst 1 0xFFFF) sample_jit
             (host_with_operands 0xFFFFFFFE 0) Off M).
  - exact (twx_signed_masks_are_exact (twi_inst 1 0xFFFF) sample_jit
             (host_with_operands 0 0) Off M).
Defined.

(** X17. Masks that decide the trap without looking at the operands: with
    none of the five mask bits set the trap exit is never taken; with bits
    3 and 4 both set, or bits 0, 1 and 2 all set, it is always taken, so the
    unconditional trap (mask 31) always traps. *)
Theorem twx_masks_that_ignore_the_operands
    (inst : UGeckoInstruction) (j : Jit) (st : Host) :
  bJITSystemRegistersOff j = false ->
  (Z.land (TO inst) 31 = 0 -> twx_traps inst j st = Some false) /\
  (Z.land (TO inst) 24 = 24 \/ Z.land (TO inst) 7 = 7 ->
   twx_traps inst j st = Some true).
Proof.
  intros Off. rewrite (twx_trap_condition inst j st Off).
  destruct (twx_flags_operands inst st) as (F & Ha & Hb). cbv zeta in F, Ha, Hb.
  rewrite F, (twx_condition_bits _ _ _ Ha Hb). split.
  - intros M.
    rewrite (mask_bit_clear _ 31 0 M), (mask_bit_clear _ 31 1 M),
            (mask_bit_clear _ 31 2 M), (mask_bit_clear _ 31 3 M),
            (mask_bit_clear _ 31 4 M) by reflexivity.
    reflexivity.
  - intros [M | M].
    + rewrite (mask_bit_set _ 24 3 M), (mask_bit_set _ 24 4 M) by reflexivity.
      cbn [andb]. destruct (flagV _); cbn [negb]; now rewrite ?orb_true_r.
    + rewrite (mask_bit_set _ 7 0 M), (mask_bit_set _ 7 1 M),
              (mask_bit_set _ 7 2 M) by reflexivity.
      cbn [andb].
      match goal with
      | |- context [signed 32 ?x <? signed 32 ?y] =>
          assert (T : (signed 32 x <? signed 32 y) || (signed 32 y <? signed 32 x)
                      || (x =? y) = true)
      end.
      { match goal with
        | |- context [?x =? ?y] =>
            destruct (Z.eqb_spec x y) as [E | N]; [now rewrite orb_true_r|]
        end.
        rewrite orb_false_r. apply orb_true_iff.
        rewrite !Z.ltb_lt.
        match goal with
        | |- signed 32 ?x < signed 32 ?y \/ _ =>
            assert (signed 32 x <> signed 32 y);
            [ unfold signed; change (32 - 1) with 31;
              change (2 ^ 32) with 4294967296 in *;
              change (2 ^ 31) with 2147483648;
              destruct (x <? 2147483648), (y <? 2147483648); lia
            | lia ]
        end. }
      rewrite T. reflexivity.
Qed.

Lemma twx_masks_that_ignore_the_operands_witness :
  bJITSystemRegistersOff sample_jit = false /\
  twx_traps (tw_inst 0) sample_jit (host_with_operands 1 2) = Some false /\
  twx_traps (tw_inst 31) sample_jit (host_with_operands 1 2) = Some true.
Proof.
  assert (Off : bJITSystemRegistersOff sample_jit = false) by reflexivity.
  split; [exact Off|]. split.
  - exact (proj1 (twx_masks_that_ignore_the_operands (tw_inst 0) sample_jit
                    (host_with_operands 1 2) Off) eq_refl).
  - exact (proj2 (twx_masks_that_ignore_the_operands (tw_inst 31) sample_jit
                    (host_with_operands 1 2) Off) (or_introl eq_refl)).
Defined.

(** X18. The three ways out of [tw] and [twi].  The emitted code never
    ends on an unresolved branch.  It leaves through the exception exit at
    the address of the instruction itself, with the program exception
    raised, the trap cause in SRR1 and the registers flushed with their
    state kept; or, when the block may continue past a conditional exit, it
    runs on with registers, memory and the event log untouched; or else it
    flushes everything and leaves the block at the next instruction, with
    memory untouched. *)
Theorem twx_ways_out (inst : UGeckoInstruction) (j : Jit) (st : Host) :
  bJITSystemRegistersOff j = false ->
  exists out,
    run (JitArm64.twx inst) j st = Some out /\
    match out with
    | ExceptionExit dest st' =>
        dest = js_compilerPC j /\
        load 32 st' (PPCSTATE_OFF Exceptions)
          = Z.lor (load 32 st (PPCSTATE_OFF Exceptions)) EXCEPTION_PROGRAM /\
        load 32 st' (PPCSTATE_OFF_SPR SPR_SRR1) = ProgramExceptionCause_Trap /\
        events st' = events st ++ [EvGprFlush FlushMode.MaintainState;
                                   EvFprFlush FlushMode.MaintainState]
    | Fallthrough st' =>
        OPTION_CONDITIONAL_CONTINUE j = true /\
        regs st' = regs st /\ mem st' = mem st /\ events st' = events st
    | BlockExit dest st' =>
        OPTION_CONDITIONAL_CONTINUE j = false /\
        dest = js_compilerPC j + 4 /\ mem st' = mem st /\
        events st' = events st ++ [EvGprFlush FlushMode.All;
                                   EvFprFlush FlushMode.All]
    | Pending _ _ => False
    end.
Proof.
  intros Off. destruct (twx_runs inst j st Off) as (out & R & H).
  exists out. split; [exact R|].
  destruct (twx_condition _ _ _ _).
  - destruct H as (st' & -> & EX & SRR & EV). repeat split; assumption.
  - destruct (OPTION_CONDITIONAL_CONTINUE j).
    + subst out. repeat split.
    + destruct H as (st' & -> & M & EV). repeat split; assumption.
Qed.

Lemma twx_ways_out_witness :
  bJITSystemRegistersOff sample_jit = false /\
  exists st',
    run (JitArm64.twx (tw_inst 4)) sample_jit (host_with_operands 1 2)
      = Some (BlockExit (js_compilerPC sample_jit + 4) st').
Proof.
  assert (Off : bJITSystemRegistersOff sample_jit = false) by reflexivity.
  split; [exact Off|].
  destruct (twx_ways_out (tw_inst 4) sample_jit (host_with_operands 1 2) Off)
    as (out & R & H).
  assert (T : twx_traps (tw_inst 4) sample_jit (host_with_operands 1 2) = Some false)
    by (vm_compute; reflexivity).
  unfold twx_traps in T. rewrite R in T.
  destruct out as [s | f s | d s | d s]; try discriminate T.
  - destruct H as (C & _). discriminate C.
  - destruct H as (_ & -> & _). exists s. exact R.
Defined.

(** ** Instructions left to the interpreter *)

(** X19. With the handlers for system registers switched off, every
    handler hands its instruction to the interpreter and does nothing
    else: it emits no other code, takes no temporary register and leaves
    the state of the JIT - the skip count and the downcount [mfspr] may
    change included - as it was. *)
Theorem switched_off_handlers_only_fall_back
    (inst : UGeckoInstruction) (crDiscardable crInUse : Z -> bool)
    (CRFS CRFD : Z) (j : Jit) :
  bJITSystemRegistersOff j = true ->
  Forall (fun handler : Emit unit =>
            handler j = Some (tt, [FallBackToInterpreter], j))
    [JitArm64.twx inst; JitArm64.mfspr inst; JitArm64.mftb inst;
     JitArm64.crXXX inst; JitArm64.mfcr crDiscardable crInUse inst;
     JitArm64.mcrf CRFS CRFD;
     JitArm64.mtfsb0x inst; JitArm64.mtfsb1x inst].
Proof.
  intros Off.
  repeat constructor;
    unfold JitArm64.twx, JitArm64.mfspr, JitArm64.mftb, JitArm64.crXXX,
           JitArm64.mfcr, JitArm64.mcrf, JitArm64.mtfsb0x, JitArm64.mtfsb1x,
           JITDISABLE, bind, get_jit;
    rewrite Off; reflexivity.
Qed.

Lemma switched_off_handlers_only_fall_back_witness :
  bJITSystemRegistersOff sample_jit_off = true /\
  JitArm64.mfspr (mftb_inst 3 SPR_TL) sample_jit_off
    = Some (tt, [FallBackToInterpreter], sample_jit_off).
Proof.
  assert (Off : bJITSystemRegistersOff sample_jit_off = true) by reflexivity.
  split; [exact Off|].
  pose proof (switched_off_handlers_only_fall_back (mftb_inst 3 SPR_TL)
                (fun _ => false) (fun _ => false) 0 1 sample_jit_off Off) as F.
  inversion F as [|h1 l1 _ F1]. inversion F1 as [|h2 l2 H2 _]. exact H2.
Defined.

(** X20. The forms of the FPSCR bit instructions that are not translated:
    the record forms (Rc set) of [mtfsb0x] and [mtfsb1x], and every
    [mtfsb1x] while floating-point exceptions are enabled in the JIT, are
    handed to the interpreter, with no other code emitted. *)
Theorem mtfsb_forms_left_to_the_interpreter (inst : UGeckoInstruction) (j : Jit) :
  bJITSystemRegistersOff j = false ->
  Rc inst = true \/ jo_fp_exceptions j = true ->
  JitArm64.mtfsb1x inst j = Some (tt, [FallBackToInterpreter], j) /\
  (Rc inst = true ->
   JitArm64.mtfsb0x inst j = Some (tt, [FallBackToInterpreter], j)).
Proof.
  intros Off H. split.
  - unfold JitArm64.mtfsb1x, JITDISABLE, bind, get_jit. rewrite Off.
    cbn [FALLBACK_IF]. destruct (Rc inst); [reflexivity|].
    destruct H as [H | H]; [discriminate|]. cbn [FALLBACK_IF]. rewrite H.
    reflexivity.
  - intros R. unfold JitArm64.mtfsb0x, JITDISABLE, bind, get_jit.
    rewrite Off, R. reflexivity.
Qed.

Lemma mtfsb_forms_left_to_the_interpreter_witness :
  bJITSystemRegistersOff sample_jit = false /\
  (Rc (fpscr_record_inst 5) = true \/ jo_fp_exceptions sample_jit = true) /\
  JitArm64.mtfsb1x (fpscr_record_inst 5) sample_jit
    = Some (tt, [FallBackToInterpreter], sample_jit) /\
  JitArm64.mtfsb0x (fpscr_record_inst 5) sample_jit
    = Some (tt, [FallBackToInterpreter], sample_jit).
Proof.
  assert (Off : bJITSystemRegistersOff sample_jit = false) by reflexivity.
  assert (H : Rc (fpscr_record_inst 5) = true \/ jo_fp_exceptions sample_jit = true)
    by (left; reflexivity).
  split; [exact Off|]. split; [exact H|].
  destruct (mtfsb_forms_left_to_the_interpreter (fpscr_record_inst 5) sample_jit
              Off H) as (A & B).
  split; [exact A | exact (B eq_refl)].
Defined.

(** ** The guard and the field copy *)

Lemma spec_flag_fix_gt b w :
  0 <= w < 2 ^ 64 -> spec_flag b (fix_gt w) = spec_flag b w.
Proof.
  intros R. unfold spec_flag, spec_SO, spec_LT, spec_EQ.
  destruct (b =? PowerPC.CR_SO_BIT); [apply fix_gt_other_bits; lia|].
  destruct (b =? PowerPC.CR_EQ_BIT); [now rewrite wrap_32_fix_gt|].
  destruct (b =? PowerPC.CR_GT_BIT); [|apply fix_gt_other_bits; lia].
  unfold fix_gt. destruct (Z.eqb_spec w 0) as [-> | N]; reflexivity.
Qed.

(** X21. The guard [FixGTBeforeSettingCRFieldBit] changes the word of a
    field without changing what it means: every one of the 32 flags of the
    condition register reads after the guard as it read before. *)
Theorem FixGT_changes_no_flag (field : Z) (j : Jit) (st : Host) :
  exists st',
    state_after (JitArm64.FixGTBeforeSettingCRFieldBit (gpr_CR field)) j st
      = Some st' /\
    forall idx, CR_bit st' idx = CR_bit st idx.
Proof.
  observe. jit_cbn. exec_all. eexists. split; [reflexivity|].
  intros idx. unfold CR_bit, gpr_CR. cbn [rd host_of regs].
  destruct (Z.eqb_spec field (Z.shiftr idx 2)) as [<- | N].
  - simp_regs. subst. rewrite fix_gt_csel.
    rewrite wrap_small by (apply fix_gt_range, wrap_range; lia).
    apply spec_flag_fix_gt, wrap_range. lia.
  - simp_regs. reflexivity.
Qed.

(** X22. [mcrf] copies a field: afterwards each of the four flags of the
    destination field reads as the same flag of the source field read
    before, and the flags of every other field are unchanged.  For equal
    field numbers no code is emitted at all. *)
Theorem mcrf_copies_the_field (CRFS CRFD : Z) (j : Jit) (st : Host) :
  bJITSystemRegistersOff j = false ->
  (CRFS = CRFD -> emitted (JitArm64.mcrf CRFS CRFD) j = Some []) /\
  exists st',
    state_after (JitArm64.mcrf CRFS CRFD) j st = Some st' /\
    forall idx,
      CR_bit st' idx
      = if Z.shiftr idx 2 =? CRFD
        then spec_flag (3 - Z.land idx 3) (rd 64 st (gpr_CR CRFS))
        else CR_bit st idx.
Proof.
  intros Off. split.
  - intros ->. unfold JitArm64.mcrf.
    rewrite emitted_JITDISABLE by exact Off. rewrite emitted_scope.
    now rewrite Z.eqb_refl.
  - unfold JitArm64.mcrf.
    rewrite state_after_JITDISABLE by exact Off. rewrite state_after_scope.
    destruct (Z.eqb_spec CRFS CRFD) as [-> | N]; cbn [negb when].
    + exists st. split; [reflexivity|]. intros idx. unfold CR_bit.
      destruct (Z.eqb_spec (Z.shiftr idx 2) CRFD) as [-> | _]; reflexivity.
    + observe. jit_cbn. exec_all. eexists. split; [reflexivity|].
      intros idx. unfold CR_bit, gpr_CR. cbn [rd host_of regs].
      destruct (Z.eqb_spec (Z.shiftr idx 2) CRFD) as [-> | M].
      * simp_regs. subst. now rewrite !wrap_wrap.
      * simp_regs. reflexivity.
Qed.

Lemma mcrf_copies_the_field_witness :
  bJITSystemRegistersOff sample_jit = false /\
  emitted (JitArm64.mcrf 2 2) sample_jit = Some [] /\
  exists st',
    state_after (JitArm64.mcrf 2 6) sample_jit (sample_host 5) = Some st' /\
    CR_bit st' 25 = spec_flag 2 (rd 64 (sample_host 5) (gpr_CR 2)).
Proof.
  assert (Off : bJITSystemRegistersOff sample_jit = false) by reflexivity.
  split; [exact Off|]. split.
  - exact (proj1 (mcrf_copies_the_field 2 2 sample_jit (sample_host 5) Off) eq_refl).
  - destruct (proj2 (mcrf_copies_the_field 2 6 sample_jit (sample_host 5) Off))
      as (st' & E & F).
    exists st'. split; [exact E | exact (F 25)].
Defined.
